(** * Price observations: the persistence and synthesis layer of [cpi.py]

    A shallow embedding of [sqlize] and of the [Observation] class
    ([write], [delete_matching], [table_df], [create_table],
    [get_test_data]) together with the part of the SQLite backend and of
    pandas that these functions drive, and of the dashboard callbacks of
    [app.py] that call them; the properties that the specification states
    about them, and further properties that the code shows. *)

From Stdlib Require Import List String Ascii Bool Arith ZArith NArith QArith Lia Lqa.
From Stdlib Require Import DecimalFacts DecimalString DecimalZ DecimalPos DecimalN.
From Stdlib Require Import Sorting.Sorted Permutation.
Import ListNotations.

Local Close Scope Q_scope.
Local Open Scope list_scope.
Local Open Scope string_scope.

(* ================================================================= *)
(** ** Python strings *)

Module PyStr.

(** [starts_with p s]: [s.startswith(p)]. *)
Fixpoint starts_with (p s : string) : bool :=
  match p, s with
  | EmptyString, _ => true
  | String a p', String b s' => Ascii.eqb a b && starts_with p' s'
  | String _ _, EmptyString => false
  end.

(** The scan of [str.replace]: left to right, occurrences do not overlap.
    [skip] counts the characters of an occurrence that was just replaced
    and that are still ahead. *)
Fixpoint replace_scan (old new : string) (skip : nat) (s : string) : string :=
  match s with
  | EmptyString => EmptyString
  | String c s' =>
      match skip with
      | S k => replace_scan old new k s'
      | O =>
          if starts_with old s
          then new ++ replace_scan old new (String.length old - 1) s'
          else String c (replace_scan old new 0 s')
      end
  end.

(** [s.replace(old, new)].  With an empty [old] Python puts [new] before
    every character and at the end. *)
Definition replace (old new s : string) : string :=
  match old with
  | EmptyString =>
      new ++ String.concat EmptyString (map (fun c => String c new) (list_ascii_of_string s))
  | _ => replace_scan old new 0 s
  end.

Definition upper (c : ascii) : ascii :=
  let n := nat_of_ascii c in
  if (97 <=? n)%nat && (n <=? 122)%nat then ascii_of_nat (n - 32) else c.

Definition lower (c : ascii) : ascii :=
  let n := nat_of_ascii c in
  if (65 <=? n)%nat && (n <=? 90)%nat then ascii_of_nat (n + 32) else c.

Fixpoint map_chars (f : ascii -> ascii) (s : string) : string :=
  match s with
  | EmptyString => EmptyString
  | String c s' => String (f c) (map_chars f s')
  end.

(** [s.lower()] and [s.capitalize()]: first character upper-cased, the
    others lower-cased. *)
Definition lower_str := map_chars lower.

Definition capitalize (s : string) : string :=
  match s with
  | EmptyString => EmptyString
  | String c s' => String (upper c) (lower_str s')
  end.

(** [sep.join(l)]. *)
Definition join (sep : string) (l : list string) : string := String.concat sep l.

End PyStr.

(* ================================================================= *)
(** ** Numerals *)

(** The text of a number: integer digits, optional fraction digits after
    a point, optional exponent with its sign.  It is what [repr] prints
    for a finite float ([3.99], [1e-05], [1.5e+16]) and what the SQL
    tokenizer reads as a numeric literal.  An empty run of integer or
    exponent digits stands for 0 and is written so. *)
Record numeral := mkNumeral {
  int_part : Decimal.uint;
  frac_part : option Decimal.uint;
  exp_part : option (bool * Decimal.uint)
}.

Definition exp_text (e : option (bool * Decimal.uint)) : string :=
  match e with
  | None => EmptyString
  | Some (neg, d) =>
      "e" ++ (if neg : bool then "-" else "+") ++ NilZero.string_of_uint d
  end.

Definition frac_text (f : option Decimal.uint) : string :=
  match f with
  | None => EmptyString
  | Some d => "." ++ NilEmpty.string_of_uint d
  end.

Definition numeral_text (n : numeral) : string :=
  NilZero.string_of_uint (int_part n) ++ frac_text (frac_part n) ++ exp_text (exp_part n).

Definition pow10 (e : Z) : Q := Qpower (10 # 1) e.

(** The number a numeral denotes: [(i + f / 10^|f|) * 10^e]. *)
Definition numeral_value (n : numeral) : Q :=
  let i := inject_Z (Z.of_uint (int_part n)) in
  let f :=
    match frac_part n with
    | None => 0%Q
    | Some d => (inject_Z (Z.of_uint d) * pow10 (- Z.of_nat (Decimal.nb_digits d)))%Q
    end in
  let e :=
    match exp_part n with
    | None => 1%Q
    | Some (neg, d) => pow10 (if neg : bool then (- Z.of_uint d)%Z else Z.of_uint d)
    end in
  ((i + f) * e)%Q.

(* ================================================================= *)
(** ** Python values *)

(** A Python float, known through what [str] prints for it. *)
Inductive pyfloat :=
| FNan
| FInf (neg : bool)
| FFinite (neg : bool) (n : numeral).

Definition float_repr (f : pyfloat) : string :=
  match f with
  | FNan => "nan"
  | FInf false => "inf"
  | FInf true => "-inf"
  | FFinite neg n => (if neg then "-" else EmptyString) ++ numeral_text n
  end.

Definition float_value (f : pyfloat) : option Q :=
  match f with
  | FFinite neg n => Some (if neg then (- numeral_value n)%Q else numeral_value n)
  | _ => None
  end.

(** [datetime.date]: year 1..9999, month 1..12, day 1..31. *)
Record date := mkDate { year : N; month : N; day : N }.

(** The time part of a [datetime.datetime]. *)
Record time := mkTime { hour : N; minute : N; second : N; microsecond : N }.

Definition midnight : time := mkTime 0 0 0 0.

Definition valid_date (d : date) : bool :=
  ((1 <=? year d) && (year d <=? 9999) && (1 <=? month d) && (month d <=? 12)
   && (1 <=? day d) && (day d <=? 31))%N.

Definition valid_time (t : time) : bool :=
  ((hour t <=? 23) && (minute t <=? 59) && (second t <=? 59)
   && (microsecond t <=? 999999))%N.

(** The scalars that [sqlize] is handed, and [None]. *)
Inductive pyval :=
| PNone
| PStr (s : string)
| PInt (z : Z)
| PFloat (f : pyfloat)
| PBool (b : bool)
| PDate (d : date)
| PDateTime (d : date) (t : time).

Inductive pyclass := Cstr | Cint | Cfloat | Cbool | Cdate | Cdatetime | CNoneType.

Definition type_of (v : pyval) : pyclass :=
  match v with
  | PNone => CNoneType
  | PStr _ => Cstr
  | PInt _ => Cint
  | PFloat _ => Cfloat
  | PBool _ => Cbool
  | PDate _ => Cdate
  | PDateTime _ _ => Cdatetime
  end.

Definition pyclass_eqb (a b : pyclass) : bool :=
  match a, b with
  | Cstr, Cstr | Cint, Cint | Cfloat, Cfloat | Cbool, Cbool
  | Cdate, Cdate | Cdatetime, Cdatetime | CNoneType, CNoneType => true
  | _, _ => false
  end.

(** [datetime] derives from [date] and [bool] from [int]. *)
Definition subclass (a b : pyclass) : bool :=
  pyclass_eqb a b ||
  match a, b with
  | Cdatetime, Cdate => true
  | Cbool, Cint => true
  | _, _ => false
  end.

Definition isinstance (v : pyval) (c : pyclass) : bool := subclass (type_of v) c.

(** *** Formatting *)

Definition digit_char (d : N) : ascii := ascii_of_N (48 + d).

(** The last [w] decimal digits of [n], most significant first. *)
Fixpoint fixed_digits (w : nat) (n : N) : string :=
  match w with
  | O => EmptyString
  | S w' => String (digit_char ((n / 10 ^ N.of_nat w') mod 10)) (fixed_digits w' n)
  end.

(** [n] in decimal, padded with zeros on the left to [w] characters
    ([%0wd]). *)
Definition zero_padded (w : nat) (n : N) : string :=
  if (n <? 10 ^ N.of_nat w)%N then fixed_digits w n
  else NilZero.string_of_uint (N.to_uint n).

(** A field of a date or time under its letter, padded with zeros to
    its width. *)
Definition directive (c : ascii) (d : date) (t : time) : string :=
  match c with
  | "Y"%char => zero_padded 4 (year d)
  | "m"%char => zero_padded 2 (month d)
  | "d"%char => zero_padded 2 (day d)
  | "H"%char => zero_padded 2 (hour t)
  | "M"%char => zero_padded 2 (minute t)
  | "S"%char => zero_padded 2 (second t)
  | "f"%char => zero_padded 6 (microsecond t)
  | "%"%char => "%"
  | _ => String "%" (String c EmptyString)
  end.

(** The fields of a date and time laid out after a pattern, every field
    padded with zeros to its width, the year to four digits: the text
    that [isoformat] and the [current_timestamp] of the backend write. *)
Fixpoint strftime_fields (fmt : string) (d : date) (t : time) : string :=
  match fmt with
  | EmptyString => EmptyString
  | String "%" (String c rest) => directive c d t ++ strftime_fields rest d t
  | String c rest => String c (strftime_fields rest d t)
  end.

(** The year as the C library prints it for [%Y]: in decimal, without
    leading zeros, so that a year below 1000 takes fewer than four
    characters. *)
Definition year_text (y : N) : string := NilZero.string_of_uint (N.to_uint y).

(** A directive of Python's [strftime].  The format goes to the
    [strftime] of the C library, which pads the month, the day and the
    fields of the time, and not the year; [%f] is Python's own, six
    digits. *)
Definition strftime_directive (c : ascii) (d : date) (t : time) : string :=
  match c with
  | "Y"%char => year_text (year d)
  | _ => directive c d t
  end.

Fixpoint strftime_text (fmt : string) (d : date) (t : time) : string :=
  match fmt with
  | EmptyString => EmptyString
  | String "%" (String c rest) => strftime_directive c d t ++ strftime_text rest d t
  | String c rest => String c (strftime_text rest d t)
  end.

(** [v.strftime(fmt)]; a plain date formats its time fields as zero. *)
Definition strftime (v : pyval) (fmt : string) : string :=
  match v with
  | PDate d => strftime_text fmt d midnight
  | PDateTime d t => strftime_text fmt d t
  | _ => EmptyString
  end.

Definition int_str (z : Z) : string := NilZero.string_of_int (Z.to_int z).

(** [str(v)]. *)
Definition py_str (v : pyval) : string :=
  match v with
  | PNone => "None"
  | PStr s => s
  | PInt z => int_str z
  | PFloat f => float_repr f
  | PBool true => "True"
  | PBool false => "False"
  | PDate d => strftime_fields "%Y-%m-%d" d midnight
  | PDateTime d t =>
      strftime_fields "%Y-%m-%d %H:%M:%S" d t ++
      (if (microsecond t =? 0)%N then EmptyString else "." ++ zero_padded 6 (microsecond t))
  end.

(** [int(v)] on a bool. *)
Definition py_int (v : pyval) : Z :=
  match v with
  | PBool true => 1
  | PInt z => z
  | _ => 0
  end%Z.

(* ================================================================= *)
(** ** The value encoder *)

(** [sqlize]: the chain of [isinstance] tests in the order of the source,
    each one rebinding [v], then the quoting of a [v] that is a string. *)
Definition sqlize (v : pyval) : string :=
  let v :=
    if isinstance v Cstr then PStr (PyStr.replace "'" "''" (py_str v))
    else if isinstance v Cdatetime then PStr (strftime v "%Y-%m-%d %H:%M:%S.%f")
    else if isinstance v Cdate then PStr (strftime v "%Y-%m-%d")
    else if isinstance v Cbool then PInt (py_int v)
    else v in
  if isinstance v Cstr then "'" ++ py_str v ++ "'" else py_str v.

(* ================================================================= *)
(** ** The SQLite backend *)

(** What the [sqlite3] module does with the statements the program sends:
    the statement text is split into tokens, read as one of the
    statement forms the program emits, and run against the one table.
    Operands are literals, column names and signed numerals.  Values are
    stored and compared as they were written, text as text and numbers as
    numbers (for the quoted text and the numerals that [sqlize] produces
    for text, date and numeric fields the column affinities change
    nothing). *)

Inductive sqlval :=
| SNull
| SNum (q : Q)
| SText (s : string).

Inductive sql_error :=
| NulCharacter                 (* the query contains a null character *)
| UnrecognizedToken
| SyntaxError
| NoSuchTable (name : string)
| NoSuchColumn (name : string)
| ColumnCount                  (* n values for m columns *)
| NotNullConstraint (column : string)
| DatatypeMismatch
| TableExists (name : string).

(** *** Tokens *)

Inductive token :=
| TWord (w : string)
| TNum (n : numeral)
| TText (s : string)
| TLParen | TRParen | TComma | TEq | TMinus | TPlus | TStar | TSemi.

Definition is_digit (c : ascii) : bool :=
  let n := nat_of_ascii c in (48 <=? n)%nat && (n <=? 57)%nat.

Definition is_alpha (c : ascii) : bool :=
  let n := nat_of_ascii c in
  ((65 <=? n)%nat && (n <=? 90)%nat) || ((97 <=? n)%nat && (n <=? 122)%nat)
  || (n =? 95)%nat.

Definition is_space (c : ascii) : bool :=
  let n := nat_of_ascii c in
  (n =? 32)%nat || (n =? 9)%nat || (n =? 10)%nat || (n =? 12)%nat || (n =? 13)%nat.

(** A character that continues a word. *)
Definition is_idchar (c : ascii) : bool := is_alpha c || is_digit c || Ascii.eqb c "$".

Definition is_quote (c : ascii) : bool := Ascii.eqb c "'".

(** The digits read so far are kept last digit first. *)
Definition push_digit (c : ascii) (acc : Decimal.uint) : Decimal.uint :=
  match uint_of_char c (Some acc) with
  | Some d => d
  | None => acc
  end.

Definition text_of (acc : list ascii) : string := string_of_list_ascii (rev acc).

(** Where the tokenizer stands inside the token it is reading. *)
Inductive mode :=
| MIdle
| MWord (acc : list ascii)
| MInt (i : Decimal.uint)
| MFrac (i f : Decimal.uint)
| MExpMark (i : Decimal.uint) (f : option Decimal.uint)
| MExpSign (i : Decimal.uint) (f : option Decimal.uint) (neg : bool)
| MExp (i : Decimal.uint) (f : option Decimal.uint) (neg : bool) (e : Decimal.uint)
| MText (acc : list ascii)
| MTextQuote (acc : list ascii).

Definition lexer : Type := mode * list token.

Definition rev_opt (f : option Decimal.uint) : option Decimal.uint :=
  option_map Decimal.rev f.

(** The token that ends when the current one cannot be continued. *)
Definition pending (m : mode) : option (option token) :=
  match m with
  | MIdle => Some None
  | MWord acc => Some (Some (TWord (text_of acc)))
  | MInt i => Some (Some (TNum (mkNumeral (Decimal.rev i) None None)))
  | MFrac i f => Some (Some (TNum (mkNumeral (Decimal.rev i) (Some (Decimal.rev f)) None)))
  | MExp i f neg e =>
      Some (Some (TNum (mkNumeral (Decimal.rev i) (rev_opt f) (Some (neg, Decimal.rev e)))))
  | MTextQuote acc => Some (Some (TText (text_of acc)))
  | MExpMark _ _ | MExpSign _ _ _ | MText _ => None
  end.

Definition flush (l : lexer) : option (list token) :=
  match pending (fst l) with
  | Some (Some t) => Some (t :: snd l)
  | Some None => Some (snd l)
  | None => None
  end.

(** A character met between two tokens. *)
Definition start (c : ascii) (out : list token) : option lexer :=
  if is_space c then Some (MIdle, out)
  else if is_alpha c then Some (MWord [c], out)
  else if is_digit c then Some (MInt (push_digit c Decimal.Nil), out)
  else if is_quote c then Some (MText [], out)
  else match c with
       | "("%char => Some (MIdle, TLParen :: out)
       | ")"%char => Some (MIdle, TRParen :: out)
       | ","%char => Some (MIdle, TComma :: out)
       | "="%char => Some (MIdle, TEq :: out)
       | "-"%char => Some (MIdle, TMinus :: out)
       | "+"%char => Some (MIdle, TPlus :: out)
       | "*"%char => Some (MIdle, TStar :: out)
       | ";"%char => Some (MIdle, TSemi :: out)
       | _ => None
       end.

Definition is_e (c : ascii) : bool := Ascii.eqb c "e" || Ascii.eqb c "E".

(** One character.  A numeral that runs into a letter is not a token. *)
Definition lex_step (l : lexer) (c : ascii) : option lexer :=
  let (m, out) := l in
  let finish := match flush l with Some out' => start c out' | None => None end in
  match m with
  | MIdle => start c out
  | MWord acc => if is_idchar c then Some (MWord (c :: acc), out) else finish
  | MInt i =>
      if is_digit c then Some (MInt (push_digit c i), out)
      else if Ascii.eqb c "." then Some (MFrac i Decimal.Nil, out)
      else if is_e c then Some (MExpMark i None, out)
      else if is_idchar c then None
      else finish
  | MFrac i f =>
      if is_digit c then Some (MFrac i (push_digit c f), out)
      else if is_e c then Some (MExpMark i (Some f), out)
      else if is_idchar c then None
      else finish
  | MExpMark i f =>
      if is_digit c then Some (MExp i f false (push_digit c Decimal.Nil), out)
      else if Ascii.eqb c "+" then Some (MExpSign i f false, out)
      else if Ascii.eqb c "-" then Some (MExpSign i f true, out)
      else None
  | MExpSign i f neg =>
      if is_digit c then Some (MExp i f neg (push_digit c Decimal.Nil), out) else None
  | MExp i f neg e =>
      if is_digit c then Some (MExp i f neg (push_digit c e), out)
      else if is_idchar c then None
      else finish
  | MText acc =>
      if is_quote c then Some (MTextQuote acc, out) else Some (MText (c :: acc), out)
  | MTextQuote acc =>
      if is_quote c then Some (MText (c :: acc), out) else finish
  end.

Fixpoint lex_run (s : string) (l : lexer) : option lexer :=
  match s with
  | EmptyString => Some l
  | String c s' =>
      match lex_step l c with
      | Some l' => lex_run s' l'
      | None => None
      end
  end.

Definition tokenize (s : string) : option (list token) :=
  match lex_run s (MIdle, []) with
  | Some l => option_map (@rev token) (flush l)
  | None => None
  end.

(** *** Statements *)

Inductive operand :=
| OLit (v : sqlval)
| OName (w : string).

Definition condition : Type := operand * operand.

(** The three forms: [INSERT INTO t (columns) VALUES (values)],
    [DELETE FROM t WHERE c IN (SELECT c' FROM t' WHERE l = r AND ... LIMIT n)]
    and [SELECT * FROM t]. *)
Inductive statement :=
| Insert (tbl : string) (columns : list string) (values : list operand)
| DeleteIn (tbl col sel_col sel_tbl : string) (conds : list condition) (limit : operand)
| SelectAll (tbl : string).

(** Words are matched whatever their case. *)
Definition keyword (k w : string) : bool := String.eqb (PyStr.lower_str w) k.

(** Words of the grammar that cannot name a column. *)
Definition reserved_words : list string :=
  ["add"; "all"; "alter"; "and"; "as"; "between"; "case"; "check"; "collate";
   "commit"; "constraint"; "create"; "default"; "delete"; "distinct"; "drop";
   "else"; "escape"; "except"; "exists"; "foreign"; "from"; "group"; "having";
   "in"; "index"; "insert"; "intersect"; "into"; "is"; "isnull"; "join";
   "limit"; "not"; "notnull"; "null"; "on"; "or"; "order"; "primary";
   "references"; "select"; "set"; "table"; "then"; "to"; "transaction";
   "union"; "unique"; "update"; "using"; "values"; "when"; "where"].

Definition is_reserved (w : string) : bool :=
  existsb (String.eqb (PyStr.lower_str w)) reserved_words.

(** An operand made of one token. *)
Definition operand1 (t : token) : option operand :=
  match t with
  | TText s => Some (OLit (SText s))
  | TNum n => Some (OLit (SNum (numeral_value n)))
  | TWord w =>
      if keyword "null" w then Some (OLit SNull)
      else if is_reserved w then None
      else Some (OName w)
  | _ => None
  end.

(** A numeral with its sign. *)
Definition signed (s : token) (n : numeral) : option operand :=
  match s with
  | TMinus => Some (OLit (SNum (- numeral_value n)%Q))
  | TPlus => Some (OLit (SNum (numeral_value n)))
  | _ => None
  end.

Notation "'let?' x := e 'in' k" :=
  (match e with Some x => k | None => None end)
  (at level 10, x pattern, e at level 100, k at level 200, only parsing).

Definition with_head {A B} (a : A) (r : option (list A * B)) : option (list A * B) :=
  match r with
  | Some (l, b) => Some (a :: l, b)
  | None => None
  end.

Definition one {A B} (a : option A) (b : B) : option (list A * B) :=
  match a with
  | Some x => Some ([x], b)
  | None => None
  end.

Definition and_then {A B} (a : option A) (r : option (list A * B)) : option (list A * B) :=
  match a with
  | Some x => with_head x r
  | None => None
  end.

(** [name, name, ... )] *)
Fixpoint parse_names (ts : list token) : option (list string * list token) :=
  match ts with
  | TWord w :: TComma :: rest =>
      if is_reserved w then None else with_head w (parse_names rest)
  | TWord w :: TRParen :: rest =>
      if is_reserved w then None else Some ([w], rest)
  | _ => None
  end.

(** [operand, operand, ... )] *)
Fixpoint parse_values (ts : list token) : option (list operand * list token) :=
  match ts with
  | t :: TComma :: rest => and_then (operand1 t) (parse_values rest)
  | t :: TRParen :: rest => one (operand1 t) rest
  | s :: TNum n :: TComma :: rest => and_then (signed s n) (parse_values rest)
  | s :: TNum n :: TRParen :: rest => one (signed s n) rest
  | _ => None
  end.

Definition pair_up (l r : option operand) : option condition :=
  match l, r with
  | Some a, Some b => Some (a, b)
  | _, _ => None
  end.

(** [l = r AND l = r ... LIMIT] *)
Fixpoint parse_conds (ts : list token) : option (list condition * list token) :=
  match ts with
  | l :: TEq :: r :: TWord w :: rest =>
      if keyword "and" w then and_then (pair_up (operand1 l) (operand1 r)) (parse_conds rest)
      else if keyword "limit" w then one (pair_up (operand1 l) (operand1 r)) rest
      else None
  | l :: TEq :: s :: TNum n :: TWord w :: rest =>
      if keyword "and" w then and_then (pair_up (operand1 l) (signed s n)) (parse_conds rest)
      else if keyword "limit" w then one (pair_up (operand1 l) (signed s n)) rest
      else None
  | _ => None
  end.

(** [n )] at the end of the statement. *)
Definition parse_limit (ts : list token) : option operand :=
  match ts with
  | [t; TRParen] => operand1 t
  | [s; TNum n; TRParen] => signed s n
  | _ => None
  end.

Fixpoint expect (ks : list string) (ts : list token) : option (list token) :=
  match ks, ts with
  | [], _ => Some ts
  | k :: ks', TWord w :: ts' => if keyword k w then expect ks' ts' else None
  | _ :: _, _ => None
  end.

Definition parse_name (ts : list token) : option (string * list token) :=
  match ts with
  | TWord w :: ts' => if is_reserved w then None else Some (w, ts')
  | _ => None
  end.

Definition lparen (ts : list token) : option (list token) :=
  match ts with
  | TLParen :: ts' => Some ts'
  | _ => None
  end.

Definition parse_insert (ts : list token) : option statement :=
  let? ts := expect ["insert"; "into"] ts in
  let? (t, ts) := parse_name ts in
  let? ts := lparen ts in
  let? (cols, ts) := parse_names ts in
  let? ts := expect ["values"] ts in
  let? ts := lparen ts in
  let? (vals, ts) := parse_values ts in
  match ts with
  | [] => Some (Insert t cols vals)
  | _ => None
  end.

Definition parse_delete (ts : list token) : option statement :=
  let? ts := expect ["delete"; "from"] ts in
  let? (t, ts) := parse_name ts in
  let? ts := expect ["where"] ts in
  let? (c, ts) := parse_name ts in
  let? ts := expect ["in"] ts in
  let? ts := lparen ts in
  let? ts := expect ["select"] ts in
  let? (c', ts) := parse_name ts in
  let? ts := expect ["from"] ts in
  let? (t', ts) := parse_name ts in
  let? ts := expect ["where"] ts in
  let? (conds, ts) := parse_conds ts in
  let? n := parse_limit ts in
  Some (DeleteIn t c c' t' conds n).

Definition parse_select (ts : list token) : option statement :=
  match ts with
  | [TWord k1; TStar; TWord k2; TWord t] =>
      if keyword "select" k1 && keyword "from" k2 && negb (is_reserved t)
      then Some (SelectAll t) else None
  | _ => None
  end.

Definition parse (ts : list token) : option statement :=
  match parse_insert ts with
  | Some st => Some st
  | None =>
      match parse_delete ts with
      | Some st => Some st
      | None => parse_select ts
      end
  end.

Definition has_nul (s : string) : bool :=
  existsb (Ascii.eqb Ascii.zero) (list_ascii_of_string s).

(** From the statement text to the statement. *)
Definition prepare (sql : string) : sql_error + statement :=
  if has_nul sql then inl NulCharacter
  else match tokenize sql with
       | None => inl UnrecognizedToken
       | Some ts =>
           match parse ts with
           | None => inl SyntaxError
           | Some st => inr st
           end
       end.

(** *** The table *)

(** [AddedOn] holds either the schema default, [current_timestamp] read
    at time [t] (seconds since 1970-01-01 00:00:00 UTC), or a value that
    an insert statement supplied. *)
Inductive stamp :=
| Default (t : Z)
| Supplied (v : sqlval).

Record cells := mkCells {
  cDate : sqlval;
  cItem : sqlval;
  cPrice : sqlval;
  cCategory : sqlval;
  cState : sqlval;
  cCity : sqlval;
  cAddedOn : stamp
}.

(** A stored row with its rowid; the table lists its rows in the order
    of a scan, by rowid. *)
Definition row : Type := Z * cells.
Definition table : Type := list row.

Definition rowid (r : row) : Z := fst r.
Definition row_cells (r : row) : cells := snd r.

(** A new row takes the largest rowid in use plus one. *)
Definition next_rowid (t : table) : Z := (fold_right Z.max 0 (map rowid t) + 1)%Z.

Inductive column :=
| ColDate | ColItem | ColPrice | ColCategory | ColState | ColCity | ColAddedOn | ColRowid.

Definition column_eqb (a b : column) : bool :=
  match a, b with
  | ColDate, ColDate | ColItem, ColItem | ColPrice, ColPrice
  | ColCategory, ColCategory | ColState, ColState | ColCity, ColCity
  | ColAddedOn, ColAddedOn | ColRowid, ColRowid => true
  | _, _ => false
  end.

Definition declared_columns : list (string * column) :=
  [("date", ColDate); ("item", ColItem); ("price", ColPrice);
   ("category", ColCategory); ("state", ColState); ("city", ColCity);
   ("addedon", ColAddedOn)].

Definition rowid_names : list (string * column) :=
  [("rowid", ColRowid); ("oid", ColRowid); ("_rowid_", ColRowid)].

Fixpoint assoc {A} (k : string) (l : list (string * A)) : option A :=
  match l with
  | [] => None
  | (k', a) :: l' => if String.eqb k k' then Some a else assoc k l'
  end.

(** Column names are matched whatever their case. *)
Definition declared_column (w : string) : option column :=
  assoc (PyStr.lower_str w) declared_columns.

Definition column_of_name (w : string) : option column :=
  assoc (PyStr.lower_str w) (declared_columns ++ rowid_names)%list.

Definition is_table_name (w : string) : bool := keyword "observation" w.

(** Days since 1970-01-01 to the civil date. *)
Definition civil_of_days (days : Z) : date :=
  (let z := days + 719468 in
   let era := z / 146097 in
   let doe := z - era * 146097 in
   let yoe := (doe - doe / 1460 + doe / 36524 - doe / 146096) / 365 in
   let doy := doe - (365 * yoe + yoe / 4 - yoe / 100) in
   let mp := (5 * doy + 2) / 153 in
   let d := doy - (153 * mp + 2) / 5 + 1 in
   let m := if mp <? 10 then mp + 3 else mp - 9 in
   let y := yoe + era * 400 + (if m <=? 2 then 1 else 0) in
   mkDate (Z.to_N y) (Z.to_N m) (Z.to_N d))%Z.

Definition time_of_seconds (s : Z) : time :=
  mkTime (Z.to_N (s / 3600)%Z) (Z.to_N ((s / 60) mod 60)%Z) (Z.to_N (s mod 60)%Z) 0%N.

(** The text of [current_timestamp] at [t]. *)
Definition timestamp_text (t : Z) : string :=
  strftime_fields "%Y-%m-%d %H:%M:%S" (civil_of_days (t / 86400)%Z) (time_of_seconds (t mod 86400)%Z).

Definition stamp_value (s : stamp) : sqlval :=
  match s with
  | Default t => SText (timestamp_text t)
  | Supplied v => v
  end.

Definition column_value (c : column) (r : row) : sqlval :=
  match c with
  | ColDate => cDate (row_cells r)
  | ColItem => cItem (row_cells r)
  | ColPrice => cPrice (row_cells r)
  | ColCategory => cCategory (row_cells r)
  | ColState => cState (row_cells r)
  | ColCity => cCity (row_cells r)
  | ColAddedOn => stamp_value (cAddedOn (row_cells r))
  | ColRowid => SNum (inject_Z (rowid r))
  end.

(** [a = b] is true for two numbers that are equal and for two texts
    that are equal; a comparison with NULL is never true. *)
Definition sql_eq (a b : sqlval) : bool :=
  match a, b with
  | SNum x, SNum y => Qeq_bool x y
  | SText x, SText y => String.eqb x y
  | _, _ => false
  end.

(** *** Running a statement *)

(** An operand whose names have been resolved. *)
Inductive term :=
| Const (v : sqlval)
| Col (c : column).

Definition resolve (o : operand) : sql_error + term :=
  match o with
  | OLit v => inr (Const v)
  | OName w =>
      match column_of_name w with
      | Some c => inr (Col c)
      | None => inl (NoSuchColumn w)
      end
  end.

Definition term_value (t : term) (r : row) : sqlval :=
  match t with
  | Const v => v
  | Col c => column_value c r
  end.

Fixpoint resolve_conds (cs : list condition) : sql_error + list (term * term) :=
  match cs with
  | [] => inr []
  | (l, r) :: cs' =>
      match resolve l, resolve r, resolve_conds cs' with
      | inl e, _, _ => inl e
      | _, inl e, _ => inl e
      | _, _, inl e => inl e
      | inr a, inr b, inr rest => inr ((a, b) :: rest)
      end
  end.

Definition holds (cs : list (term * term)) (r : row) : bool :=
  forallb (fun c => sql_eq (term_value (fst c) r) (term_value (snd c) r)) cs.

(** The integers of the backend are signed 64-bit ones. *)
Definition int64 (z : Z) : bool :=
  ((-9223372036854775808 <=? z) && (z <=? 9223372036854775807))%Z.

(** The value of a LIMIT: an integer, or a number that is one.  A
    numeral beyond the 64-bit integers is read as a floating-point
    number, which no integer stands for. *)
Definition limit_value (o : operand) : sql_error + Z :=
  match o with
  | OLit (SNum q) =>
      let q' := Qred q in
      if ((Zpos (Qden q') =? 1)%Z && int64 (Qnum q'))%bool then inr (Qnum q')
      else inl DatatypeMismatch
  | OLit _ => inl DatatypeMismatch
  | OName w => inl (NoSuchColumn w)
  end.

(** A negative LIMIT does not limit. *)
Definition limited (n : Z) (l : list row) : list row :=
  if (n <? 0)%Z then l else firstn (Z.to_nat n) l.

(** A value in an insert is a constant: a name there names no column. *)
Fixpoint constants (os : list operand) : sql_error + list sqlval :=
  match os with
  | [] => inr []
  | OLit v :: os' =>
      match constants os' with
      | inr vs => inr (v :: vs)
      | inl e => inl e
      end
  | OName w :: _ => inl (NoSuchColumn w)
  end.

Fixpoint insert_columns (ws : list string) : sql_error + list column :=
  match ws with
  | [] => inr []
  | w :: ws' =>
      match declared_column w, insert_columns ws' with
      | None, _ => inl (NoSuchColumn w)
      | _, inl e => inl e
      | Some c, inr cs => inr (c :: cs)
      end
  end.

Fixpoint supplied (c : column) (cs : list column) (vs : list sqlval) : option sqlval :=
  match cs, vs with
  | c' :: cs', v :: vs' => if column_eqb c c' then Some v else supplied c cs' vs'
  | _, _ => None
  end.

(** A column the statement does not list takes its default, which is
    NULL for the six data columns. *)
Definition data_cell (c : column) (cs : list column) (vs : list sqlval) : sqlval :=
  match supplied c cs vs with
  | Some v => v
  | None => SNull
  end.

Definition is_null (v : sqlval) : bool :=
  match v with
  | SNull => true
  | _ => false
  end.

Definition new_cells (now : Z) (cs : list column) (vs : list sqlval) : cells :=
  mkCells (data_cell ColDate cs vs) (data_cell ColItem cs vs) (data_cell ColPrice cs vs)
          (data_cell ColCategory cs vs) (data_cell ColState cs vs) (data_cell ColCity cs vs)
          (match supplied ColAddedOn cs vs with
           | Some v => Supplied v
           | None => Default now
           end).

(** The six [not null] columns of the schema. *)
Definition not_null_violation (c : cells) : option string :=
  if is_null (cDate c) then Some "Date"
  else if is_null (cItem c) then Some "Item"
  else if is_null (cPrice c) then Some "Price"
  else if is_null (cCategory c) then Some "Category"
  else if is_null (cState c) then Some "State"
  else if is_null (cCity c) then Some "City"
  else None.

Definition add_row (c : cells) (t : table) : sql_error + table :=
  match not_null_violation c with
  | Some name => inl (NotNullConstraint name)
  | None => inr (t ++ [(next_rowid t, c)])%list
  end.

Definition open_table (name : string) (db : option table) : sql_error + table :=
  match db with
  | Some t => if is_table_name name then inr t else inl (NoSuchTable name)
  | None => inl (NoSuchTable name)
  end.

Definition run_insert (name : string) (ws : list string) (os : list operand)
           (now : Z) (db : option table) : sql_error + table :=
  match open_table name db with
  | inl e => inl e
  | inr t =>
      match insert_columns ws with
      | inl e => inl e
      | inr cs =>
          if negb (List.length os =? List.length cs)%nat then inl ColumnCount
          else match constants os with
               | inl e => inl e
               | inr vs => add_row (new_cells now cs vs) t
               end
      end
  end.

Definition member (v : sqlval) (vs : list sqlval) : bool := existsb (sql_eq v) vs.

Definition run_delete (name col sel_col sel_name : string) (cs : list condition)
           (limit : operand) (db : option table) : sql_error + table :=
  match open_table name db, open_table sel_name db with
  | inl e, _ => inl e
  | _, inl e => inl e
  | inr t, inr t' =>
      match resolve (OName col), resolve (OName sel_col), resolve_conds cs, limit_value limit with
      | inl e, _, _, _ => inl e
      | _, inl e, _, _ => inl e
      | _, _, inl e, _ => inl e
      | _, _, _, inl e => inl e
      | inr c, inr c', inr conds, inr n =>
          let selected := limited n (filter (holds conds) t') in
          let keys := map (term_value c') selected in
          inr (filter (fun r => negb (member (term_value c r) keys)) t)
      end
  end.

(** The new table and the rows the statement returns. *)
Definition run (st : statement) (now : Z) (db : option table)
  : sql_error + (option table * list cells) :=
  match st with
  | Insert name ws os =>
      match run_insert name ws os now db with
      | inl e => inl e
      | inr t => inr (Some t, [])
      end
  | DeleteIn name col sel_col sel_name cs limit =>
      match run_delete name col sel_col sel_name cs limit db with
      | inl e => inl e
      | inr t => inr (Some t, [])
      end
  | SelectAll name =>
      match open_table name db with
      | inl e => inl e
      | inr t => inr (db, map row_cells t)
      end
  end.

Definition execute (sql : string) (now : Z) (db : option table)
  : sql_error + (option table * list cells) :=
  match prepare sql with
  | inl e => inl e
  | inr st => run st now db
  end.
(* ================================================================= *)
(** ** The Observation class *)

(** [Date] holds a [datetime.date], which a [datetime.datetime] also is. *)
Inductive pydate :=
| Day (d : date)
| Moment (d : date) (t : time).

(** The attributes, with the types the class declares for them; [None]
    is the class default of the six caller-supplied ones. *)
Record Observation := mkObservation {
  Date : option pydate;
  Item : option string;
  Price : option pyfloat;
  Category : option string;
  State : option string;
  City : option string;
  AddedOn : date * time
}.

Definition of_date (d : option pydate) : pyval :=
  match d with
  | None => PNone
  | Some (Day d) => PDate d
  | Some (Moment d t) => PDateTime d t
  end.

Definition of_str (s : option string) : pyval :=
  match s with
  | None => PNone
  | Some s => PStr s
  end.

Definition of_float (f : option pyfloat) : pyval :=
  match f with
  | None => PNone
  | Some f => PFloat f
  end.

(** The class-level tables. *)
Record vocabulary := mkVocabulary {
  category_item_map : list (string * list string);
  state_city_map : list (string * list string);
  item_base_price : list (string * Q);
  state_price_mu_std : list (string * (Q * Q))
}.

Definition Observation_class : vocabulary :=
  mkVocabulary
    [("Food", ["USDA Grade-A eggs, Dozen"]);
     ("Fuel", ["Regular Gasoline, Gallon"]);
     ("Clothing", ["Wool Socks, Pair"])]
    [("California", ["Los Angelos"; "San Francisco"]);
     ("New York", ["New York City"]);
     ("Texas", ["Austin"; "Dallas"])]
    [("USDA Grade-A eggs, Dozen", 2.99%Q);
     ("Regular Gasoline, Gallon", 4.65%Q);
     ("Wool Socks, Pair", 21.95%Q)]
    [("California", (1.5%Q, 0.15%Q));
     ("New York", (1.75%Q, 0.25%Q));
     ("Texas", (1%Q, 0.10%Q))].

Definition available_items (cls : vocabulary) : list string :=
  List.concat (map snd (category_item_map cls)).

Definition available_categories (cls : vocabulary) : list string :=
  map fst (category_item_map cls).

Definition available_states (cls : vocabulary) : list string :=
  map fst (state_city_map cls).

Definition available_cities (cls : vocabulary) : list string :=
  List.concat (map snd (state_city_map cls)).

(** What a call raises. *)
Inductive exn :=
| OperationalError (e : sql_error)
| KeyError (k : string).

Inductive outcome (A : Type) :=
| Returned (a : A)
| Raised (e : exn).
Arguments Returned {A} a.
Arguments Raised {A} e.

(** The database file and the number of statements run on it so far. *)
Record world := mkWorld {
  db : option table;
  statements : nat
}.

(** *** Synthetic data *)

(** A row of the frame that [get_test_data] returns; [rDate] is the day
    as a number of days since 1970-01-01. *)
Record record := mkRecord {
  rDate : Z;
  rCategory : string;
  rItem : string;
  rState : string;
  rCity : string;
  rPrice : Q
}.

(** [pd.date_range(end=e, periods=n, freq="D", inclusive="both")]. *)
Definition date_range (e : Z) (n : nat) : list Z :=
  map (fun i => (e - Z.of_nat (n - 1 - i))%Z) (seq 0 n).

(** [d[k]]. *)
Definition getitem {A} (d : list (string * A)) (k : string) : outcome A :=
  match assoc k d with
  | Some a => Returned a
  | None => Raised (KeyError k)
  end.

(** [random.gauss(mu, sigma)], with [z] the standard normal deviate that
    the generator draws for this call. *)
Definition gauss (z : Q) (mu sigma : Q) : Q := (mu + z * sigma)%Q.

(** The comprehension: a row, still without price, for every category,
    item, state, city, day and replica. *)
Definition combos (cls : vocabulary) (today : Z) : list record :=
  let dt_range := date_range today 10 in
  flat_map (fun ci =>
    flat_map (fun item =>
      flat_map (fun sc =>
        flat_map (fun city =>
          flat_map (fun dt =>
            map (fun _ => mkRecord dt (fst ci) item (fst sc) city 0%Q) (seq 0 5))
            dt_range)
          (snd sc))
        (state_city_map cls))
      (snd ci))
    (category_item_map cls).

(** [df.apply(f, axis=1)] assigned to the column [Price]: [f] is called
    on the rows in order, [i] counts the calls. *)
Fixpoint apply_price (f : nat -> record -> outcome Q) (i : nat) (df : list record)
  : outcome (list record) :=
  match df with
  | [] => Returned []
  | s :: df' =>
      match f i s with
      | Raised e => Raised e
      | Returned p =>
          match apply_price f (S i) df' with
          | Raised e => Raised e
          | Returned rest =>
              Returned (mkRecord (rDate s) (rCategory s) (rItem s) (rState s) (rCity s) p :: rest)
          end
      end
  end.

Definition bind {A B} (a : outcome A) (k : A -> outcome B) : outcome B :=
  match a with
  | Returned x => k x
  | Raised e => Raised e
  end.

(** [get_test_data]; [today] is what [datetime.date.today()] gives and
    [z i] the deviate of the [i]-th call of [random.gauss]. *)
Definition get_test_data (cls : vocabulary) (today : Z) (z : nat -> Q)
  : outcome (list record) :=
  let df := combos cls today in
  bind (apply_price (fun _ s => getitem (item_base_price cls) (rItem s)) 0 df) (fun df =>
  bind (apply_price (fun _ s =>
          bind (getitem (state_price_mu_std cls) (rState s)) (fun ms =>
          Returned (rPrice s * fst ms)%Q)) 0 df) (fun df =>
  apply_price (fun i s =>
          bind (getitem (state_price_mu_std cls) (rState s)) (fun ms =>
          Returned (gauss (z i) (rPrice s) (rPrice s * snd ms)%Q))) 0 df)).

(** *** The store *)

Section Store.

(** [clock n]: the time, in seconds since 1970-01-01 00:00:00 UTC, at
    which the [n]-th statement runs. *)
Variable clock : nat -> Z.

(** [con.execute(sql)] inside [with sqlite3.connect(db_file) as con]: the
    statement is committed when it succeeds; when it fails the database
    is left as it was and the error is raised. *)
Definition con_execute (sql : string) (w : world) : outcome (list cells) * world :=
  match execute sql (clock (statements w)) (db w) with
  | inl e => (Raised (OperationalError e), mkWorld (db w) (S (statements w)))
  | inr (db', rows) => (Returned rows, mkWorld db' (S (statements w)))
  end.

Definition returns_none {A} (r : outcome A * world) : outcome unit * world :=
  match fst r with
  | Returned _ => (Returned tt, snd r)
  | Raised e => (Raised e, snd r)
  end.

Definition insert_sql (row : list string) : string :=
  "INSERT INTO Observation (Date, Item, Price, Category, State, City) values "
  ++ "(" ++ PyStr.join ", " row ++ ")".

Definition encoded_row (self : Observation) : list string :=
  map sqlize [of_date (Date self); of_str (Item self); of_float (Price self);
              of_str (Category self); of_str (State self); of_str (City self)].

(** ["None" not in row] *)
Definition none_free (row : list string) : bool :=
  negb (existsb (String.eqb "None") row).

(** [write].  In the source the assignment of [sql] and the call of
    [con.execute] stand at the indentation of the guard
    [if "None" not in row:] itself: no statement is under the guard, and
    the two run whatever the guard finds. *)
Definition write (self : Observation) (w : world) : outcome unit * world :=
  let row := encoded_row self in
  let sql := insert_sql row in
  if none_free row
  then returns_none (con_execute sql w)
  else returns_none (con_execute sql w).

(** What the specification asks of insert: nothing happens when a field
    is null, one row is inserted otherwise. *)
Definition insert_spec (self : Observation) (w : world) : outcome unit * world :=
  let row := encoded_row self in
  if none_free row
  then returns_none (con_execute (insert_sql row) w)
  else (Returned tt, w).

Definition condition_text (kv : string * pyval) : string :=
  PyStr.capitalize (fst kv) ++ "=" ++ sqlize (snd kv).

Definition delete_sql (n_to_delete : Z) (kwargs : list (string * pyval)) : string :=
  let conditions := PyStr.join " AND " (map condition_text kwargs) in
  "DELETE from Observation WHERE rowid in (SELECT rowid FROM Observation WHERE "
  ++ conditions ++ " LIMIT " ++ int_str n_to_delete ++ ")".

(** [delete_matching]; [order_to_delete_in] is not used by the body. *)
Definition delete_matching (self : Observation) (n_to_delete : Z)
           (order_to_delete_in : option (list (string * pyval)))
           (kwargs : list (string * pyval)) (w : world) : outcome unit * world :=
  returns_none (con_execute (delete_sql n_to_delete kwargs) w).

(** A frame: rows under their index labels. *)
Definition DataFrame : Type := list (Z * cells).

(** [pd.read_sql]: the rows in the order the backend returns them, under
    the labels 0, 1, 2, ... *)
Definition read_sql (rows : list cells) : DataFrame :=
  combine (map Z.of_nat (seq 0 (List.length rows))) rows.

Fixpoint insert_by_label (ascending : bool) (x : Z * cells) (l : DataFrame) : DataFrame :=
  match l with
  | [] => [x]
  | y :: l' =>
      if (if ascending then fst x <=? fst y else fst y <=? fst x)%Z
      then x :: l
      else y :: insert_by_label ascending x l'
  end.

(** [df.sort_index(ascending=...)]. *)
Definition sort_index (ascending : bool) (df : DataFrame) : DataFrame :=
  fold_right (insert_by_label ascending) [] df.

(** [table_df] *)
Definition table_df (w : world) : outcome DataFrame * world :=
  let sql := "select * from Observation" in
  match con_execute sql w with
  | (Returned rows, w') => (Returned (sort_index false (read_sql rows)), w')
  | (Raised e, w') => (Raised e, w')
  end.

(** *** Schema reset *)

(** [drop table if exists Observation] *)
Definition drop_table_if_exists (w : world) : world :=
  mkWorld None (S (statements w)).

(** [create table Observation (...)]: the schema is the one that [cells],
    [not_null_violation] and the default of [AddedOn] describe. *)
Definition create_table_statement (w : world) : outcome unit * world :=
  match db w with
  | None => (Returned tt, mkWorld (Some []) (S (statements w)))
  | Some _ =>
      (Raised (OperationalError (TableExists "Observation")), mkWorld (db w) (S (statements w)))
  end.

(** The cells that [to_sql] binds for a row of the frame: a day is
    stored as the text of its midnight. *)
Definition bound_cells (now : Z) (r : record) : cells :=
  mkCells (SText (strftime_fields "%Y-%m-%d %H:%M:%S" (civil_of_days (rDate r)) midnight))
          (SText (rItem r)) (SNum (rPrice r)) (SText (rCategory r))
          (SText (rState r)) (SText (rCity r)) (Default now).

(** [df.to_sql("Observation", con=con, if_exists="append", index=False)]:
    one insert per row of the frame, each one a statement of its own. *)
Fixpoint to_sql (df : list record) (w : world) : outcome unit * world :=
  match df with
  | [] => (Returned tt, w)
  | r :: df' =>
      match open_table "Observation" (db w) with
      | inl e => (Raised (OperationalError e), w)
      | inr t =>
          match add_row (bound_cells (clock (statements w)) r) t with
          | inl e => (Raised (OperationalError e), w)
          | inr t' => to_sql df' (mkWorld (Some t') (S (statements w)))
          end
      end
  end.

(** [create_table] *)
Definition create_table (cls : vocabulary) (today : Z) (z : nat -> Q) (w : world)
  : outcome unit * world :=
  let w1 := drop_table_if_exists w in
  match create_table_statement w1 with
  | (Raised e, w2) => (Raised e, w2)
  | (Returned _, w2) =>
      match get_test_data cls today z with
      | Raised e => (Raised e, w2)
      | Returned df => to_sql df w2
      end
  end.

End Store.
(* ================================================================= *)
(** ** What the specification says, in its own terms *)

(** Every single quote written twice. *)
Fixpoint double_quotes (s : string) : string :=
  match s with
  | EmptyString => EmptyString
  | String c s' =>
      if is_quote c then String c (String c (double_quotes s'))
      else String c (double_quotes s')
  end.

(** [has_shape pat s]: [s] is [pat] with a decimal digit in the place of
    every letter. *)
Fixpoint has_shape (pat s : string) : bool :=
  match pat, s with
  | EmptyString, EmptyString => true
  | String p pat', String c s' =>
      (if is_alpha p then is_digit c else Ascii.eqb p c) && has_shape pat' s'
  | _, _ => false
  end.

Definition digit_val (c : ascii) : N := (N_of_ascii c - 48)%N.

(** The numbers that the runs of digits of [s] spell, in order. *)
Fixpoint numbers_in (cur : option N) (s : string) : list N :=
  match s with
  | EmptyString =>
      match cur with
      | Some n => [n]
      | None => []
      end
  | String c s' =>
      if is_digit c
      then numbers_in (Some (10 * match cur with Some n => n | None => 0 end + digit_val c)%N) s'
      else match cur with
           | Some n => n :: numbers_in None s'
           | None => numbers_in None s'
           end
  end.

Fixpoint ends_with_quote (s : string) : bool :=
  match s with
  | EmptyString => false
  | String c EmptyString => is_quote c
  | String _ s' => ends_with_quote s'
  end.

(** Wrapped in single quotes. *)
Definition is_quoted (s : string) : bool :=
  match s with
  | String c s' => is_quote c && ends_with_quote s'
  | EmptyString => false
  end.

(** Text, dates and timestamps. *)
Definition quoted_kind (v : pyval) : bool :=
  match v with
  | PStr _ | PDate _ | PDateTime _ _ => true
  | _ => false
  end.

(** The fields of a date or of a timestamp are in their ranges. *)
Definition valid_value (v : pyval) : bool :=
  match v with
  | PDate d => valid_date d
  | PDateTime d t => valid_date d && valid_time t
  | _ => true
  end.

(** The year of a date or of a timestamp has four digits. *)
Definition four_digit_year (v : pyval) : bool :=
  match v with
  | PDate d | PDateTime d _ => (1000 <=? year d)%N
  | _ => true
  end.

(** The type-to-literal mapping, for one value: a text is wrapped in
    quotes with its quotes doubled; a timestamp is rendered as
    YYYY-MM-DD HH:MM:SS.ffffff and a date as YYYY-MM-DD, the digits
    spelling the fields, and a timestamp does not get the shape of a
    date; booleans are 0 and 1, numbers their decimal text; the result
    is wrapped in quotes exactly for text, dates and timestamps. *)
Definition type_to_literal (v : pyval) : Prop :=
  match v with
  | PStr s => sqlize v = "'" ++ double_quotes s ++ "'"
  | PDateTime d t =>
      exists body,
        sqlize v = "'" ++ body ++ "'"
        /\ has_shape "YYYY-MM-DD HH:MM:SS.ffffff" body = true
        /\ numbers_in None body
           = [year d; month d; day d; hour t; minute t; second t; microsecond t]
        /\ has_shape "YYYY-MM-DD" body = false
  | PDate d =>
      exists body,
        sqlize v = "'" ++ body ++ "'"
        /\ has_shape "YYYY-MM-DD" body = true
        /\ numbers_in None body = [year d; month d; day d]
  | PBool b => sqlize v = if b then "1" else "0"
  | PInt z => sqlize v = int_str z
  | PFloat f => sqlize v = float_repr f
  | PNone => sqlize v = "None"
  end
  /\ is_quoted (sqlize v) = quoted_kind v.

(** *** Reading the tokenizer *)

(** A character that ends whatever token comes before it. *)
Definition delimiter (c : ascii) : bool :=
  is_space c || Ascii.eqb c "(" || Ascii.eqb c ")" || Ascii.eqb c "," || Ascii.eqb c "=".

(** [lexes p ts]: the text [p], met between two tokens and followed by a
    delimiter, is read as the tokens [ts]. *)
Definition lexes (p : string) (ts : list token) : Prop :=
  forall c rest out,
    delimiter c = true ->
    lex_run (p ++ String c rest) (MIdle, out)
    = match start c (rev ts ++ out)%list with
      | Some l => lex_run rest l
      | None => None
      end.

(** A digit run that is empty reads as 0. *)
Definition nonnil (d : Decimal.uint) : Decimal.uint :=
  match d with
  | Decimal.Nil => Decimal.D0 Decimal.Nil
  | _ => d
  end.

(** The numeral that the tokenizer reads from the text of [n]. *)
Definition as_read (n : numeral) : numeral :=
  mkNumeral (nonnil (int_part n)) (frac_part n)
            (match exp_part n with
             | Some (neg, e) => Some (neg, nonnil e)
             | None => None
             end).

Fixpoint all_chars (p : ascii -> bool) (s : string) : bool :=
  match s with
  | EmptyString => true
  | String c s' => p c && all_chars p s'
  end.

(** The token that a delimiter is, if it is one. *)
Definition delimiter_tokens (c : ascii) : list token :=
  match c with
  | "("%char => [TLParen]
  | ")"%char => [TRParen]
  | ","%char => [TComma]
  | "="%char => [TEq]
  | _ => []
  end.

(** A letter or an underscore, then letters, digits, underscores. *)
Definition is_word (w : string) : bool :=
  match w with
  | String c w' => is_alpha c && all_chars is_idchar w'
  | EmptyString => false
  end.

Definition sign_tokens (neg : bool) : list token := if neg then [TMinus] else [].

Definition int_tokens (z : Z) : list token :=
  match Z.to_int z with
  | Decimal.Pos d => [TNum (mkNumeral (nonnil d) None None)]
  | Decimal.Neg d => [TMinus; TNum (mkNumeral (nonnil d) None None)]
  end.

(** The tokens of [sqlize v]. *)
Definition value_tokens (v : pyval) : list token :=
  match v with
  | PNone => [TWord "None"]
  | PStr s => [TText s]
  | PInt z => int_tokens z
  | PFloat FNan => [TWord "nan"]
  | PFloat (FInf neg) => (sign_tokens neg ++ [TWord "inf"])%list
  | PFloat (FFinite neg n) => (sign_tokens neg ++ [TNum (as_read n)])%list
  | PBool b => int_tokens (if b then 1 else 0)
  | PDate d => [TText (strftime_text "%Y-%m-%d" d midnight)]
  | PDateTime d t => [TText (strftime_text "%Y-%m-%d %H:%M:%S.%f" d t)]
  end.

(** Neither a quote nor the NUL character. *)
Definition plain (c : ascii) : bool := negb (is_quote c) && negb (Ascii.eqb Ascii.zero c).

(** The tokens of [", ".join(map sqlize vs)]. *)
Fixpoint row_tokens (vs : list pyval) : list token :=
  match vs with
  | [] => []
  | [v] => value_tokens v
  | v :: vs' => (value_tokens v ++ TComma :: row_tokens vs')%list
  end.

(** The tokens of the head of the insert statement. *)
Definition insert_head : list token :=
  [TWord "INSERT"; TWord "INTO"; TWord "Observation"; TLParen;
   TWord "Date"; TComma; TWord "Item"; TComma; TWord "Price"; TComma;
   TWord "Category"; TComma; TWord "State"; TComma; TWord "City"; TRParen;
   TWord "values"; TLParen].

Definition insert_names : list string :=
  ["Date"; "Item"; "Price"; "Category"; "State"; "City"].

Definition value_has_nul (v : pyval) : bool :=
  match v with
  | PStr s => has_nul s
  | _ => false
  end.

Definition fields (self : Observation) : list pyval :=
  [of_date (Date self); of_str (Item self); of_float (Price self);
   of_str (Category self); of_str (State self); of_str (City self)].

(** The operand that one or two tokens spell. *)
Definition tokens_operand (ts : list token) : option operand :=
  match ts with
  | [t] => operand1 t
  | [s; TNum n] => signed s n
  | _ => None
  end.

Definition value_operand (v : pyval) : option operand := tokens_operand (value_tokens v).

Fixpoint operands_of (vs : list pyval) : option (list operand) :=
  match vs with
  | [] => Some []
  | v :: vs' =>
      match value_operand v, operands_of vs' with
      | Some o, Some os => Some (o :: os)
      | _, _ => None
      end
  end.

(** *** Observations and stored rows *)

(** The SQL value that a Python value is written as, when it can be
    written as a literal: [None], [nan], the infinities and a text that
    contains the NUL character cannot. *)
Definition literal_value (v : pyval) : option sqlval :=
  match v with
  | PNone => None
  | PStr s => if has_nul s then None else Some (SText s)
  | PInt z => Some (SNum (inject_Z z))
  | PFloat f => option_map SNum (float_value f)
  | PBool b => Some (SNum (inject_Z (if b then 1 else 0)))
  | PDate d => Some (SText (strftime_text "%Y-%m-%d" d midnight))
  | PDateTime d t => Some (SText (strftime_text "%Y-%m-%d %H:%M:%S.%f" d t))
  end.

Definition is_none (v : pyval) : bool :=
  match v with
  | PNone => true
  | _ => false
  end.

(** None of the six caller-supplied fields is null. *)
Definition complete (o : Observation) : bool := forallb (fun v => negb (is_none v)) (fields o).

(** At least one of them is. *)
Definition has_null (o : Observation) : bool := existsb is_none (fields o).

(** A well-formed observation: a price that is given is a number, not
    [nan] or an infinity, and a text that is given has no NUL character. *)
Definition well_formed (o : Observation) : bool :=
  forallb (fun v => is_none v || match literal_value v with Some _ => true | None => false end)
          (fields o).

Definition cell_of (v : pyval) : sqlval :=
  match literal_value v with
  | Some x => x
  | None => SNull
  end.

(** The row that holds the fields of [o], stamped by the store at [now]. *)
Definition cells_of (o : Observation) (now : Z) : cells :=
  mkCells (cell_of (of_date (Date o))) (cell_of (of_str (Item o)))
          (cell_of (of_float (Price o))) (cell_of (of_str (Category o)))
          (cell_of (of_str (State o))) (cell_of (of_str (City o))) (Default now).

(** The frame of a table, newest row first: the rows in reverse, each
    under the label of its place in the table. *)
Definition newest_first (t : table) : list (Z * cells) :=
  rev (combine (map Z.of_nat (seq 0 (List.length t))) (map row_cells t)).

(** The text of a date: a plain date as YYYY-MM-DD, a timestamp with its
    time and microseconds. *)
Definition date_text (d : pydate) : string :=
  match d with
  | Day d => strftime_text "%Y-%m-%d" d midnight
  | Moment d t => strftime_text "%Y-%m-%d %H:%M:%S.%f" d t
  end.

(** *** Sample inputs *)

Definition sample_clock (n : nat) : Z := (1667520000 + 60 * Z.of_nat n)%Z.

(** 3.99 *)
Definition f_3_99 : pyfloat :=
  FFinite false (mkNumeral (Decimal.D3 Decimal.Nil)
                           (Some (Decimal.D9 (Decimal.D9 Decimal.Nil))) None).

(** The observation of [test_save_observation_is_submitted]. *)
Definition dozen_eggs : Observation :=
  mkObservation (Some (Day (mkDate 2022 11 4))) (Some "Dozen eggs") (Some f_3_99)
                (Some "Food") (Some "Texas") (Some "Dallas")
                (mkDate 2022 11 4, mkTime 8 0 0 0).

(** The observation of [test_dont_save_if_None_value_is_submitted]: no
    city. *)
Definition dozen_eggs_no_city : Observation :=
  mkObservation (Some (Day (mkDate 2022 11 4))) (Some "Dozen eggs") (Some f_3_99)
                (Some "Food") (Some "Texas") None
                (mkDate 2022 11 4, mkTime 8 0 0 0).

(** A table that holds one row. *)
Definition one_row : table :=
  [(1%Z, mkCells (SText "2022-11-03") (SText "Wool Socks, Pair") (SNum 21.95%Q)
                 (SText "Clothing") (SText "Texas") (SText "Austin") (Default 1667433600))].

Definition sample_world : world := mkWorld (Some one_row) 1.

(** [write] called on each observation of a list, in order. *)
Fixpoint write_all (clock : nat -> Z) (os : list Observation) (w : world) : world :=
  match os with
  | [] => w
  | o :: os' => write_all clock os' (snd (write clock o w))
  end.

(** The rows of the observations [os], the first one stamped by the
    [n]-th statement, the next one by the one after, and so on. *)
Fixpoint stamped (clock : nat -> Z) (os : list Observation) (n : nat) : list cells :=
  match os with
  | [] => []
  | o :: os' => cells_of o (clock n) :: stamped clock os' (S n)
  end.

(** *** Filters *)

(** The tokens of the head of the delete statement. *)
Definition delete_head : list token :=
  [TWord "DELETE"; TWord "from"; TWord "Observation"; TWord "WHERE"; TWord "rowid";
   TWord "in"; TLParen; TWord "SELECT"; TWord "rowid"; TWord "FROM";
   TWord "Observation"; TWord "WHERE"].

Definition condition_tokens (kv : string * pyval) : list token :=
  TWord (PyStr.capitalize (fst kv)) :: TEq :: value_tokens (snd kv).

Fixpoint conditions_tokens (kwargs : list (string * pyval)) : list token :=
  match kwargs with
  | [] => []
  | [kv] => condition_tokens kv
  | kv :: rest => (condition_tokens kv ++ TWord "AND" :: conditions_tokens rest)%list
  end.

(** One filter entry against a row: the entry names a column, whatever
    the case of the name, its value can be written as a literal, and the
    row holds that value in that column. *)
Definition field_matches (kv : string * pyval) (r : row) : bool :=
  match column_of_name (fst kv), literal_value (snd kv) with
  | Some c, Some x => sql_eq (column_value c r) x
  | _, _ => false
  end.

(** The conjunctive equality filter: every entry matches. *)
Definition matches (kwargs : list (string * pyval)) (r : row) : bool :=
  forallb (fun kv => field_matches kv r) kwargs.

(** The names that [column_of_name] knows. *)
Definition column_names : list string :=
  ["date"; "item"; "price"; "category"; "state"; "city"; "addedon";
   "rowid"; "oid"; "_rowid_"].

(** The condition that the parser reads from a filter entry. *)
Definition read_condition (kv : string * pyval) : option condition :=
  pair_up (operand1 (TWord (PyStr.capitalize (fst kv)))) (value_operand (snd kv)).

Fixpoint read_conditions (kwargs : list (string * pyval)) : option (list condition) :=
  match kwargs with
  | [] => Some []
  | kv :: rest =>
      match read_condition kv, read_conditions rest with
      | Some c, Some cs => Some (c :: cs)
      | _, _ => None
      end
  end.

(** Every entry names a column and gives a value that can be written as
    a literal. *)
Definition filter_ok (kwargs : list (string * pyval)) : bool :=
  forallb (fun kv =>
             match column_of_name (fst kv), literal_value (snd kv) with
             | Some _, Some _ => true
             | _, _ => false
             end) kwargs.

(** The table without the rows whose rowid is that of a row of [sel]. *)
Definition without (sel : list row) (t : table) : table :=
  filter (fun r => negb (existsb (fun r' => (rowid r =? rowid r')%Z) sel)) t.


(** *** Calls on the store *)

Inductive call :=
| CallWrite (self : Observation)
| CallDeleteMatching (self : Observation) (n_to_delete : Z)
                     (order_to_delete_in : option (list (string * pyval)))
                     (kwargs : list (string * pyval))
| CallTableDf
| CallCreateTable (cls : vocabulary) (today : Z) (z : nat -> Q).

Definition perform (clock : nat -> Z) (c : call) (w : world) : world :=
  match c with
  | CallWrite o => snd (write clock o w)
  | CallDeleteMatching o n order kwargs => snd (delete_matching clock o n order kwargs w)
  | CallTableDf => snd (table_df clock w)
  | CallCreateTable cls today z => snd (create_table clock cls today z w)
  end.

Definition run_calls (clock : nat -> Z) (cs : list call) (w : world) : world :=
  fold_left (fun w c => perform clock c w) cs w.

(** A database file on which nothing was run yet. *)
Definition fresh : world := mkWorld None 0.

Definition stamp_of (r : row) : stamp := cAddedOn (row_cells r).

(** The stamp of [r] is the default, read when a statement before the
    [bound]-th ran. *)
Definition store_stamp (clock : nat -> Z) (bound : nat) (r : row) : Prop :=
  exists k, k < bound /\ stamp_of r = Default (clock k).

(** [r] was stamped by an earlier statement than [r']. *)
Definition stamped_before (clock : nat -> Z) (r r' : row) : Prop :=
  exists k k', k < k' /\ stamp_of r = Default (clock k) /\ stamp_of r' = Default (clock k').

(** The invariant of the table: rowids grow along it, every stamp is the
    store's, and the stamps were taken in the order of the rows. *)
Definition table_ok (clock : nat -> Z) (bound : nat) (t : table) : Prop :=
  StronglySorted (fun r r' => (rowid r < rowid r')%Z) t
  /\ Forall (store_stamp clock bound) t
  /\ StronglySorted (stamped_before clock) t.

Definition world_ok (clock : nat -> Z) (w : world) : Prop :=
  forall t, db w = Some t -> table_ok clock (statements w) t.

(** The stamp of [r] is a time that is not later than that of [r']. *)
Definition not_later (r r' : row) : Prop :=
  exists a b, stamp_of r = Default a /\ stamp_of r' = Default b /\ (a <= b)%Z.

(** [self.AddedOn = a] *)
Definition set_AddedOn (a : date * time) (o : Observation) : Observation :=
  mkObservation (Date o) (Item o) (Price o) (Category o) (State o) (City o) a.

(** The fixture of the end-to-end example: one category with one item,
    one state with one city, base price 3.00, scale (1.0, 0.0). *)
Definition fixture : vocabulary :=
  mkVocabulary [("Food", ["Eggs"])] [("Texas", ["Dallas"])]
               [("Eggs", 3.00%Q)] [("Texas", (1.0%Q, 0.0%Q))].

(** 2022-11-04 as a number of days since 1970-01-01. *)
Definition sample_today : Z := 19300.

Definition sample_calls : list call :=
  [CallCreateTable fixture sample_today (fun _ => 0%Q);
   CallWrite dozen_eggs;
   CallDeleteMatching dozen_eggs 2 None [("state", PStr "Texas")];
   CallWrite (set_AddedOn (mkDate 1999 1 1, midnight) dozen_eggs)].

(** *** Synthetic data *)

(** The sum over the categories of their item counts, and over the
    states of their city counts. *)
Definition item_count (cls : vocabulary) : nat :=
  list_sum (map (fun ci => List.length (snd ci)) (category_item_map cls)).

Definition city_count (cls : vocabulary) : nat :=
  list_sum (map (fun sc => List.length (snd sc)) (state_city_map cls)).

(** The synthetic cardinality. *)
Definition seed_count (cls : vocabulary) : nat := item_count cls * city_count cls * 10 * 5.

Definition set_price (s : record) (p : Q) : record :=
  mkRecord (rDate s) (rCategory s) (rItem s) (rState s) (rCity s) p.

(** The rows with the price [g i s] for the [i]-th one. *)
Fixpoint reprice (g : nat -> record -> Q) (i : nat) (df : list record) : list record :=
  match df with
  | [] => []
  | s :: df' => set_price s (g i s) :: reprice g (S i) df'
  end.

Definition base_price (cls : vocabulary) (s : record) : Q :=
  match assoc (rItem s) (item_base_price cls) with
  | Some b => b
  | None => 0%Q
  end.

Definition scale (cls : vocabulary) (s : record) : Q * Q :=
  match assoc (rState s) (state_price_mu_std cls) with
  | Some ms => ms
  | None => (0%Q, 0%Q)
  end.

(** The price model: the base price of the item times the mean of the
    state, then a Gaussian draw around it whose standard deviation is
    that price times the standard deviation of the state. *)
Definition model_price (cls : vocabulary) (z : nat -> Q) (i : nat) (s : record) : Q :=
  let mu := (base_price cls s * fst (scale cls s))%Q in
  gauss (z i) mu (mu * snd (scale cls s))%Q.

Definition has_key {A} (d : list (string * A)) (k : string) : bool :=
  match assoc k d with
  | Some _ => true
  | None => false
  end.

(** Every item has a base price and every state has a scale. *)
Definition vocabulary_ok (cls : vocabulary) : bool :=
  forallb (has_key (item_base_price cls)) (available_items cls)
  && forallb (has_key (state_price_mu_std cls)) (available_states cls).

(** The caller-side columns of a row of the frame, all but the price. *)
Definition key (r : record) : Z * string * string * string * string :=
  (rDate r, rCategory r, rItem r, rState r, rCity r).

(** The combinations, from the vocabulary: a category with one of its
    items, a state with one of its cities, a day of the window, a
    replica. *)
Definition combinations (cls : vocabulary) (today : Z)
  : list (string * string * (string * string) * Z * nat) :=
  list_prod
    (list_prod
       (list_prod
          (flat_map (fun ci => map (pair (fst ci)) (snd ci)) (category_item_map cls))
          (flat_map (fun sc => map (pair (fst sc)) (snd sc)) (state_city_map cls)))
       (date_range today 10))
    (seq 0 5).

(** What the fifth testable property says of a call: it returns the
    synthetic cardinality of records, each with a price above zero. *)
Definition synthetic_claim (cls : vocabulary) (today : Z) (z : nat -> Q) : Prop :=
  exists df,
    get_test_data cls today z = Returned df
    /\ List.length df = seed_count cls
    /\ Forall (fun r => (0 < rPrice r)%Q) df.

(** The row of a combination. *)
Definition combination_key (c : string * string * (string * string) * Z * nat)
  : Z * string * string * string * string :=
  let '(ci, sc, dt, _) := c in (dt, fst ci, snd ci, fst sc, snd sc).

(** The table that [to_sql] leaves when it appends the frame [df] to
    [t], the first row at the [s]-th statement. *)
Fixpoint seeded (clock : nat -> Z) (df : list record) (s : nat) (t : table) : table :=
  match df with
  | [] => t
  | r :: df' =>
      seeded clock df' (S s) (t ++ [(next_rowid t, bound_cells (clock s) r)])%list
  end.

(** The caller-side columns of a stored row, all but the price. *)
Definition data_columns (r : row) : sqlval * sqlval * sqlval * sqlval * sqlval :=
  (cDate (row_cells r), cCategory (row_cells r), cItem (row_cells r),
   cState (row_cells r), cCity (row_cells r)).

Definition record_columns (r : record) : sqlval * sqlval * sqlval * sqlval * sqlval :=
  data_columns (0%Z, bound_cells 0%Z r).

(* ================================================================= *)
(** ** Further notions *)

(** A text without a NUL character, an integer of 64 bits, or a value
    of another type: what the backend reads as it is written. *)
Definition in_backend_range (v : pyval) : bool :=
  match v with
  | PStr s => negb (has_nul s)
  | PInt z => int64 z
  | _ => true
  end.

(** A value that cannot be written as a literal: [None], [nan], an
    infinity, a text with a NUL character. *)
Definition unwritable (v : pyval) : bool :=
  match literal_value v with
  | Some _ => false
  | None => true
  end.

(** Every entry of the filter names a column. *)
Definition keys_ok (kwargs : list (string * pyval)) : bool :=
  forallb (fun kv => match column_of_name (fst kv) with Some _ => true | None => false end)
          kwargs.

(** The six fields of an observation as a filter, the way a caller
    passes them to [delete_matching]. *)
Definition own_filter (o : Observation) : list (string * pyval) :=
  [("date", of_date (Date o)); ("item", of_str (Item o)); ("price", of_float (Price o));
   ("category", of_str (Category o)); ("state", of_str (State o)); ("city", of_str (City o))].

(** The keys that the combinations use are in the price tables: the
    item of every combination has a base price and its state a scale. *)
Definition used_ok (cls : vocabulary) (today : Z) : bool :=
  forallb (fun s => has_key (item_base_price cls) (rItem s)
                    && has_key (state_price_mu_std cls) (rState s))
          (combos cls today).

(** [k] is an item without a base price or a state without a scale. *)
Definition missing_key (cls : vocabulary) (k : string) : Prop :=
  (In k (available_items cls) /\ has_key (item_base_price cls) k = false)
  \/ (In k (available_states cls) /\ has_key (state_price_mu_std cls) k = false).

(** The character [c] does not occur in [s]. *)
Definition free_of (c : ascii) (s : string) : bool :=
  all_chars (fun x => negb (Ascii.eqb x c)) s.

(** A day given the way [write] and its callers give one: a date, a
    timestamp, or a text without a space such as 2022-11-04. *)
Definition day_value (v : pyval) : bool :=
  match v with
  | PDate _ | PDateTime _ _ => true
  | PStr s => free_of " " s
  | _ => false
  end.

(* ================================================================= *)
(** ** The dashboard callbacks of [app.py] *)

(** What a callback raises: an error of the store, or one of the
    library calls it makes. *)
Inductive app_exn :=
| StoreError (e : exn)
| ValueError
| TypeError
| LibraryError (what : string).

Inductive result (A : Type) :=
| Ok (a : A)
| Err (e : app_exn).
Arguments Ok {A} a.
Arguments Err {A} e.

Definition graph_by_city : string := "Average Item Price by City".

Section Callbacks.

Variable clock : nat -> Z.

(** [Observation.AddedOn], the class attribute: the time of the import. *)
Variable import_time : date * time.

(** The library calls: [datetime.datetime.strptime(s, "%Y-%m-%d").date()],
    [datetime.datetime.strptime(s, "%Y-%m-%d %H:%M:%S")], [float(v)],
    [px.scatter(df, x="Date", y="Price", color="Item")] and
    [px.bar(df.groupby(["City", "Item"]).mean().reset_index(), ...)]. *)
Variable strptime_date : string -> result date.
Variable strptime_datetime : string -> result (date * time).
Variable to_float : pyval -> result pyfloat.
Variable figure : Type.
Variable px_scatter : DataFrame -> result figure.
Variable px_bar_of_means : DataFrame -> result figure.

(** [datetime.datetime.strptime(date, "%Y-%m-%d").date()] for the value
    of the date picker, which is a text, or [None] when it is empty. *)
Definition picked_date : option string -> result date :=
  fun date =>
    match date with
    | Some s => strptime_date s
    | None => Err TypeError
    end.

(** [Observation(Date=..., Category=category, Item=item,
    Price=float(price), State=state, City=city)]: the date is parsed
    first, then the price. *)
Definition new_observation (date : option string) (category item : option string)
           (price : pyval) (state city : option string) : result Observation :=
  match picked_date date with
  | Err e => Err e
  | Ok d =>
      match to_float price with
      | Err e => Err e
      | Ok p => Ok (mkObservation (Some (Day d)) item (Some p) category state city import_time)
      end
  end.

(** [df.to_dict("records")] *)
Definition to_dict_records (df : DataFrame) : list cells := map snd df.

(** [df = Observation.table_df()] and
    [return df.to_dict("records"), px.scatter(df, ...)]. *)
Definition table_and_scatter (w : world) : result (list cells * figure) * world :=
  match table_df clock w with
  | (Raised e, w') => (Err (StoreError e), w')
  | (Returned df, w') =>
      match px_scatter df with
      | Err e => (Err e, w')
      | Ok fig => (Ok (to_dict_records df, fig), w')
      end
  end.

(** [df["Date"] == s], for one row. *)
Definition date_is (s : string) (r : Z * cells) : bool :=
  match cDate (snd r) with
  | SText x => String.eqb x s
  | _ => false
  end.

(** [update_graph] *)
Definition update_graph (graph_type : string) (date : option string) (w : world)
  : result (list cells * figure) * world :=
  if String.eqb graph_type graph_by_city then
    match table_df clock w with
    | (Raised e, w') => (Err (StoreError e), w')
    | (Returned df, w') =>
        match picked_date date with
        | Err e => (Err e, w')
        | Ok d =>
            let date_format_for_custom_added_data := py_str (PDate d) in
            match match date with
                  | Some s => strptime_datetime (s ++ " 00:00:00")
                  | None => Err TypeError
                  end with
            | Err e => (Err e, w')
            | Ok (d', t') =>
                let date_format_for_preinstantiated_data := py_str (PDateTime d' t') in
                let data_for_selected_date :=
                  filter (fun r => date_is date_format_for_preinstantiated_data r
                                   || date_is date_format_for_custom_added_data r) df in
                match px_bar_of_means data_for_selected_date with
                | Err e => (Err e, w')
                | Ok fig => (Ok (to_dict_records df, fig), w')
                end
            end
        end
    end
  else table_and_scatter w.

(** [delete_observations]: the filter is made of the state, the city,
    the date as the picker gives it, and the category. *)
Definition delete_observations (n_clicks2 : Z) (observations_to_delete : Z)
           (date : option string) (category state city : option string) (price : pyval)
           (item : option string) (w : world) : result (list cells * figure) * world :=
  if (1 <=? n_clicks2)%Z then
    let number_to_delete := observations_to_delete in
    match new_observation date category item price state city with
    | Err e => (Err e, w)
    | Ok obj =>
        match delete_matching clock obj number_to_delete None
                [("state", of_str state); ("city", of_str city);
                 ("date", of_str date); ("category", of_str category)] w with
        | (Raised e, w') => (Err (StoreError e), w')
        | (Returned _, w') => table_and_scatter w'
        end
    end
  else table_and_scatter w.

(** [update_observation]; [triggered_id] is what [ctx.triggered_id]
    holds. *)
Definition update_observation (triggered_id : option string) (n_clicks n_clicks2 : Z)
           (graph_type : string) (date : option string) (category item : option string)
           (price : pyval) (state city : option string) (observations_to_delete : Z)
           (w : world) : result (list cells * figure) * world :=
  let triggered := fun id => match triggered_id with
                             | Some t => String.eqb t id
                             | None => false
                             end in
  if triggered "graph-type" then update_graph graph_type date w
  else if triggered "date-input" then
    if negb (String.eqb graph_type graph_by_city) then update_graph graph_type date w
    else update_graph graph_by_city date w
  else if triggered "delete-button" then
    delete_observations n_clicks2 observations_to_delete date category state city price item w
  else
    if (1 <=? n_clicks)%Z then
      match new_observation date category item price state city with
      | Err e => (Err e, w)
      | Ok obj =>
          match write clock obj w with
          | (Raised e, w') => (Err (StoreError e), w')
          | (Returned _, w') => table_and_scatter w'
          end
      end
    else table_and_scatter w.

End Callbacks.

(** The filter that [delete_observations] passes to [delete_matching]. *)
Definition dashboard_filter (date category state city : option string)
  : list (string * pyval) :=
  [("state", of_str state); ("city", of_str city);
   ("date", of_str date); ("category", of_str category)].

(** The triggers that [update_observation] tells apart. *)
Definition known_trigger (triggered_id : option string) : bool :=
  match triggered_id with
  | Some t => String.eqb t "graph-type" || String.eqb t "date-input"
              || String.eqb t "delete-button"
  | None => false
  end.

(** Sample library calls: a date parser that knows one day, and a
    [float] that takes floats. *)
Definition sample_strptime_date (s : string) : result date :=
  if String.eqb s "2022-11-04" then Ok (mkDate 2022 11 4) else Err ValueError.

Definition sample_strptime_datetime (s : string) : result (date * time) :=
  if String.eqb s "2022-11-04 00:00:00" then Ok (mkDate 2022 11 4, midnight) else Err ValueError.

Definition sample_to_float (v : pyval) : result pyfloat :=
  match v with
  | PFloat f => Ok f
  | _ => Err TypeError
  end.

Definition sample_import_time : date * time := (mkDate 2022 11 4, mkTime 8 0 0 0).

(** ** Filters within the storage classes *)









(** ** The round trip, the fetch and the stamps, as the specification has them *)

Definition stored (w : world) : table :=
  match db w with
  | Some t => t
  | None => []
  end.

(** Insert followed by fetch gives one row more than the fetch before. *)
Definition round_trip (clock : nat -> Z) (o : Observation) (w : world) : Prop :=
  exists before after,
    fst (table_df clock w) = Returned before
    /\ fst (write clock o w) = Returned tt
    /\ fst (table_df clock (snd (write clock o w))) = Returned after
    /\ List.length after = S (List.length before).

(** The fetch returns the stored rows, the newest first. *)
Definition fetches_all (clock : nat -> Z) (w : world) : Prop :=
  exists df,
    fst (table_df clock w) = Returned df
    /\ map snd df = rev (map row_cells (stored w)).

(** The stamps of the rows that the calls [cs] leave do not decrease
    along the table. *)
Definition non_decreasing_stamps (clock : nat -> Z) (cs : list call) : Prop :=
  forall t, db (run_calls clock cs fresh) = Some t -> StronglySorted not_later t.

(** The default stamps of the statements [ks]. *)
Definition at_statements (clock : nat -> Z) (ks : list nat) : list stamp :=
  map (fun k => Default (clock k)) ks.

(** The stamps of the table are those of statements that ran, each row
    stamped by a later statement than the rows before it. *)
Definition stamps_in_order (clock : nat -> Z) (w : world) : Prop :=
  forall t, db w = Some t ->
    exists ks,
      map stamp_of t = at_statements clock ks
      /\ StronglySorted lt ks
      /\ Forall (fun k => k < statements w) ks.

(** A clock that is set back by a minute at every statement. *)
Definition back_clock (n : nat) : Z := (1667520000 - 60 * Z.of_nat n)%Z.

(** [dozen_eggs] with the price [nan]: no field is null. *)
Definition dozen_eggs_nan : Observation :=
  mkObservation (Some (Day (mkDate 2022 11 4))) (Some "Dozen eggs") (Some FNan)
                (Some "Food") (Some "Texas") (Some "Dallas")
                (mkDate 2022 11 4, mkTime 8 0 0 0).

(** [dozen_eggs] with a NUL character in the name of the item. *)
Definition dozen_eggs_nul : Observation :=
  mkObservation (Some (Day (mkDate 2022 11 4)))
                (Some (String "D" (String Ascii.zero "eggs"))) (Some f_3_99)
                (Some "Food") (Some "Texas") (Some "Dallas")
                (mkDate 2022 11 4, mkTime 8 0 0 0).

(* ================================================================= *)
(** * Properties *)

(** ** Characters and strings *)

Lemma is_quote_eqb c : Ascii.eqb "'" c = is_quote c.
Proof. unfold is_quote. apply Ascii.eqb_sym. Qed.

Lemma replace_quote s : PyStr.replace "'" "''" s = double_quotes s.
Proof.
  change (PyStr.replace_scan "'" "''" 0 s = double_quotes s).
  induction s as [|c s IH]; [reflexivity|].
  change (PyStr.replace_scan "'" "''" 0 (String c s))
    with (if Ascii.eqb "'" c && true
          then "''" ++ PyStr.replace_scan "'" "''" 0 s
          else String c (PyStr.replace_scan "'" "''" 0 s)).
  cbn [double_quotes].
  rewrite is_quote_eqb, andb_true_r, IH.
  destruct (is_quote c) eqn:Hc; [|reflexivity].
  unfold is_quote in Hc. apply Ascii.eqb_eq in Hc. now subst c.
Qed.

Lemma is_digit_digit_char d : (d < 10)%N -> is_digit (digit_char d) = true.
Proof.
  intros H.
  assert (Hd : In d [0;1;2;3;4;5;6;7;8;9]%N).
  { simpl. lia. }
  simpl in Hd.
  repeat (destruct Hd as [<-|Hd]; [reflexivity|]).
  contradiction.
Qed.

Lemma digit_val_digit_char d : (d < 10)%N -> digit_val (digit_char d) = d.
Proof.
  intros H.
  assert (Hd : In d [0;1;2;3;4;5;6;7;8;9]%N).
  { simpl. lia. }
  simpl in Hd.
  repeat (destruct Hd as [<-|Hd]; [reflexivity|]).
  contradiction.
Qed.

Lemma zero_padded_fixed w n :
  (n < 10 ^ N.of_nat w)%N -> zero_padded w n = fixed_digits w n.
Proof.
  intros H. unfold zero_padded.
  apply N.ltb_lt in H. now rewrite H.
Qed.

Lemma has_shape_digit p pat x s :
  is_alpha p = true -> (x < 10)%N -> has_shape pat s = true ->
  has_shape (String p pat) (String (digit_char x) s) = true.
Proof.
  intros Hp Hx Hs. cbn [has_shape].
  now rewrite Hp, (is_digit_digit_char x Hx), Hs.
Qed.

Lemma has_shape_same p pat s :
  is_alpha p = false -> has_shape pat s = true ->
  has_shape (String p pat) (String p s) = true.
Proof.
  intros Hp Hs. cbn [has_shape].
  now rewrite Hp, Ascii.eqb_refl, Hs.
Qed.

Lemma has_shape_length pat s : has_shape pat s = true -> String.length s = String.length pat.
Proof.
  revert s. induction pat as [|p pat IH]; intros [|c s]; cbn [has_shape String.length];
    try discriminate; [reflexivity|].
  intros H. apply andb_true_iff in H as [_ H]. now rewrite (IH s H).
Qed.

Lemma numbers_in_fixed w n c s :
  numbers_in (Some c) (fixed_digits w n ++ s)
  = numbers_in (Some (c * 10 ^ N.of_nat w + n mod 10 ^ N.of_nat w)%N) s.
Proof.
  revert c. induction w as [|w IH]; intros c.
  - cbn [fixed_digits append]. do 2 f_equal.
    change (10 ^ N.of_nat 0)%N with 1%N. rewrite N.mod_1_r. lia.
  - cbn [fixed_digits append numbers_in].
    assert (Hx : (n / 10 ^ N.of_nat w mod 10 < 10)%N) by (apply N.mod_lt; discriminate).
    rewrite (is_digit_digit_char _ Hx), (digit_val_digit_char _ Hx), IH.
    do 2 f_equal.
    rewrite Nat2N.inj_succ, N.pow_succ_r'.
    rewrite (N.mul_comm 10 (10 ^ N.of_nat w)), N.Div0.mod_mul_r.
    lia.
Qed.

Lemma numbers_in_fixed_first w n s :
  (n < 10 ^ N.of_nat (S w))%N ->
  numbers_in None (fixed_digits (S w) n ++ s) = numbers_in (Some n) s.
Proof.
  intros Hn.
  change (fixed_digits (S w) n)
    with (String (digit_char (n / 10 ^ N.of_nat w mod 10)) (fixed_digits w n)).
  cbn [append numbers_in].
  assert (Hx : (n / 10 ^ N.of_nat w mod 10 < 10)%N) by (apply N.mod_lt; discriminate).
  rewrite (is_digit_digit_char _ Hx), (digit_val_digit_char _ Hx), numbers_in_fixed.
  do 2 f_equal.
  rewrite Nat2N.inj_succ, N.pow_succ_r' in Hn.
  assert (Hp : (0 < 10 ^ N.of_nat w)%N) by (apply N.neq_0_lt_0, N.pow_nonzero; discriminate).
  rewrite (N.mod_small (n / 10 ^ N.of_nat w) 10)
    by (apply N.Div0.div_lt_upper_bound; lia).
  pose proof (N.div_mod n (10 ^ N.of_nat w)) as E.
  specialize (E ltac:(lia)). lia.
Qed.

Lemma numbers_in_sep n c s :
  is_digit c = false -> numbers_in (Some n) (String c s) = n :: numbers_in None s.
Proof. intros H. cbn [numbers_in]. now rewrite H. Qed.

Lemma append_nil_r s : s ++ EmptyString = s.
Proof. induction s as [|c s IH]; cbn [append]; [reflexivity | now rewrite IH]. Qed.

Lemma append_assoc a b c : (a ++ b) ++ c = a ++ (b ++ c).
Proof. induction a as [|x a IH]; cbn [append]; [reflexivity | now rewrite IH]. Qed.

Lemma append_cons c a b : String c a ++ b = String c (a ++ b).
Proof. reflexivity. Qed.

(** ** The value encoder *)

Lemma valid_date_bounds d :
  valid_date d = true ->
  (year d < 10 ^ N.of_nat 4 /\ month d < 10 ^ N.of_nat 2 /\ day d < 10 ^ N.of_nat 2)%N.
Proof.
  unfold valid_date. rewrite !andb_true_iff, !N.leb_le.
  change (10 ^ N.of_nat 4)%N with 10000%N. change (10 ^ N.of_nat 2)%N with 100%N. lia.
Qed.

Lemma valid_time_bounds t :
  valid_time t = true ->
  (hour t < 10 ^ N.of_nat 2 /\ minute t < 10 ^ N.of_nat 2 /\ second t < 10 ^ N.of_nat 2
   /\ microsecond t < 10 ^ N.of_nat 6)%N.
Proof.
  unfold valid_time. rewrite !andb_true_iff, !N.leb_le.
  change (10 ^ N.of_nat 6)%N with 1000000%N. change (10 ^ N.of_nat 2)%N with 100%N. lia.
Qed.

(** A year of four digits is printed as its four digits. *)
Lemma year_text_fixed y : (1000 <= y < 10000)%N -> year_text y = fixed_digits 4 y.
Proof.
  intros Hy.
  assert (Hall : forallb (fun n => String.eqb (year_text n) (fixed_digits 4 n))
                         (map (fun k => (1000 + N.of_nat k)%N) (seq 0 (N.to_nat 9000)))
                 = true) by (vm_compute; reflexivity).
  rewrite forallb_forall in Hall. apply String.eqb_eq, Hall, in_map_iff.
  exists (N.to_nat (y - 1000)). split; [lia|]. apply in_seq. lia.
Qed.

(** The text of a valid date, field by field: the year as it is, the
    month and the day on two digits. *)
Lemma strftime_date d :
  valid_date d = true ->
  strftime_text "%Y-%m-%d" d midnight
  = year_text (year d) ++ "-" ++ fixed_digits 2 (month d) ++ "-" ++ fixed_digits 2 (day d).
Proof.
  intros H. destruct (valid_date_bounds d H) as (Hy & Hm & Hd).
  change (strftime_text "%Y-%m-%d" d midnight)
    with (year_text (year d) ++ "-" ++ zero_padded 2 (month d) ++ "-"
          ++ zero_padded 2 (day d) ++ EmptyString).
  now rewrite append_nil_r, !zero_padded_fixed.
Qed.

Lemma strftime_datetime d t :
  valid_date d = true -> valid_time t = true ->
  strftime_text "%Y-%m-%d %H:%M:%S.%f" d t
  = year_text (year d) ++ "-" ++ fixed_digits 2 (month d) ++ "-" ++ fixed_digits 2 (day d)
    ++ " " ++ fixed_digits 2 (hour t) ++ ":" ++ fixed_digits 2 (minute t) ++ ":"
    ++ fixed_digits 2 (second t) ++ "." ++ fixed_digits 6 (microsecond t).
Proof.
  intros H H'. destruct (valid_date_bounds d H) as (Hy & Hm & Hd).
  destruct (valid_time_bounds t H') as (HH & HM & HS & Hf).
  change (strftime_text "%Y-%m-%d %H:%M:%S.%f" d t)
    with (year_text (year d) ++ "-" ++ zero_padded 2 (month d) ++ "-"
          ++ zero_padded 2 (day d) ++ " " ++ zero_padded 2 (hour t) ++ ":"
          ++ zero_padded 2 (minute t) ++ ":" ++ zero_padded 2 (second t) ++ "."
          ++ zero_padded 6 (microsecond t) ++ EmptyString).
  now rewrite append_nil_r, !zero_padded_fixed.
Qed.

Ltac shape :=
  cbn [fixed_digits append];
  repeat first
    [ apply has_shape_digit; [reflexivity | apply N.mod_lt; discriminate | ]
    | apply has_shape_same; [reflexivity | ] ];
  reflexivity.

Lemma date_shape d :
  has_shape "YYYY-MM-DD"
    (fixed_digits 4 (year d) ++ "-" ++ fixed_digits 2 (month d) ++ "-" ++ fixed_digits 2 (day d))
  = true.
Proof. shape. Qed.

Lemma datetime_shape d t :
  has_shape "YYYY-MM-DD HH:MM:SS.ffffff"
    (fixed_digits 4 (year d) ++ "-" ++ fixed_digits 2 (month d) ++ "-" ++ fixed_digits 2 (day d)
     ++ " " ++ fixed_digits 2 (hour t) ++ ":" ++ fixed_digits 2 (minute t) ++ ":"
     ++ fixed_digits 2 (second t) ++ "." ++ fixed_digits 6 (microsecond t))
  = true.
Proof. shape. Qed.

Lemma numbers_in_last w n :
  (n < 10 ^ N.of_nat (S w))%N -> numbers_in None (fixed_digits (S w) n) = [n].
Proof.
  intros H. rewrite <- (append_nil_r (fixed_digits (S w) n)).
  now rewrite numbers_in_fixed_first.
Qed.

Ltac fields :=
  repeat first
    [ rewrite numbers_in_last by assumption
    | rewrite numbers_in_fixed_first by assumption
    | progress cbn [append]
    | rewrite numbers_in_sep by reflexivity ];
  reflexivity.

Lemma date_fields d :
  valid_date d = true ->
  numbers_in None
    (fixed_digits 4 (year d) ++ "-" ++ fixed_digits 2 (month d) ++ "-" ++ fixed_digits 2 (day d))
  = [year d; month d; day d].
Proof.
  intros H. destruct (valid_date_bounds d H) as (Hy & Hm & Hd). fields.
Qed.

Lemma datetime_fields d t :
  valid_date d = true -> valid_time t = true ->
  numbers_in None
    (fixed_digits 4 (year d) ++ "-" ++ fixed_digits 2 (month d) ++ "-" ++ fixed_digits 2 (day d)
     ++ " " ++ fixed_digits 2 (hour t) ++ ":" ++ fixed_digits 2 (minute t) ++ ":"
     ++ fixed_digits 2 (second t) ++ "." ++ fixed_digits 6 (microsecond t))
  = [year d; month d; day d; hour t; minute t; second t; microsecond t].
Proof.
  intros H H'. destruct (valid_date_bounds d H) as (Hy & Hm & Hd).
  destruct (valid_time_bounds t H') as (HH & HM & HS & Hf). fields.
Qed.

Lemma ends_with_quote_app s : ends_with_quote (s ++ "'") = true.
Proof.
  induction s as [|c s IH]; [reflexivity|].
  cbn [append]. destruct s; [exact IH|].
  change (ends_with_quote (String c (String a s ++ "'"))) with (ends_with_quote (String a s ++ "'")).
  exact IH.
Qed.

Lemma is_quoted_wrap s : is_quoted ("'" ++ s ++ "'") = true.
Proof. cbn [append is_quoted]. now rewrite ends_with_quote_app. Qed.

Lemma uint_text_unquoted d s : is_quoted (NilZero.string_of_uint d ++ s) = false.
Proof. destruct d; reflexivity. Qed.

Lemma int_str_unquoted z : is_quoted (int_str z) = false.
Proof.
  unfold int_str, NilZero.string_of_int.
  destruct (Z.to_int z) as [d|d]; [|reflexivity].
  rewrite <- (append_nil_r (NilZero.string_of_uint d)). apply uint_text_unquoted.
Qed.

Lemma float_repr_unquoted f : is_quoted (float_repr f) = false.
Proof.
  destruct f as [|[|]|[|] n]; try reflexivity.
  cbn [float_repr append]. unfold numeral_text. apply uint_text_unquoted.
Qed.

Lemma sqlize_str s : sqlize (PStr s) = "'" ++ PyStr.replace "'" "''" s ++ "'".
Proof. reflexivity. Qed.

Lemma sqlize_date_eq d :
  sqlize (PDate d) = "'" ++ strftime_text "%Y-%m-%d" d midnight ++ "'".
Proof. reflexivity. Qed.

Lemma sqlize_datetime_eq d t :
  sqlize (PDateTime d t) = "'" ++ strftime_text "%Y-%m-%d %H:%M:%S.%f" d t ++ "'".
Proof. reflexivity. Qed.

Lemma sqlize_float_eq f : sqlize (PFloat f) = float_repr f.
Proof. reflexivity. Qed.

Lemma sqlize_int_eq z : sqlize (PInt z) = int_str z.
Proof. reflexivity. Qed.

Lemma sqlize_bool_eq b : sqlize (PBool b) = if b then "1" else "0".
Proof. destruct b; reflexivity. Qed.

(** C6, as amended.  The value encoder realises the type-to-literal
    mapping for every supported scalar whose year, when it is a date or
    a timestamp, has four digits (1000 to 9999).  A text is wrapped in
    single quotes with every single quote of it doubled.  A timestamp is
    rendered, between quotes, as YYYY-MM-DD HH:MM:SS.ffffff and a plain
    date as YYYY-MM-DD, the digits spelling the fields; a timestamp does
    not get the shape of a plain date.  Booleans are rendered 0 and 1,
    numbers by their decimal text.  The result is wrapped in quotes
    exactly for text, dates and timestamps. *)
Theorem sqlize_type_to_literal (v : pyval) :
  valid_value v = true -> four_digit_year v = true -> type_to_literal v.
Proof.
  intros Hv Hy. unfold type_to_literal.
  destruct v as [|s|z|f|b|d|d t]; cbn [quoted_kind].
  - split; reflexivity.
  - rewrite sqlize_str, replace_quote. split; [reflexivity | apply is_quoted_wrap].
  - rewrite sqlize_int_eq. split; [reflexivity | apply int_str_unquoted].
  - rewrite sqlize_float_eq. split; [reflexivity | apply float_repr_unquoted].
  - rewrite sqlize_bool_eq. split; [reflexivity | now destruct b].
  - cbn [valid_value four_digit_year] in Hv, Hy. apply N.leb_le in Hy.
    rewrite sqlize_date_eq, (strftime_date d Hv).
    rewrite year_text_fixed by (destruct (valid_date_bounds d Hv) as (H & _); split; [lia|exact H]).
    split; [|apply is_quoted_wrap].
    eexists. split; [reflexivity|]. split; [apply date_shape | now apply date_fields].
  - cbn [valid_value four_digit_year] in Hv, Hy. apply N.leb_le in Hy.
    apply andb_true_iff in Hv as [Hd Ht].
    rewrite sqlize_datetime_eq, (strftime_datetime d t Hd Ht).
    rewrite year_text_fixed by (destruct (valid_date_bounds d Hd) as (H & _); split; [lia|exact H]).
    split; [|apply is_quoted_wrap].
    eexists. split; [reflexivity|]. split; [apply datetime_shape|].
    split; [now apply datetime_fields|].
    destruct (has_shape "YYYY-MM-DD" _) eqn:E; [|reflexivity].
    apply has_shape_length in E.
    pose proof (has_shape_length _ _ (datetime_shape d t)) as E'.
    rewrite E in E'. discriminate E'.
Qed.

Lemma sqlize_type_to_literal_witness :
  valid_value (PDateTime (mkDate 2022 11 4) (mkTime 9 5 0 1234)) = true
  /\ four_digit_year (PDateTime (mkDate 2022 11 4) (mkTime 9 5 0 1234)) = true
  /\ is_quoted (sqlize (PDateTime (mkDate 2022 11 4) (mkTime 9 5 0 1234))) = true.
Proof.
  split; [reflexivity|]. split; [reflexivity|].
  exact (proj2 (sqlize_type_to_literal
                  (PDateTime (mkDate 2022 11 4) (mkTime 9 5 0 1234)) eq_refl eq_refl)).
Defined.

Lemma length_append a b : String.length (a ++ b) = String.length a + String.length b.
Proof. induction a as [|c a IH]; [reflexivity|]. cbn [append String.length]. now rewrite IH. Qed.

(** The second of January of the year 999 is written 999-01-02, on
    three digits for the year: not the shape YYYY-MM-DD. *)
Lemma sqlize_type_to_literal_counterexample :
  valid_value (PDate (mkDate 999 1 2)) = true
  /\ sqlize (PDate (mkDate 999 1 2)) = "'999-01-02'"
  /\ ~ type_to_literal (PDate (mkDate 999 1 2)).
Proof.
  split; [reflexivity|]. split; [reflexivity|].
  intros [(body & Hb & Hs & _) _].
  apply has_shape_length in Hs. apply (f_equal String.length) in Hb.
  change (sqlize (PDate (mkDate 999 1 2))) with "'999-01-02'" in Hb.
  rewrite !length_append, Hs in Hb. discriminate Hb.
Qed.

(** ** The tokenizer *)

Lemma lex_run_app a b l :
  lex_run (a ++ b) l
  = match lex_run a l with
    | Some l' => lex_run b l'
    | None => None
    end.
Proof.
  revert l. induction a as [|c a IH]; intros l; cbn [append lex_run]; [reflexivity|].
  destruct (lex_step l c); [apply IH | reflexivity].
Qed.

Lemma delimiter_cases c :
  delimiter c = true ->
  is_idchar c = false /\ is_digit c = false /\ is_quote c = false
  /\ is_e c = false /\ Ascii.eqb c "." = false
  /\ forall out, start c out = Some (MIdle, delimiter_tokens c ++ out)%list.
Proof.
  destruct c as [[|] [|] [|] [|] [|] [|] [|] [|]]; cbv [delimiter]; cbn; try discriminate;
    intros _; repeat split.
Qed.

Lemma lex_step_text acc out c :
  lex_step (MText acc, out) c
  = if is_quote c then Some (MTextQuote acc, out) else Some (MText (c :: acc), out).
Proof. reflexivity. Qed.

Lemma lex_step_text_quote acc out c :
  lex_step (MTextQuote acc, out) c
  = if is_quote c then Some (MText (c :: acc), out)
    else start c (TText (text_of acc) :: out).
Proof. reflexivity. Qed.

Lemma lex_run_cons c s l :
  lex_run (String c s) l
  = match lex_step l c with
    | Some l' => lex_run s l'
    | None => None
    end.
Proof. reflexivity. Qed.

Lemma text_of_rev s : text_of (rev (list_ascii_of_string s)) = s.
Proof.
  unfold text_of. now rewrite rev_involutive, string_of_list_ascii_of_string.
Qed.

(** Inside a literal, a text with its quotes doubled is read back as the
    text. *)
Lemma lex_text_body s acc out :
  lex_run (double_quotes s) (MText acc, out)
  = Some (MText (rev (list_ascii_of_string s) ++ acc)%list, out).
Proof.
  revert acc. induction s as [|c s IH]; intros acc; [reflexivity|].
  cbn [double_quotes list_ascii_of_string rev].
  destruct (is_quote c) eqn:Hc.
  - rewrite lex_run_cons, lex_step_text, Hc. cbv beta iota.
    rewrite lex_run_cons, lex_step_text_quote, Hc. cbv beta iota.
    rewrite IH. now rewrite <- app_assoc.
  - rewrite lex_run_cons, lex_step_text, Hc. cbv beta iota.
    rewrite IH. now rewrite <- app_assoc.
Qed.

Lemma lexes_text s : lexes ("'" ++ double_quotes s ++ "'") [TText s].
Proof.
  intros c rest out Hc.
  destruct (delimiter_cases c Hc) as (_ & _ & Hq & _).
  rewrite !append_assoc. cbn [append].
  rewrite lex_run_cons.
  change (lex_step (MIdle, out) "'") with (Some (MText [], out)).
  cbv beta iota.
  rewrite lex_run_app, lex_text_body. cbn [append].
  rewrite lex_run_cons, lex_step_text.
  change (is_quote "'") with true. cbv beta iota.
  rewrite lex_run_cons, lex_step_text_quote, Hq, List.app_nil_r, text_of_rev.
  reflexivity.
Qed.

Lemma double_quotes_plain s : all_chars (fun c => negb (is_quote c)) s = true -> double_quotes s = s.
Proof.
  induction s as [|c s IH]; cbn [all_chars double_quotes]; [reflexivity|].
  intros H. apply andb_true_iff in H as [Hc Hs].
  apply negb_true_iff in Hc. now rewrite Hc, IH.
Qed.

Lemma lexes_plain_text s :
  all_chars (fun c => negb (is_quote c)) s = true -> lexes ("'" ++ s ++ "'") [TText s].
Proof.
  intros H. rewrite <- (double_quotes_plain s H) at 1. apply lexes_text.
Qed.

Lemma lex_int_digits d i out :
  lex_run (NilEmpty.string_of_uint d) (MInt i, out) = Some (MInt (Decimal.revapp d i), out).
Proof.
  revert i. induction d; intros i; [reflexivity | ..];
    match goal with
    | |- context [Decimal.revapp (?D d) i] => exact (IHd (D i))
    end.
Qed.

Lemma lex_frac_digits d i f out :
  lex_run (NilEmpty.string_of_uint d) (MFrac i f, out)
  = Some (MFrac i (Decimal.revapp d f), out).
Proof.
  revert f. induction d; intros f; [reflexivity | ..];
    match goal with
    | |- context [Decimal.revapp (?D d) f] => exact (IHd (D f))
    end.
Qed.

Lemma lex_exp_digits d i f neg e out :
  lex_run (NilEmpty.string_of_uint d) (MExp i f neg e, out)
  = Some (MExp i f neg (Decimal.revapp d e), out).
Proof.
  revert e. induction d; intros e; [reflexivity | ..];
    match goal with
    | |- context [Decimal.revapp (?D d) e] => exact (IHd (D e))
    end.
Qed.

Lemma lex_uint_start d out :
  lex_run (NilZero.string_of_uint d) (MIdle, out)
  = Some (MInt (Decimal.rev (nonnil d)), out).
Proof.
  destruct d; [reflexivity | ..];
    match goal with
    | |- context [nonnil (?D d)] => exact (lex_int_digits d (D Decimal.Nil) out)
    end.
Qed.

Lemma lex_exp_start d i f neg out :
  lex_run (NilZero.string_of_uint d) (MExpSign i f neg, out)
  = Some (MExp i f neg (Decimal.rev (nonnil d)), out).
Proof.
  destruct d; [reflexivity | ..];
    match goal with
    | |- context [nonnil (?D d)] => exact (lex_exp_digits d i f neg (D Decimal.Nil) out)
    end.
Qed.

Lemma lex_step_int_end i out c :
  delimiter c = true ->
  lex_step (MInt i, out) c = start c (TNum (mkNumeral (Decimal.rev i) None None) :: out).
Proof.
  intros Hc. destruct (delimiter_cases c Hc) as (Hid & Hd & _ & He & Hdot & _).
  unfold lex_step. now rewrite Hd, Hdot, He, Hid.
Qed.

Lemma lex_step_frac_end i f out c :
  delimiter c = true ->
  lex_step (MFrac i f, out) c
  = start c (TNum (mkNumeral (Decimal.rev i) (Some (Decimal.rev f)) None) :: out).
Proof.
  intros Hc. destruct (delimiter_cases c Hc) as (Hid & Hd & _ & He & Hdot & _).
  unfold lex_step. now rewrite Hd, He, Hid.
Qed.

Lemma lex_step_exp_end i f neg e out c :
  delimiter c = true ->
  lex_step (MExp i f neg e, out) c
  = start c (TNum (mkNumeral (Decimal.rev i) (rev_opt f) (Some (neg, Decimal.rev e))) :: out).
Proof.
  intros Hc. destruct (delimiter_cases c Hc) as (Hid & Hd & _ & He & Hdot & _).
  unfold lex_step. now rewrite Hd, Hid.
Qed.

(** The text of a numeral is read as that numeral. *)
Lemma lexes_numeral n : lexes (numeral_text n) [TNum (as_read n)].
Proof.
  intros c rest out Hc. destruct n as [i f e].
  unfold numeral_text, as_read. cbn [int_part frac_part exp_part rev List.app].
  rewrite !append_assoc, lex_run_app, lex_uint_start.
  destruct f as [fd|]; cbn [frac_text append].
  - rewrite lex_run_cons.
    change (lex_step (MInt (Decimal.rev (nonnil i)), out) ".")
      with (Some (MFrac (Decimal.rev (nonnil i)) Decimal.Nil, out)).
    cbv beta iota. rewrite lex_run_app, lex_frac_digits.
    destruct e as [[neg ed]|]; cbn [exp_text append].
    + rewrite lex_run_cons.
      change (lex_step (MFrac (Decimal.rev (nonnil i)) (Decimal.revapp fd Decimal.Nil), out) "e")
        with (Some (MExpMark (Decimal.rev (nonnil i))
                             (Some (Decimal.revapp fd Decimal.Nil)), out)).
      cbv beta iota. rewrite !append_assoc, lex_run_app.
      replace (lex_run (if neg then "-" else "+")
                 (MExpMark (Decimal.rev (nonnil i)) (Some (Decimal.revapp fd Decimal.Nil)), out))
        with (Some (MExpSign (Decimal.rev (nonnil i))
                             (Some (Decimal.revapp fd Decimal.Nil)) neg, out))
        by (now destruct neg).
      rewrite lex_run_app, lex_exp_start, lex_run_cons, lex_step_exp_end by assumption.
      cbn [rev_opt option_map]. fold (Decimal.rev fd). now rewrite !rev_rev.
    + rewrite lex_run_cons, lex_step_frac_end by assumption.
      fold (Decimal.rev fd). now rewrite !rev_rev.
  - destruct e as [[neg ed]|]; cbn [exp_text append].
    + rewrite lex_run_cons.
      change (lex_step (MInt (Decimal.rev (nonnil i)), out) "e")
        with (Some (MExpMark (Decimal.rev (nonnil i)) None, out)).
      cbv beta iota. rewrite !append_assoc, lex_run_app.
      replace (lex_run (if neg then "-" else "+")
                 (MExpMark (Decimal.rev (nonnil i)) None, out))
        with (Some (MExpSign (Decimal.rev (nonnil i)) None neg, out))
        by (now destruct neg).
      rewrite lex_run_app, lex_exp_start, lex_run_cons, lex_step_exp_end by assumption.
      cbn [rev_opt option_map]. now rewrite !rev_rev.
    + rewrite lex_run_cons, lex_step_int_end by assumption.
      now rewrite !rev_rev.
Qed.

Lemma lexes_nil : lexes EmptyString [].
Proof. intros c rest out _. reflexivity. Qed.

(** Two texts on either side of a delimiter. *)
Lemma lexes_seq p1 ts1 c p2 ts2 :
  lexes p1 ts1 -> delimiter c = true -> lexes p2 ts2 ->
  lexes (p1 ++ String c p2) (ts1 ++ delimiter_tokens c ++ ts2).
Proof.
  intros H1 Hc H2 c' rest out Hc'.
  rewrite append_assoc. cbn [append].
  rewrite (H1 c (p2 ++ String c' rest) out Hc).
  destruct (delimiter_cases c Hc) as (_ & _ & _ & _ & _ & Hs).
  rewrite Hs, (H2 c' rest _ Hc').
  rewrite !rev_app_distr, <- !app_assoc.
  replace (rev (delimiter_tokens c)) with (delimiter_tokens c); [reflexivity|].
  destruct c as [[|] [|] [|] [|] [|] [|] [|] [|]]; reflexivity.
Qed.

Lemma lexes_minus p ts : lexes p ts -> lexes ("-" ++ p) (TMinus :: ts).
Proof.
  intros H c rest out Hc. cbn [append].
  rewrite lex_run_cons.
  change (lex_step (MIdle, out) "-") with (Some (MIdle, TMinus :: out)).
  cbv beta iota. rewrite (H c rest _ Hc).
  cbn [rev]. now rewrite <- app_assoc.
Qed.

Lemma lexes_signed neg p ts :
  lexes p ts -> lexes ((if neg : bool then "-" else EmptyString) ++ p) (sign_tokens neg ++ ts).
Proof.
  intros H. destruct neg; [now apply lexes_minus | exact H].
Qed.

Lemma lex_word_chars w acc out :
  all_chars is_idchar w = true ->
  lex_run w (MWord acc, out) = Some (MWord (rev (list_ascii_of_string w) ++ acc)%list, out).
Proof.
  revert acc. induction w as [|c w IH]; intros acc H; [reflexivity|].
  cbn [all_chars] in H. apply andb_true_iff in H as [Hc Hw].
  rewrite lex_run_cons. unfold lex_step. rewrite Hc, (IH _ Hw).
  cbn [list_ascii_of_string rev]. now rewrite <- app_assoc.
Qed.

Lemma alpha_not_space c : is_alpha c = true -> is_space c = false.
Proof.
  destruct c as [[|] [|] [|] [|] [|] [|] [|] [|]]; vm_compute; intros H;
    first [reflexivity | discriminate H].
Qed.

Lemma lexes_word w : is_word w = true -> lexes w [TWord w].
Proof.
  intros H c rest out Hc. destruct w as [|c0 w]; [discriminate|].
  cbn [is_word] in H. apply andb_true_iff in H as [H0 Hw].
  cbn [append]. rewrite lex_run_cons.
  replace (lex_step (MIdle, out) c0) with (Some (MWord [c0], out))
    by (cbn [lex_step]; unfold start; now rewrite (alpha_not_space c0 H0), H0).
  rewrite lex_run_app, (lex_word_chars w [c0] out Hw), lex_run_cons.
  destruct (delimiter_cases c Hc) as (Hid & _).
  unfold lex_step. rewrite Hid. cbn [flush pending fst snd].
  replace (text_of (rev (list_ascii_of_string w) ++ [c0])) with (String c0 w); [reflexivity|].
  unfold text_of. rewrite rev_app_distr, rev_involutive. cbn [rev List.app string_of_list_ascii].
  now rewrite string_of_list_ascii_of_string.
Qed.

Lemma lexes_uint d : lexes (NilZero.string_of_uint d) [TNum (mkNumeral (nonnil d) None None)].
Proof.
  pose proof (lexes_numeral (mkNumeral d None None)) as H.
  unfold numeral_text, as_read in H. cbn [int_part frac_part exp_part frac_text exp_text] in H.
  now rewrite !append_nil_r in H.
Qed.

Lemma lexes_int z : lexes (int_str z) (int_tokens z).
Proof.
  unfold int_str, int_tokens, NilZero.string_of_int.
  destruct (Z.to_int z) as [d|d].
  - apply lexes_uint.
  - apply (lexes_minus _ _ (lexes_uint d)).
Qed.

Lemma all_chars_app p a b : all_chars p (a ++ b) = all_chars p a && all_chars p b.
Proof.
  induction a as [|c a IH]; cbn [append all_chars]; [reflexivity|].
  now rewrite IH, andb_assoc.
Qed.

Lemma all_chars_impl (p q : ascii -> bool) s :
  (forall c, p c = true -> q c = true) -> all_chars p s = true -> all_chars q s = true.
Proof.
  intros Hpq. induction s as [|c s IH]; cbn [all_chars]; [reflexivity|].
  intros H. apply andb_true_iff in H as [Hc Hs]. now rewrite (Hpq c Hc), IH.
Qed.

Lemma digit_plain c : is_digit c = true -> plain c = true.
Proof.
  destruct c as [[|] [|] [|] [|] [|] [|] [|] [|]]; vm_compute; intros H;
    first [reflexivity | discriminate H].
Qed.

Lemma uint_digits d : all_chars is_digit (NilEmpty.string_of_uint d) = true.
Proof. induction d; cbn [NilEmpty.string_of_uint all_chars]; [reflexivity | exact IHd ..]. Qed.

Lemma uint_digits' d : all_chars is_digit (NilZero.string_of_uint d) = true.
Proof. destruct d; [reflexivity | apply uint_digits ..]. Qed.

Lemma fixed_digits_digits w n : all_chars is_digit (fixed_digits w n) = true.
Proof.
  induction w as [|w IH]; [reflexivity|].
  cbn [fixed_digits all_chars]. rewrite IH, andb_true_r.
  apply is_digit_digit_char, N.mod_lt. discriminate.
Qed.

Lemma zero_padded_plain w n : all_chars plain (zero_padded w n) = true.
Proof.
  apply (all_chars_impl is_digit); [exact digit_plain|].
  unfold zero_padded. destruct (n <? 10 ^ N.of_nat w)%N.
  - apply fixed_digits_digits.
  - apply uint_digits'.
Qed.

Lemma year_text_digits y : all_chars is_digit (year_text y) = true.
Proof. apply uint_digits'. Qed.

Lemma year_text_plain y : all_chars plain (year_text y) = true.
Proof. apply (all_chars_impl is_digit plain _ digit_plain), year_text_digits. Qed.

Lemma date_text_plain d : all_chars plain (strftime_text "%Y-%m-%d" d midnight) = true.
Proof.
  change (strftime_text "%Y-%m-%d" d midnight)
    with (year_text (year d) ++ "-" ++ zero_padded 2 (month d) ++ "-"
          ++ zero_padded 2 (day d) ++ EmptyString).
  rewrite !all_chars_app, !zero_padded_plain, year_text_plain. reflexivity.
Qed.

Lemma datetime_text_plain d t :
  all_chars plain (strftime_text "%Y-%m-%d %H:%M:%S.%f" d t) = true.
Proof.
  change (strftime_text "%Y-%m-%d %H:%M:%S.%f" d t)
    with (year_text (year d) ++ "-" ++ zero_padded 2 (month d) ++ "-"
          ++ zero_padded 2 (day d) ++ " " ++ zero_padded 2 (hour t) ++ ":"
          ++ zero_padded 2 (minute t) ++ ":" ++ zero_padded 2 (second t) ++ "."
          ++ zero_padded 6 (microsecond t) ++ EmptyString).
  rewrite !all_chars_app, !zero_padded_plain, year_text_plain. reflexivity.
Qed.

Lemma plain_unquoted s :
  all_chars plain s = true -> all_chars (fun c => negb (is_quote c)) s = true.
Proof.
  apply all_chars_impl. intros c H. unfold plain in H. now apply andb_true_iff in H as [H _].
Qed.

(** Whatever the value, the text that [sqlize] gives for it is read as
    [value_tokens] of it. *)
Lemma lexes_sqlize v : lexes (sqlize v) (value_tokens v).
Proof.
  destruct v as [|s|z|f|b|d|d t]; cbn [value_tokens].
  - now apply lexes_word.
  - rewrite sqlize_str, replace_quote. apply lexes_text.
  - apply lexes_int.
  - rewrite sqlize_float_eq. destruct f as [|neg|neg n]; cbn [float_repr].
    + now apply lexes_word.
    + destruct neg; [apply (lexes_minus "inf") | ]; now apply lexes_word.
    + apply lexes_signed, lexes_numeral.
  - destruct b; [exact (lexes_int 1) | exact (lexes_int 0)].
  - rewrite sqlize_date_eq. apply lexes_plain_text, plain_unquoted, date_text_plain.
  - rewrite sqlize_datetime_eq. apply lexes_plain_text, plain_unquoted, datetime_text_plain.
Qed.

Lemma lexes_space p ts : lexes p ts -> lexes (String " " p) ts.
Proof.
  intros H. exact (lexes_seq EmptyString [] " "%char p ts lexes_nil eq_refl H).
Qed.

Lemma lexes_row vs : lexes (PyStr.join ", " (map sqlize vs)) (row_tokens vs).
Proof.
  induction vs as [|v vs IH]; [exact lexes_nil|].
  destruct vs as [|v' vs]; [apply lexes_sqlize|].
  change (PyStr.join ", " (map sqlize (v :: v' :: vs)))
    with (sqlize v ++ String "," (String " " (PyStr.join ", " (map sqlize (v' :: vs))))).
  change (row_tokens (v :: v' :: vs))
    with (value_tokens v ++ delimiter_tokens ","%char ++ row_tokens (v' :: vs))%list.
  apply lexes_seq; [apply lexes_sqlize | reflexivity | now apply lexes_space].
Qed.

(** A statement that ends with a closing parenthesis. *)
Lemma tokenize_closed pre out0 p ts :
  lex_run pre (MIdle, []) = Some (MIdle, out0) ->
  lexes p ts ->
  tokenize (pre ++ p ++ ")") = Some (rev out0 ++ ts ++ [TRParen])%list.
Proof.
  intros Hpre Hp. unfold tokenize.
  rewrite lex_run_app, Hpre, (Hp ")"%char EmptyString out0 eq_refl).
  change (start ")" (rev ts ++ out0)%list) with (Some (MIdle, TRParen :: rev ts ++ out0)%list).
  cbn [lex_run flush pending fst snd option_map rev].
  now rewrite !rev_app_distr, rev_involutive, <- app_assoc.
Qed.

Lemma tokenize_insert vs :
  tokenize (insert_sql (map sqlize vs)) = Some (insert_head ++ row_tokens vs ++ [TRParen])%list.
Proof.
  change (insert_sql (map sqlize vs))
    with ("INSERT INTO Observation (Date, Item, Price, Category, State, City) values ("
          ++ PyStr.join ", " (map sqlize vs) ++ ")").
  apply (tokenize_closed _ (rev insert_head)); [reflexivity | apply lexes_row].
Qed.

(** *** The NUL character *)

Lemma has_nul_app a b : has_nul (a ++ b) = has_nul a || has_nul b.
Proof.
  unfold has_nul. induction a as [|c a IH]; cbn [append list_ascii_of_string existsb];
    [reflexivity|].
  now rewrite IH, orb_assoc.
Qed.

Lemma plain_no_nul s : all_chars plain s = true -> has_nul s = false.
Proof.
  unfold has_nul. induction s as [|c s IH]; cbn [all_chars list_ascii_of_string existsb];
    [reflexivity|].
  intros H. apply andb_true_iff in H as [Hc Hs]. rewrite (IH Hs), orb_false_r.
  unfold plain in Hc. apply andb_true_iff in Hc as [_ Hc]. now apply negb_true_iff in Hc.
Qed.

Lemma has_nul_double_quotes s : has_nul (double_quotes s) = has_nul s.
Proof.
  unfold has_nul. induction s as [|c s IH]; [reflexivity|].
  cbn [double_quotes]. destruct (is_quote c) eqn:Hc;
    cbn [list_ascii_of_string existsb]; rewrite IH; [|reflexivity].
  unfold is_quote in Hc. apply Ascii.eqb_eq in Hc. now subst c.
Qed.

Lemma uint_no_nul d : has_nul (NilZero.string_of_uint d) = false.
Proof.
  apply plain_no_nul, (all_chars_impl is_digit); [exact digit_plain | apply uint_digits'].
Qed.

Lemma numeral_no_nul n : has_nul (numeral_text n) = false.
Proof.
  destruct n as [i [f|] [[[|] e]|]]; unfold numeral_text;
    cbn [int_part frac_part exp_part frac_text exp_text];
    rewrite ?has_nul_app, ?uint_no_nul; cbn [orb];
    try reflexivity;
    rewrite ?(plain_no_nul (NilEmpty.string_of_uint f)); try reflexivity;
    apply (all_chars_impl is_digit); auto using digit_plain, uint_digits.
Qed.

Lemma int_str_no_nul z : has_nul (int_str z) = false.
Proof.
  unfold int_str, NilZero.string_of_int. destruct (Z.to_int z) as [d|d].
  - apply uint_no_nul.
  - change (String "-" (NilZero.string_of_uint d)) with ("-" ++ NilZero.string_of_uint d).
    now rewrite has_nul_app, uint_no_nul.
Qed.

Lemma has_nul_sqlize v : has_nul (sqlize v) = value_has_nul v.
Proof.
  destruct v as [|s|z|f|b|d|d t]; cbn [value_has_nul].
  - reflexivity.
  - rewrite sqlize_str, replace_quote, !has_nul_app, has_nul_double_quotes.
    cbn. now rewrite orb_false_r.
  - apply int_str_no_nul.
  - rewrite sqlize_float_eq. destruct f as [|[|]|[|] n]; try reflexivity;
      cbn [float_repr]; rewrite has_nul_app, numeral_no_nul; reflexivity.
  - now destruct b.
  - rewrite sqlize_date_eq, !has_nul_app, (plain_no_nul _ (date_text_plain d)). reflexivity.
  - rewrite sqlize_datetime_eq, !has_nul_app, (plain_no_nul _ (datetime_text_plain d t)).
    reflexivity.
Qed.

Lemma has_nul_join sep vs :
  has_nul sep = false ->
  has_nul (PyStr.join sep vs) = existsb has_nul vs.
Proof.
  intros Hsep. induction vs as [|v vs IH]; [reflexivity|].
  destruct vs as [|v' vs]; [cbn; now rewrite orb_false_r|].
  change (PyStr.join sep (v :: v' :: vs)) with (v ++ sep ++ PyStr.join sep (v' :: vs)).
  rewrite !has_nul_app, Hsep, IH. reflexivity.
Qed.

Lemma has_nul_insert vs :
  has_nul (insert_sql (map sqlize vs)) = existsb value_has_nul vs.
Proof.
  unfold insert_sql. rewrite !has_nul_app, has_nul_join by reflexivity.
  replace (existsb has_nul (map sqlize vs)) with (existsb value_has_nul vs).
  - now destruct (existsb value_has_nul vs).
  - induction vs as [|v vs IH]; [reflexivity|].
    cbn [map existsb]. now rewrite has_nul_sqlize, IH.
Qed.

(** ** The parser *)

Lemma parse_insert_head more :
  parse (insert_head ++ more)%list
  = match parse_values more with
    | Some (vals, []) => Some (Insert "Observation" insert_names vals)
    | _ => None
    end.
Proof.
  lazy -[parse_values].
  destruct (parse_values more) as [[vals [|t ts]]|]; reflexivity.
Qed.

(** The tokens of a value are one token, or a sign and a numeral, or a
    sign and a word. *)
Lemma value_tokens_shape v :
  (exists t, value_tokens v = [t])
  \/ (exists n, value_tokens v = [TMinus; TNum n])
  \/ value_tokens v = [TMinus; TWord "inf"].
Proof.
  assert (Hint : forall z,
    (exists t, int_tokens z = [t]) \/ (exists n, int_tokens z = [TMinus; TNum n])).
  { intros z. unfold int_tokens. destruct (Z.to_int z); eauto. }
  destruct v as [|s|z|f|b|d|d t]; cbn [value_tokens]; eauto.
  - destruct (Hint z) as [H|H]; auto.
  - destruct f as [|[|]|[|] n]; cbn [sign_tokens List.app]; eauto.
  - destruct (Hint (if b then 1 else 0)%Z) as [H|H]; auto.
Qed.

Lemma parse_values_row vs rest :
  vs <> [] ->
  parse_values (row_tokens vs ++ TRParen :: rest)%list
  = match operands_of vs with
    | Some os => Some (os, rest)
    | None => None
    end.
Proof.
  induction vs as [|v vs IH]; [congruence|]. intros _.
  destruct vs as [|v' vs].
  - cbn [row_tokens operands_of]. unfold value_operand.
    destruct (value_tokens_shape v) as [[t E]|[[n E]|E]]; rewrite E; cbn [List.app].
    + cbn [parse_values tokens_operand]. destruct t; destruct (operand1 _); reflexivity.
    + reflexivity.
    + reflexivity.
  - specialize (IH ltac:(discriminate)).
    change (row_tokens (v :: v' :: vs))
      with (value_tokens v ++ TComma :: row_tokens (v' :: vs))%list.
    change (operands_of (v :: v' :: vs))
      with (match value_operand v, operands_of (v' :: vs) with
            | Some o, Some os => Some (o :: os)
            | _, _ => None
            end).
    rewrite <- app_assoc. cbn [List.app].
    unfold value_operand.
    destruct (value_tokens_shape v) as [[t E]|[[n E]|E]]; rewrite E; cbn [List.app].
    + cbn [parse_values tokens_operand]. rewrite IH.
      destruct t; destruct (operand1 _); destruct (operands_of (v' :: vs)); reflexivity.
    + cbn [parse_values tokens_operand]. rewrite IH.
      destruct (signed TMinus n); destruct (operands_of (v' :: vs)); reflexivity.
    + reflexivity.
Qed.

Lemma encoded_row_fields o : encoded_row o = map sqlize (fields o).
Proof. reflexivity. Qed.

Lemma prepare_insert vs :
  vs <> [] ->
  prepare (insert_sql (map sqlize vs))
  = if existsb value_has_nul vs then inl NulCharacter
    else match operands_of vs with
         | Some os => inr (Insert "Observation" insert_names os)
         | None => inl SyntaxError
         end.
Proof.
  intros Hvs. unfold prepare.
  rewrite has_nul_insert, tokenize_insert, parse_insert_head.
  change (row_tokens vs ++ [TRParen])%list with (row_tokens vs ++ TRParen :: [])%list.
  rewrite (parse_values_row vs [] Hvs).
  destruct (existsb value_has_nul vs); [reflexivity|].
  destruct (operands_of vs); reflexivity.
Qed.

Lemma prepare_select :
  prepare "select * from Observation" = inr (SelectAll "Observation").
Proof. reflexivity. Qed.

(** ** Numbers *)

Lemma of_uint_nonnil d : Z.of_uint (nonnil d) = Z.of_uint d.
Proof. now destruct d. Qed.

Lemma numeral_value_as_read n : numeral_value (as_read n) = numeral_value n.
Proof.
  destruct n as [i f [[neg e]|]]; unfold numeral_value, as_read;
    cbn [int_part frac_part exp_part]; now rewrite !of_uint_nonnil.
Qed.

(** ** Reading the table *)

Lemma insert_smallest x m :
  Forall (fun y => (fst x < fst y)%Z) m -> insert_by_label false x m = (m ++ [x])%list.
Proof.
  induction 1 as [|y m Hy _ IH]; [reflexivity|].
  cbn [insert_by_label List.app].
  replace (fst y <=? fst x)%Z with false by (symmetry; apply Z.leb_gt; exact Hy).
  now rewrite IH.
Qed.

Lemma sort_index_descending l :
  StronglySorted (fun a b => (fst a < fst b)%Z) l -> sort_index false l = rev l.
Proof.
  unfold sort_index. induction 1 as [|x l _ IH Hx]; [reflexivity|].
  cbn [fold_right rev]. rewrite IH. apply insert_smallest.
  apply Forall_forall. intros y Hy. apply in_rev in Hy.
  rewrite Forall_forall in Hx. now apply Hx.
Qed.

Lemma labels_increasing {A} (rows : list A) a :
  StronglySorted (fun x y => (fst x < fst y)%Z)
    (combine (map Z.of_nat (seq a (List.length rows))) rows).
Proof.
  revert a. induction rows as [|r rows IH]; intros a; cbn [List.length seq map combine];
    constructor; [apply IH|].
  apply Forall_forall. intros [k y] Hin. cbn [fst].
  apply in_combine_l in Hin. apply in_map_iff in Hin as (j & <- & Hj).
  apply in_seq in Hj. lia.
Qed.

Lemma read_sql_sorted rows : sort_index false (read_sql rows) = rev (read_sql rows).
Proof. apply sort_index_descending, labels_increasing. Qed.

Lemma table_df_eq clock t n :
  table_df clock (mkWorld (Some t) n)
  = (Returned (newest_first t), mkWorld (Some t) (S n)).
Proof.
  unfold table_df, con_execute, execute. rewrite prepare_select.
  cbn [run open_table db statements]. change (is_table_name "Observation") with true.
  cbv beta iota. rewrite read_sql_sorted. unfold newest_first, read_sql.
  now rewrite length_map.
Qed.

(** ** Insert *)

(** A date, a text or a float that can be written as a literal is read
    back as the value it stands for. *)
Lemma field_operand v :
  match v with PInt _ | PBool _ => False | _ => True end ->
  (is_none v || match literal_value v with Some _ => true | None => false end) = true ->
  is_none v = false ->
  value_operand v = Some (OLit (cell_of v))
  /\ value_has_nul v = false /\ is_null (cell_of v) = false.
Proof.
  intros Ht Hw Hn. rewrite Hn in Hw. cbn [orb] in Hw. unfold cell_of.
  destruct v as [|s|z|f|b|d|d t]; try contradiction; try discriminate;
    cbn [literal_value value_has_nul] in *.
  - destruct (has_nul s); [discriminate|]. now repeat split.
  - destruct f as [|neg|[|] n]; try discriminate; cbn [float_value option_map];
      (split; [|now split]); unfold value_operand; cbn; now rewrite numeral_value_as_read.
  - now repeat split.
  - now repeat split.
Qed.

Lemma of_date_typed d : match of_date d with PInt _ | PBool _ => False | _ => True end.
Proof. now destruct d as [[|]|]. Qed.

Lemma of_str_typed s : match of_str s with PInt _ | PBool _ => False | _ => True end.
Proof. now destruct s. Qed.

Lemma of_float_typed f : match of_float f with PInt _ | PBool _ => False | _ => True end.
Proof. now destruct f. Qed.

Lemma run_insert_literals now t x1 x2 x3 x4 x5 x6 :
  is_null x1 = false -> is_null x2 = false -> is_null x3 = false ->
  is_null x4 = false -> is_null x5 = false -> is_null x6 = false ->
  run (Insert "Observation" insert_names [OLit x1; OLit x2; OLit x3; OLit x4; OLit x5; OLit x6])
      now (Some t)
  = inr (Some (t ++ [(next_rowid t, mkCells x1 x2 x3 x4 x5 x6 (Default now))])%list, []).
Proof.
  intros H1 H2 H3 H4 H5 H6.
  unfold run, run_insert. cbn [open_table]. change (is_table_name "Observation") with true.
  cbv beta iota.
  change (insert_columns insert_names)
    with (@inr sql_error _ [ColDate; ColItem; ColPrice; ColCategory; ColState; ColCity]).
  cbn [List.length Nat.eqb negb constants].
  unfold add_row, new_cells, not_null_violation, data_cell.
  cbn [supplied column_eqb cDate cItem cPrice cCategory cState cCity].
  now rewrite H1, H2, H3, H4, H5, H6.
Qed.

(** The statement that [write] sends for a complete, well-formed
    observation adds one row, the one that holds its fields. *)
Lemma execute_insert_complete o now t :
  complete o = true -> well_formed o = true ->
  execute (insert_sql (encoded_row o)) now (Some t)
  = inr (Some (t ++ [(next_rowid t, cells_of o now)])%list, []).
Proof.
  unfold complete, well_formed, fields. cbn [forallb]. rewrite !andb_true_r, !andb_true_iff.
  intros (C1 & C2 & C3 & C4 & C5 & C6) (W1 & W2 & W3 & W4 & W5 & W6).
  apply negb_true_iff in C1, C2, C3, C4, C5, C6.
  destruct (field_operand _ (of_date_typed (Date o)) W1 C1) as (O1 & N1 & L1).
  destruct (field_operand _ (of_str_typed (Item o)) W2 C2) as (O2 & N2 & L2).
  destruct (field_operand _ (of_float_typed (Price o)) W3 C3) as (O3 & N3 & L3).
  destruct (field_operand _ (of_str_typed (Category o)) W4 C4) as (O4 & N4 & L4).
  destruct (field_operand _ (of_str_typed (State o)) W5 C5) as (O5 & N5 & L5).
  destruct (field_operand _ (of_str_typed (City o)) W6 C6) as (O6 & N6 & L6).
  unfold execute. rewrite encoded_row_fields, prepare_insert by discriminate.
  unfold fields. cbn [existsb operands_of].
  rewrite N1, N2, N3, N4, N5, N6, O1, O2, O3, O4, O5, O6. cbn [orb].
  now rewrite run_insert_literals.
Qed.

Lemma write_eq clock o w :
  write clock o w = returns_none (con_execute clock (insert_sql (encoded_row o)) w).
Proof. unfold write. now destruct (none_free (encoded_row o)). Qed.

Lemma write_complete clock o t n :
  complete o = true -> well_formed o = true ->
  write clock o (mkWorld (Some t) n)
  = (Returned tt, mkWorld (Some (t ++ [(next_rowid t, cells_of o (clock n))])%list) (S n)).
Proof.
  intros Hc Hw. rewrite write_eq. unfold con_execute. cbn [db statements].
  now rewrite (execute_insert_complete o _ t Hc Hw).
Qed.

Lemma combine_snoc {A B} (l1 : list A) (l2 : list B) a b :
  List.length l1 = List.length l2 ->
  combine (l1 ++ [a])%list (l2 ++ [b])%list = (combine l1 l2 ++ [(a, b)])%list.
Proof.
  revert l2. induction l1 as [|x l1 IH]; intros [|y l2] H; try discriminate; [reflexivity|].
  cbn [List.app combine]. f_equal. apply IH. now injection H.
Qed.

Lemma newest_first_snoc (t : table) r :
  newest_first (t ++ [r])%list = (Z.of_nat (List.length t), row_cells r) :: newest_first t.
Proof.
  unfold newest_first.
  rewrite length_app, map_app. cbn [List.length map].
  rewrite seq_app, map_app. cbn [seq map Nat.add].
  rewrite combine_snoc by (now rewrite !length_map, length_seq).
  now rewrite rev_app_distr.
Qed.

Lemma complete_fields o :
  complete o = true ->
  exists d i p c s ci,
    Date o = Some d /\ Item o = Some i /\ Price o = Some p
    /\ Category o = Some c /\ State o = Some s /\ City o = Some ci.
Proof.
  unfold complete, fields. cbn [forallb]. rewrite !andb_true_iff.
  destruct (Date o) as [d|], (Item o) as [i|], (Price o) as [p|],
    (Category o) as [c|], (State o) as [s|], (City o) as [ci|];
    cbn; intuition try discriminate.
  now exists d, i, p, c, s, ci.
Qed.

Lemma cells_of_complete o now d i p c s ci :
  well_formed o = true ->
  Date o = Some d -> Item o = Some i -> Price o = Some p ->
  Category o = Some c -> State o = Some s -> City o = Some ci ->
  exists q,
    float_value p = Some q
    /\ cells_of o now
       = mkCells (SText (date_text d)) (SText i) (SNum q) (SText c) (SText s) (SText ci)
                 (Default now).
Proof.
  unfold well_formed, fields, cells_of, cell_of. cbn [forallb].
  intros W Hd Hi Hp Hc Hs Hci. rewrite Hd, Hi, Hp, Hc, Hs, Hci in *.
  cbn [of_str of_float is_none orb literal_value] in W.
  rewrite !andb_true_iff in W. destruct W as (_ & Wi & Wp & Wc & Ws & Wci & _).
  cbn [of_str of_float literal_value].
  destruct (has_nul i); [discriminate|]. destruct (has_nul c); [discriminate|].
  destruct (has_nul s); [discriminate|]. destruct (has_nul ci); [discriminate|].
  destruct (float_value p) as [q|]; [|discriminate].
  exists q. split; [reflexivity|]. now destruct d.
Qed.

(** C3, as amended.  For every observation whose six caller-supplied
    fields are all non-null and can be written as literals (the price a
    finite number, the texts without a NUL character), and every
    database in which the table exists, [write] followed by [table_df]
    gives one row more than [table_df] gave before: the new row comes
    first, the rows that were there follow unchanged, and the new row
    holds the date (as its text), the item, the price (as the number
    that the float stands for), the category, the state and the city
    that were inserted. *)
Theorem write_round_trip clock (o : Observation) (t : table) (n : nat) :
  complete o = true -> well_formed o = true ->
  let w := mkWorld (Some t) n in
  exists before new d i p q c s ci,
    fst (table_df clock w) = Returned before
    /\ fst (write clock o w) = Returned tt
    /\ fst (table_df clock (snd (write clock o w))) = Returned (new :: before)
    /\ List.length (new :: before) = S (List.length before)
    /\ Date o = Some d /\ Item o = Some i /\ Price o = Some p /\ float_value p = Some q
    /\ Category o = Some c /\ State o = Some s /\ City o = Some ci
    /\ snd new = mkCells (SText (date_text d)) (SText i) (SNum q) (SText c) (SText s)
                         (SText ci) (Default (clock n)).
Proof.
  intros Hc Hw w.
  destruct (complete_fields o Hc) as (d & i & p & c & s & ci & Hd & Hi & Hp & Hca & Hs & Hci).
  destruct (cells_of_complete o (clock n) d i p c s ci Hw Hd Hi Hp Hca Hs Hci) as (q & Hq & E).
  exists (newest_first t), (Z.of_nat (List.length t), cells_of o (clock n)), d, i, p, q, c, s, ci.
  subst w. rewrite (write_complete clock o t n Hc Hw). cbn [fst snd].
  rewrite !table_df_eq, newest_first_snoc. cbn [fst snd row_cells].
  repeat split; assumption.
Qed.

Lemma write_round_trip_witness :
  complete dozen_eggs = true /\ well_formed dozen_eggs = true
  /\ exists new before,
       fst (table_df sample_clock (snd (write sample_clock dozen_eggs sample_world)))
       = Returned (new :: before)
       /\ cItem (snd new) = SText "Dozen eggs".
Proof.
  split; [reflexivity|]. split; [reflexivity|].
  destruct (write_round_trip sample_clock dozen_eggs one_row 1 eq_refl eq_refl)
    as (before & new & d & i & p & q & c & s & ci & _ & _ & H & _ & _ & Hi & _ & _ & _ & _ & _ & E).
  exists new, before. split; [exact H|].
  rewrite E. cbn [cItem]. injection Hi as <-. reflexivity.
Defined.

(** The round trip fails for an observation without a null field whose
    price is [nan] (the statement names a column nan), for one whose
    item holds a NUL character (the statement is refused), and, for any
    observation, on a database in which the table does not exist: in
    each case [write] raises and stores no row. *)
Lemma write_round_trip_counterexample :
  (complete dozen_eggs_nan = true
   /\ fst (write sample_clock dozen_eggs_nan sample_world)
      = Raised (OperationalError (NoSuchColumn "nan"))
   /\ ~ round_trip sample_clock dozen_eggs_nan sample_world)
  /\ (complete dozen_eggs_nul = true
      /\ fst (write sample_clock dozen_eggs_nul sample_world)
         = Raised (OperationalError NulCharacter)
      /\ ~ round_trip sample_clock dozen_eggs_nul sample_world)
  /\ (complete dozen_eggs = true
      /\ fst (write sample_clock dozen_eggs fresh)
         = Raised (OperationalError (NoSuchTable "Observation"))
      /\ ~ round_trip sample_clock dozen_eggs fresh).
Proof.
  repeat split; try (vm_compute; reflexivity);
    intros (before & after & _ & H & _); vm_compute in H; discriminate H.
Qed.

(** ** The guard of [write] *)

Lemma sqlize_none v : String.eqb "None" (sqlize v) = is_none v.
Proof.
  destruct v as [|s|z|f|b|d|d t]; cbn [is_none]; try reflexivity.
  - rewrite sqlize_int_eq. unfold int_str, NilZero.string_of_int.
    destruct (Z.to_int z) as [[]|[]]; reflexivity.
  - rewrite sqlize_float_eq. destruct f as [|[|]|[|] [[] fr e]]; reflexivity.
  - now destruct b.
Qed.

Lemma none_free_fields o : none_free (encoded_row o) = negb (has_null o).
Proof.
  unfold none_free, has_null. rewrite encoded_row_fields. f_equal.
  induction (fields o) as [|v vs IH]; [reflexivity|].
  cbn [map existsb]. now rewrite sqlize_none, IH.
Qed.

Lemma operands_of_length vs os : operands_of vs = Some os -> List.length os = List.length vs.
Proof.
  revert os. induction vs as [|v vs IH]; intros os; cbn [operands_of].
  - now intros [= <-].
  - destruct (value_operand v); [|discriminate].
    destruct (operands_of vs) as [os'|]; [|discriminate].
    intros [= <-]. cbn [List.length]. now rewrite (IH os').
Qed.

(** The operands of a row in which a field is null are not all
    constants. *)
Lemma constants_null vs os :
  operands_of vs = Some os -> existsb is_none vs = true -> exists e, constants os = inl e.
Proof.
  revert os. induction vs as [|v vs IH]; intros os; cbn [operands_of existsb]; [discriminate|].
  destruct (value_operand v) as [o|] eqn:Ho; [|discriminate].
  destruct (operands_of vs) as [os'|]; [|discriminate].
  intros [= <-] H. cbn [constants]. destruct o as [x|w]; [|eauto].
  destruct v; try discriminate Ho; cbn [is_none orb] in H;
    destruct (IH os' eq_refl H) as [e E]; rewrite E; eauto.
Qed.

Lemma run_insert_null now d vs os :
  operands_of vs = Some os -> existsb is_none vs = true -> List.length vs = 6 ->
  exists e, run (Insert "Observation" insert_names os) now d = inl e.
Proof.
  intros Ho Hn Hl. pose proof (operands_of_length vs os Ho) as Hlen.
  destruct (constants_null vs os Ho Hn) as [e E].
  unfold run, run_insert. destruct (open_table "Observation" d) as [e'|t]; [eauto|].
  change (insert_columns insert_names)
    with (@inr sql_error _ [ColDate; ColItem; ColPrice; ColCategory; ColState; ColCity]).
  cbv beta iota. rewrite Hlen, Hl. cbn [List.length Nat.eqb negb]. rewrite E. eauto.
Qed.

(** [write] raises whenever a field is null, and leaves the table as it
    was. *)
Lemma execute_insert_null o now d :
  has_null o = true -> exists e, execute (insert_sql (encoded_row o)) now d = inl e.
Proof.
  intros Hn. unfold execute. rewrite encoded_row_fields, prepare_insert by discriminate.
  destruct (existsb value_has_nul (fields o)); [eauto|].
  destruct (operands_of (fields o)) as [os|] eqn:Ho; [|eauto].
  destruct (run_insert_null now d (fields o) os Ho Hn eq_refl) as [e E].
  rewrite E. eauto.
Qed.

(** C1.  Where the specification asks for a silent no-op, [write] raises:
    for every observation in which at least one of the six fields is
    null, the insert statement is still sent, the backend refuses it, an
    error is raised and the table is left as it was, while the insert of
    the specification returns without a word and without a change. *)
Theorem write_null_raises clock (o : Observation) (w : world) :
  has_null o = true ->
  (exists e, fst (write clock o w) = Raised (OperationalError e))
  /\ db (snd (write clock o w)) = db w
  /\ insert_spec clock o w = (Returned tt, w).
Proof.
  intros Hn. rewrite write_eq. unfold con_execute, insert_spec.
  rewrite none_free_fields, Hn. cbn [negb].
  destruct (execute_insert_null o (clock (statements w)) (db w) Hn) as [e E].
  rewrite E. cbn. eauto.
Qed.

Lemma write_null_raises_witness :
  has_null dozen_eggs_no_city = true
  /\ fst (write sample_clock dozen_eggs_no_city sample_world)
     = Raised (OperationalError (NoSuchColumn "None"))
  /\ db (snd (write sample_clock dozen_eggs_no_city sample_world)) = db sample_world.
Proof.
  split; [reflexivity|]. split; [reflexivity|].
  exact (proj1 (proj2 (write_null_raises sample_clock dozen_eggs_no_city sample_world eq_refl))).
Defined.

(** ** Fetch *)

Lemma map_snd_combine {A B} (l1 : list A) (l2 : list B) :
  List.length l1 = List.length l2 -> map snd (combine l1 l2) = l2.
Proof.
  revert l2. induction l1 as [|x l1 IH]; intros [|y l2] H; try discriminate; [reflexivity|].
  cbn [combine map snd]. f_equal. apply IH. now injection H.
Qed.

Lemma newest_first_cells t : map snd (newest_first t) = rev (map row_cells t).
Proof.
  unfold newest_first. rewrite map_rev, map_snd_combine; [reflexivity|].
  now rewrite !length_map, length_seq.
Qed.

Lemma write_all_complete clock os t n :
  Forall (fun o => complete o = true /\ well_formed o = true) os ->
  exists rows,
    write_all clock os (mkWorld (Some t) n)
    = mkWorld (Some (t ++ rows)%list) (List.length os + n)
    /\ map row_cells rows = stamped clock os n.
Proof.
  intros H. revert t n. induction H as [|o os [Hc Hw] _ IH]; intros t n.
  - exists []. now rewrite List.app_nil_r.
  - cbn [write_all]. rewrite (write_complete clock o t n Hc Hw). cbn [snd].
    destruct (IH (t ++ [(next_rowid t, cells_of o (clock n))])%list (S n)) as (rows & E & Hr).
    exists ((next_rowid t, cells_of o (clock n)) :: rows). split.
    + refine (eq_trans E _). rewrite <- app_assoc. cbn [List.app List.length].
      f_equal. lia.
    + cbn [map stamped row_cells snd]. now rewrite Hr.
Qed.

(** C9, as amended.  In every state of the store in which the table
    exists, [table_df] returns every stored row, none omitted and none
    twice, the newest first: whatever the table held, and whatever
    complete, well-formed observations were then written to it one after
    the other, the frame lists the rows of these observations in the
    reverse of the order of their insertion, and after them the rows that
    the table held, in the reverse of their stored order. *)
Theorem table_df_newest_first clock (os : list Observation) (t : table) (n : nat) :
  Forall (fun o => complete o = true /\ well_formed o = true) os ->
  let w := write_all clock os (mkWorld (Some t) n) in
  exists df rows,
    db w = Some (t ++ rows)%list
    /\ map row_cells rows = stamped clock os n
    /\ fst (table_df clock w) = Returned df
    /\ map snd df = (rev (stamped clock os n) ++ rev (map row_cells t))%list
    /\ Permutation (map snd df) (map row_cells (t ++ rows)%list)
    /\ db (snd (table_df clock w)) = db w.
Proof.
  intros H w. destruct (write_all_complete clock os t n H) as (rows & E & Hr).
  exists (newest_first (t ++ rows)%list), rows. subst w. rewrite E, table_df_eq.
  cbn [db fst snd]. rewrite newest_first_cells, map_app, rev_app_distr, Hr.
  repeat split. symmetry. rewrite <- rev_app_distr, <- Hr, <- map_app.
  apply Permutation_rev.
Qed.

Lemma table_df_newest_first_witness :
  Forall (fun o => complete o = true /\ well_formed o = true) [dozen_eggs; dozen_eggs]
  /\ exists df,
       fst (table_df sample_clock
              (write_all sample_clock [dozen_eggs; dozen_eggs] sample_world))
       = Returned df
       /\ map snd df
          = [cells_of dozen_eggs (sample_clock 2); cells_of dozen_eggs (sample_clock 1);
             snd (hd (0%Z, cells_of dozen_eggs 0%Z) one_row)].
Proof.
  assert (H : Forall (fun o => complete o = true /\ well_formed o = true)
                     [dozen_eggs; dozen_eggs]) by (repeat constructor).
  split; [exact H|].
  destruct (table_df_newest_first sample_clock [dozen_eggs; dozen_eggs] one_row 1 H)
    as (df & rows & _ & _ & Hdf & Hcells & _).
  exists df. split; [exact Hdf | exact Hcells].
Defined.

(** The state of a database on which nothing was run is a state of the
    store, and in it [table_df] does not return: there is no table to
    select from. *)
Lemma table_df_newest_first_counterexample :
  stored fresh = []
  /\ fst (table_df sample_clock fresh)
     = Raised (OperationalError (NoSuchTable "Observation"))
  /\ ~ fetches_all sample_clock fresh.
Proof.
  split; [reflexivity|]. split; [reflexivity|].
  intros (df & H & _). vm_compute in H. discriminate H.
Qed.

(** ** Delete *)

Lemma lexes_condition kv :
  is_word (PyStr.capitalize (fst kv)) = true ->
  lexes (condition_text kv) (condition_tokens kv).
Proof.
  intros Hk. unfold condition_text, condition_tokens.
  change (PyStr.capitalize (fst kv) ++ "=" ++ sqlize (snd kv))
    with (PyStr.capitalize (fst kv) ++ String "=" (sqlize (snd kv))).
  change (TWord (PyStr.capitalize (fst kv)) :: TEq :: value_tokens (snd kv))
    with ([TWord (PyStr.capitalize (fst kv))] ++ delimiter_tokens "="%char
          ++ value_tokens (snd kv))%list.
  apply lexes_seq; [now apply lexes_word | reflexivity | apply lexes_sqlize].
Qed.

Lemma lexes_conditions kwargs :
  Forall (fun kv => is_word (PyStr.capitalize (fst kv)) = true) kwargs ->
  lexes (PyStr.join " AND " (map condition_text kwargs)) (conditions_tokens kwargs).
Proof.
  induction 1 as [|kv kwargs Hk H IH]; [exact lexes_nil|].
  destruct kwargs as [|kv' kwargs]; [now apply lexes_condition|].
  change (PyStr.join " AND " (map condition_text (kv :: kv' :: kwargs)))
    with (condition_text kv
          ++ String " " ("AND" ++ String " "
                           (PyStr.join " AND " (map condition_text (kv' :: kwargs))))).
  change (conditions_tokens (kv :: kv' :: kwargs))
    with (condition_tokens kv ++ delimiter_tokens " "%char
          ++ ([TWord "AND"] ++ delimiter_tokens " "%char
              ++ conditions_tokens (kv' :: kwargs)))%list.
  apply lexes_seq; [now apply lexes_condition | reflexivity|].
  apply lexes_seq; [now apply lexes_word | reflexivity | exact IH].
Qed.

Lemma tokenize_delete n kwargs :
  Forall (fun kv => is_word (PyStr.capitalize (fst kv)) = true) kwargs ->
  tokenize (delete_sql n kwargs)
  = Some (delete_head ++ (conditions_tokens kwargs ++ TWord "LIMIT" :: int_tokens n)
          ++ [TRParen])%list.
Proof.
  intros Hk. unfold delete_sql.
  set (conditions := PyStr.join " AND " (map condition_text kwargs)).
  replace (conditions ++ " LIMIT " ++ int_str n ++ ")")
    with ((conditions ++ String " " ("LIMIT" ++ String " " (int_str n))) ++ ")")
    by (rewrite !append_assoc; reflexivity).
  apply (tokenize_closed _ (rev delete_head)); [reflexivity|].
  change (conditions_tokens kwargs ++ TWord "LIMIT" :: int_tokens n)%list
    with (conditions_tokens kwargs ++ delimiter_tokens " "%char
          ++ ([TWord "LIMIT"] ++ delimiter_tokens " "%char ++ int_tokens n))%list.
  apply lexes_seq; [now apply lexes_conditions | reflexivity|].
  apply lexes_seq; [now apply lexes_word | reflexivity | apply lexes_int].
Qed.

Lemma parse_delete_head more :
  parse (delete_head ++ more)%list
  = match parse_conds more with
    | Some (conds, ts) =>
        match parse_limit ts with
        | Some n => Some (DeleteIn "Observation" "rowid" "rowid" "Observation" conds n)
        | None => None
        end
    | None => None
    end.
Proof.
  lazy -[parse_conds parse_limit].
  destruct (parse_conds more) as [[conds ts]|]; [|reflexivity].
  destruct (parse_limit ts); reflexivity.
Qed.

Lemma parse_conds_limit_first n :
  parse_conds (TWord "LIMIT" :: int_tokens n ++ [TRParen])%list = None.
Proof. unfold int_tokens. destruct (Z.to_int n); reflexivity. Qed.

Lemma has_nul_delete_empty n : has_nul (delete_sql n []) = false.
Proof.
  unfold delete_sql. rewrite !has_nul_app, int_str_no_nul. reflexivity.
Qed.

Lemma prepare_delete_empty n : prepare (delete_sql n []) = inl SyntaxError.
Proof.
  unfold prepare. rewrite has_nul_delete_empty, (tokenize_delete n [] (Forall_nil _)).
  cbn [conditions_tokens List.app]. change (TWord "LIMIT" :: int_tokens n ++ [TRParen])%list
    with ((TWord "LIMIT" :: int_tokens n) ++ [TRParen])%list.
  rewrite parse_delete_head.
  change ((TWord "LIMIT" :: int_tokens n) ++ [TRParen])%list
    with (TWord "LIMIT" :: int_tokens n ++ [TRParen])%list.
  now rewrite parse_conds_limit_first.
Qed.

(** C10.  With no filter at all the statement that [delete_matching]
    sends has nothing between WHERE and LIMIT: the backend refuses it as
    a syntax error, whatever the bound and whatever the table, the error
    is raised and no row is deleted. *)
Theorem delete_matching_no_filter clock (self : Observation) (n : Z)
        (order : option (list (string * pyval))) (w : world) :
  delete_matching clock self n order [] w
  = (Raised (OperationalError SyntaxError), mkWorld (db w) (S (statements w))).
Proof.
  unfold delete_matching, con_execute, execute.
  now rewrite prepare_delete_empty.
Qed.

Lemma lower_upper c : PyStr.lower (PyStr.upper c) = PyStr.lower c.
Proof. destruct c as [[|] [|] [|] [|] [|] [|] [|] [|]]; reflexivity. Qed.

Lemma lower_lower c : PyStr.lower (PyStr.lower c) = PyStr.lower c.
Proof. destruct c as [[|] [|] [|] [|] [|] [|] [|] [|]]; reflexivity. Qed.

Lemma alpha_lower_upper c : is_alpha (PyStr.lower c) = true -> is_alpha (PyStr.upper c) = true.
Proof.
  destruct c as [[|] [|] [|] [|] [|] [|] [|] [|]]; vm_compute; intros H;
    first [reflexivity | discriminate H].
Qed.

Lemma lower_str_idem s : PyStr.lower_str (PyStr.lower_str s) = PyStr.lower_str s.
Proof.
  induction s as [|c s IH]; [reflexivity|].
  cbn [PyStr.lower_str PyStr.map_chars]. fold PyStr.lower_str. now rewrite lower_lower, IH.
Qed.

Lemma lower_capitalize k : PyStr.lower_str (PyStr.capitalize k) = PyStr.lower_str k.
Proof.
  destruct k as [|c k]; [reflexivity|].
  cbn [PyStr.capitalize PyStr.lower_str PyStr.map_chars]. fold PyStr.lower_str.
  now rewrite lower_upper, lower_str_idem.
Qed.

Lemma is_word_capitalize k :
  is_word (PyStr.lower_str k) = true -> is_word (PyStr.capitalize k) = true.
Proof.
  destruct k as [|c k]; [discriminate|].
  cbn [PyStr.capitalize PyStr.lower_str PyStr.map_chars is_word]. fold PyStr.lower_str.
  intros H. apply andb_true_iff in H as [Hc Hk]. now rewrite (alpha_lower_upper c Hc), Hk.
Qed.

Lemma assoc_in {A} k (l : list (string * A)) a : assoc k l = Some a -> In k (map fst l).
Proof.
  induction l as [|[k' a'] l IH]; cbn [assoc map fst]; [discriminate|].
  destruct (String.eqb_spec k k') as [->|_]; [now left | right; now apply IH].
Qed.

Lemma column_of_name_in k c : column_of_name k = Some c -> In (PyStr.lower_str k) column_names.
Proof. intros H. exact (assoc_in _ _ _ H). Qed.

(** The key of a filter entry that names a column is read as a word,
    which names the same column. *)
Lemma column_key k c :
  column_of_name k = Some c ->
  is_word (PyStr.capitalize k) = true
  /\ column_of_name (PyStr.capitalize k) = Some c
  /\ operand1 (TWord (PyStr.capitalize k)) = Some (OName (PyStr.capitalize k)).
Proof.
  intros H. pose proof (column_of_name_in k c H) as Hin.
  assert (Hw : is_word (PyStr.lower_str k) = true
               /\ String.eqb (PyStr.lower_str k) "null" = false
               /\ existsb (String.eqb (PyStr.lower_str k)) reserved_words = false).
  { cbn [column_names In] in Hin.
    repeat (destruct Hin as [<-|Hin]; [now vm_compute|]). contradiction. }
  destruct Hw as (Hw & Hnull & Hres).
  split; [now apply is_word_capitalize|]. split.
  - unfold column_of_name in *. now rewrite lower_capitalize.
  - unfold operand1, keyword, is_reserved. now rewrite lower_capitalize, Hnull, Hres.
Qed.

Lemma Qeq_bool_right y a b : (a == b)%Q -> Qeq_bool y a = Qeq_bool y b.
Proof.
  intros E. destruct (Qeq_bool y a) eqn:Ha, (Qeq_bool y b) eqn:Hb; try reflexivity.
  - apply Qeq_bool_iff in Ha. rewrite E in Ha. apply Qeq_bool_iff in Ha. congruence.
  - apply Qeq_bool_iff in Hb. rewrite <- E in Hb. apply Qeq_bool_iff in Hb. congruence.
Qed.

Lemma sql_eq_num y a b : (a == b)%Q -> sql_eq y (SNum a) = sql_eq y (SNum b).
Proof. intros E. destruct y; try reflexivity. cbn [sql_eq]. now apply Qeq_bool_right. Qed.

Lemma uint_value d :
  (numeral_value (mkNumeral (nonnil d) None None) == inject_Z (Z.of_uint d))%Q.
Proof.
  unfold numeral_value. cbn [int_part frac_part exp_part]. rewrite of_uint_nonnil. ring.
Qed.

Lemma int_operand z :
  exists x, tokens_operand (int_tokens z) = Some (OLit (SNum x)) /\ (x == inject_Z z)%Q.
Proof.
  unfold int_tokens.
  replace (inject_Z z) with (inject_Z (Z.of_int (Z.to_int z))) by (now rewrite DecimalZ.of_to).
  destruct (Z.to_int z) as [d|d]; cbn [tokens_operand operand1 signed Z.of_int].
  - eexists. split; [reflexivity | apply uint_value].
  - eexists. split; [reflexivity|]. rewrite uint_value, inject_Z_opp. reflexivity.
Qed.

(** A value that can be written as a literal is read back as a constant
    that compares like the value. *)
Lemma literal_operand v x :
  literal_value v = Some x ->
  exists x', value_operand v = Some (OLit x')
             /\ (forall y, sql_eq y x' = sql_eq y x)
             /\ value_has_nul v = false.
Proof.
  destruct v as [|s|z|f|b|d|d t]; cbn [literal_value value_has_nul]; try discriminate.
  - destruct (has_nul s); [discriminate|]. intros [= <-]. now exists (SText s).
  - intros [= <-]. unfold value_operand. cbn [value_tokens].
    destruct (int_operand z) as (q & E & Hq). exists (SNum q). rewrite E.
    repeat split. intros y. now apply sql_eq_num.
  - destruct f as [|neg|[|] n]; try discriminate; cbn [float_value option_map];
      intros [= <-]; eexists; (split; [|now split]); unfold value_operand; cbn;
      now rewrite numeral_value_as_read.
  - intros [= <-]. unfold value_operand. cbn [value_tokens].
    destruct (int_operand (if b then 1 else 0)%Z) as (q & E & Hq). exists (SNum q). rewrite E.
    repeat split. intros y. now apply sql_eq_num.
  - intros [= <-]. eexists. now repeat split.
  - intros [= <-]. eexists. now repeat split.
Qed.

Lemma parse_conds_conditions kwargs rest :
  kwargs <> [] ->
  parse_conds (conditions_tokens kwargs ++ TWord "LIMIT" :: rest)%list
  = match read_conditions kwargs with
    | Some cs => Some (cs, rest)
    | None => None
    end.
Proof.
  induction kwargs as [|kv kwargs IH]; [congruence|]. intros _.
  destruct kwargs as [|kv' kwargs].
  - cbn [conditions_tokens read_conditions]. unfold read_condition, condition_tokens, value_operand.
    destruct (value_tokens_shape (snd kv)) as [[t E]|[[n E]|E]]; rewrite E; cbn [List.app].
    + cbn [parse_conds tokens_operand].
      change (keyword "and" "LIMIT") with false. change (keyword "limit" "LIMIT") with true.
      cbv iota. destruct (pair_up _ _); reflexivity.
    + cbn [parse_conds tokens_operand].
      change (keyword "and" "LIMIT") with false. change (keyword "limit" "LIMIT") with true.
      cbv iota. destruct (pair_up _ _); reflexivity.
    + cbn [tokens_operand pair_up].
      destruct (operand1 (TWord (PyStr.capitalize (fst kv)))); reflexivity.
  - specialize (IH ltac:(discriminate)).
    change (conditions_tokens (kv :: kv' :: kwargs))
      with (condition_tokens kv ++ TWord "AND" :: conditions_tokens (kv' :: kwargs))%list.
    change (read_conditions (kv :: kv' :: kwargs))
      with (match read_condition kv, read_conditions (kv' :: kwargs) with
            | Some c, Some cs => Some (c :: cs)
            | _, _ => None
            end).
    rewrite <- app_assoc. cbn [List.app].
    unfold read_condition, condition_tokens, value_operand.
    destruct (value_tokens_shape (snd kv)) as [[t E]|[[n E]|E]]; rewrite E; cbn [List.app].
    + cbn [parse_conds tokens_operand]. change (keyword "and" "AND") with true. cbv iota.
      rewrite IH. destruct (pair_up _ _); destruct (read_conditions (kv' :: kwargs)); reflexivity.
    + cbn [parse_conds tokens_operand]. change (keyword "and" "AND") with true. cbv iota.
      rewrite IH. destruct (pair_up _ _); destruct (read_conditions (kv' :: kwargs)); reflexivity.
    + cbn [tokens_operand pair_up].
      destruct (operand1 (TWord (PyStr.capitalize (fst kv)))); reflexivity.
Qed.

Lemma Qred_integer z : Qred (z # 1)%Q = (z # 1)%Q.
Proof.
  unfold Qred.
  pose proof (Z.ggcd_gcd z 1) as Hg. pose proof (Z.ggcd_correct_divisors z 1) as Hd.
  destruct (Z.ggcd z 1) as [g [aa bb]]. cbn [fst snd] in *.
  rewrite Z.gcd_1_r in Hg. subst g. destruct Hd as [Ha Hb].
  rewrite Z.mul_1_l in Ha, Hb. now subst aa bb.
Qed.

Lemma limit_int n :
  exists o, parse_limit (int_tokens n ++ [TRParen])%list = Some o
            /\ limit_value o = if int64 n then inr n else inl DatatypeMismatch.
Proof.
  unfold int_tokens. pose proof (DecimalZ.of_to n) as E.
  destruct (Z.to_int n) as [d|d]; cbn [Z.of_int] in E; cbn [List.app parse_limit operand1 signed];
    eexists; (split; [reflexivity|]); unfold limit_value, numeral_value;
    cbn [int_part frac_part exp_part]; rewrite of_uint_nonnil.
  - change ((inject_Z (Z.of_uint d) + 0) * 1)%Q with ((Z.of_uint d * 1 + 0 * 1) * 1 # 1)%Q.
    rewrite Qred_integer. cbn [Qden Qnum Z.eqb Pos.eqb andb].
    replace ((Z.of_uint d * 1 + 0 * 1) * 1)%Z with n by lia. reflexivity.
  - change (- ((inject_Z (Z.of_uint d) + 0) * 1))%Q with (- ((Z.of_uint d * 1 + 0 * 1) * 1) # 1)%Q.
    rewrite Qred_integer. cbn [Qden Qnum Z.eqb Pos.eqb andb].
    replace (- ((Z.of_uint d * 1 + 0 * 1) * 1))%Z with n by lia. reflexivity.
Qed.

Lemma idchar_plain c : is_idchar c = true -> plain c = true.
Proof.
  destruct c as [[|] [|] [|] [|] [|] [|] [|] [|]]; vm_compute; intros H;
    first [reflexivity | discriminate H].
Qed.

Lemma alpha_idchar c : is_alpha c = true -> is_idchar c = true.
Proof. intros H. unfold is_idchar. now rewrite H. Qed.

Lemma word_no_nul w : is_word w = true -> has_nul w = false.
Proof.
  destruct w as [|c w]; [discriminate|]. cbn [is_word]. intros H.
  apply andb_true_iff in H as [Hc Hw]. apply plain_no_nul. cbn [all_chars].
  rewrite (idchar_plain c (alpha_idchar c Hc)).
  exact (all_chars_impl _ _ _ idchar_plain Hw).
Qed.

Lemma matches_filter_ok kwargs r : matches kwargs r = true -> filter_ok kwargs = true.
Proof.
  unfold matches, filter_ok. induction kwargs as [|kv kwargs IH]; [reflexivity|].
  cbn [forallb]. rewrite !andb_true_iff. intros [H1 H2]. split; [|now apply IH].
  unfold field_matches in H1.
  destruct (column_of_name (fst kv)); [|discriminate].
  now destruct (literal_value (snd kv)).
Qed.

(** The conditions read from a filter whose entries name columns and
    give literals hold of exactly the rows that match the filter. *)
Lemma read_conditions_ok kwargs :
  filter_ok kwargs = true ->
  exists conds rconds,
    read_conditions kwargs = Some conds
    /\ resolve_conds conds = inr rconds
    /\ (forall r, holds rconds r = matches kwargs r)
    /\ Forall (fun kv => is_word (PyStr.capitalize (fst kv)) = true) kwargs
    /\ existsb (fun kv => has_nul (condition_text kv)) kwargs = false.
Proof.
  unfold filter_ok. induction kwargs as [|[k v] kwargs IH]; cbn [forallb fst snd].
  - intros _. exists [], []. repeat split. constructor.
  - rewrite andb_true_iff. intros [Hkv Hrest].
    destruct (IH Hrest) as (conds & rconds & Hread & Hres & Hholds & Hwords & Hnul).
    destruct (column_of_name k) as [c|] eqn:Hc; [|discriminate].
    destruct (literal_value v) as [x|] eqn:Hx; [|discriminate].
    destruct (column_key k c Hc) as (Hword & Hcol & Hop).
    destruct (literal_operand v x Hx) as (x' & Hv & Heq & Hvn).
    exists ((OName (PyStr.capitalize k), OLit x') :: conds), ((Col c, Const x') :: rconds).
    split; [|split; [|split; [|split]]].
    + cbn [read_conditions]. unfold read_condition. cbn [fst snd].
      now rewrite Hop, Hv, Hread.
    + cbn [resolve_conds resolve]. now rewrite Hcol, Hres.
    + intros r. unfold holds, matches in *. cbn [forallb fst snd term_value].
      rewrite Hholds. f_equal. unfold field_matches. cbn [fst snd]. now rewrite Hc, Hx, Heq.
    + now constructor.
    + cbn [existsb]. rewrite Hnul, orb_false_r. unfold condition_text. cbn [fst snd].
      now rewrite !has_nul_app, (word_no_nul _ Hword), has_nul_sqlize, Hvn.
Qed.

Lemma has_nul_map_join sep (l : list string) :
  has_nul sep = false -> has_nul (PyStr.join sep l) = existsb has_nul l.
Proof. apply has_nul_join. Qed.

Lemma has_nul_delete n kwargs :
  existsb (fun kv => has_nul (condition_text kv)) kwargs = false ->
  has_nul (delete_sql n kwargs) = false.
Proof.
  intros H. unfold delete_sql.
  rewrite !has_nul_app, has_nul_join, int_str_no_nul by reflexivity.
  replace (existsb has_nul (map condition_text kwargs)) with false; [reflexivity|].
  rewrite <- H. clear H. induction kwargs as [|kv kwargs IH]; [reflexivity|].
  cbn [map existsb]. now rewrite IH.
Qed.

Lemma prepare_delete n kwargs :
  kwargs <> [] -> filter_ok kwargs = true ->
  exists conds rconds o,
    prepare (delete_sql n kwargs)
    = inr (DeleteIn "Observation" "rowid" "rowid" "Observation" conds o)
    /\ resolve_conds conds = inr rconds
    /\ (forall r, holds rconds r = matches kwargs r)
    /\ limit_value o = if int64 n then inr n else inl DatatypeMismatch.
Proof.
  intros Hne Hok.
  destruct (read_conditions_ok kwargs Hok) as (conds & rconds & Hread & Hres & Hholds & Hw & Hn).
  destruct (limit_int n) as (o & Ho & Hl).
  exists conds, rconds, o. split; [|now repeat split].
  unfold prepare. rewrite (has_nul_delete n kwargs Hn), (tokenize_delete n kwargs Hw).
  rewrite <- !app_assoc. rewrite parse_delete_head.
  cbn [List.app]. rewrite (parse_conds_conditions kwargs _ Hne), Hread, Ho. reflexivity.
Qed.

Lemma existsb_map' {A B} (f : B -> bool) (g : A -> B) l :
  existsb f (map g l) = existsb (fun x => f (g x)) l.
Proof. induction l as [|x l IH]; [reflexivity|]. cbn [map existsb]. now rewrite IH. Qed.

Lemma rowid_eq a b : Qeq_bool (inject_Z a) (inject_Z b) = (a =? b)%Z.
Proof. unfold Qeq_bool, inject_Z. cbn [Qnum Qden]. now rewrite !Z.mul_1_r. Qed.

(** What the delete statement does to a table, for a filter whose
    entries name columns and give literals: the first [m] rows that
    match go. *)
Lemma execute_delete m kwargs now t :
  kwargs <> [] -> filter_ok kwargs = true -> int64 m = true ->
  execute (delete_sql m kwargs) now (Some t)
  = inr (Some (without (limited m (filter (matches kwargs) t)) t), []).
Proof.
  intros Hne Hok H64.
  destruct (prepare_delete m kwargs Hne Hok) as (conds & rconds & o & Hp & Hres & Hholds & Hl).
  unfold execute. rewrite Hp. unfold run, run_delete.
  cbn [open_table]. change (is_table_name "Observation") with true. cbv beta iota.
  change (resolve (OName "rowid")) with (@inr sql_error _ (Col ColRowid)).
  rewrite Hres, Hl, H64. do 3 f_equal.
  rewrite (filter_ext _ _ Hholds). unfold without.
  apply filter_ext. intros r. f_equal. unfold member.
  rewrite existsb_map'. cbn [term_value column_value sql_eq].
  induction (limited m (filter (matches kwargs) t)) as [|r' l IH]; [reflexivity|].
  cbn [existsb]. now rewrite rowid_eq, IH.
Qed.

(** *** Removing the first rows that match *)

Lemma without_nil t : without [] t = t.
Proof.
  unfold without. induction t as [|r t IH]; cbn [filter existsb negb] in *;
    [reflexivity | now rewrite IH].
Qed.



Lemma in_firstn {A} (x : A) j l : In x (firstn j l) -> In x l.
Proof.
  revert l. induction j as [|j IH]; intros [|y l]; cbn [firstn In]; try contradiction.
  intros [E|H]; [now left | right; now apply IH].
Qed.



Lemma limited_firstn m (l : list row) : (0 <= m)%Z -> limited m l = firstn (Z.to_nat m) l.
Proof.
  intros H. unfold limited. now replace (m <? 0)%Z with false by (symmetry; apply Z.ltb_ge; lia).
Qed.

Lemma delete_matching_eq clock self m order kwargs t n :
  kwargs <> [] -> filter_ok kwargs = true -> (0 <= m <= 9223372036854775807)%Z ->
  delete_matching clock self m order kwargs (mkWorld (Some t) n)
  = (Returned tt,
     mkWorld (Some (without (firstn (Z.to_nat m) (filter (matches kwargs) t)) t)) (S n)).
Proof.
  intros Hne Hok Hm. unfold delete_matching, con_execute. cbn [db statements].
  assert (H64 : int64 m = true).
  { unfold int64. apply andb_true_iff. split; apply Z.leb_le; lia. }
  rewrite (execute_delete m kwargs _ t Hne Hok H64), (limited_firstn m _ (proj1 Hm)).
  reflexivity.
Qed.




(** ** What a statement of the program can be *)

Lemma start_grows c out l :
  start c out = Some l -> exists new, snd l = (new ++ out)%list.
Proof.
  unfold start.
  destruct (is_space c); [intros [= <-]; now exists []|].
  destruct (is_alpha c); [intros [= <-]; now exists []|].
  destruct (is_digit c); [intros [= <-]; now exists []|].
  destruct (is_quote c); [intros [= <-]; now exists []|].
  destruct c as [[|] [|] [|] [|] [|] [|] [|] [|]]; try discriminate;
    intros [= <-]; now eexists [_].
Qed.

Lemma flush_grows l out' : flush l = Some out' -> exists new, out' = (new ++ snd l)%list.
Proof.
  unfold flush. destruct (pending (fst l)) as [[t|]|]; intros [= <-];
    [now exists [t] | now exists []].
Qed.

Lemma lex_step_grows l c l' :
  lex_step l c = Some l' -> exists new, snd l' = (new ++ snd l)%list.
Proof.
  assert (Hfin : forall l0,
            match flush l with Some out' => start c out' | None => None end = Some l0 ->
            exists new, snd l0 = (new ++ snd l)%list).
  { intros l0. destruct (flush l) as [out'|] eqn:Hf; [|discriminate].
    intros Hs. destruct (flush_grows l out' Hf) as [n1 E1].
    destruct (start_grows c out' l0 Hs) as [n2 E2].
    exists (n2 ++ n1)%list. now rewrite E2, E1, app_assoc. }
  destruct l as [m out]. unfold lex_step. fold (flush (m, out)).
  destruct m;
    repeat match goal with
           | |- (if ?b then _ else _) = _ -> _ => destruct b
           end;
    try discriminate;
    try (intros [= <-]; now exists []);
    apply Hfin.
Qed.

Lemma lex_run_grows s l l' :
  lex_run s l = Some l' -> exists new, snd l' = (new ++ snd l)%list.
Proof.
  revert l. induction s as [|c s IH]; intros l; cbn [lex_run].
  - intros [= <-]. now exists [].
  - destruct (lex_step l c) as [l1|] eqn:E; [|discriminate]. intros H.
    destruct (lex_step_grows l c l1 E) as [n1 E1]. destruct (IH l1 H) as [n2 E2].
    exists (n2 ++ n1)%list. now rewrite E2, E1, app_assoc.
Qed.

(** The tokens of a text start with the tokens of its head. *)
Lemma tokenize_head pre s out0 ts :
  lex_run pre (MIdle, []) = Some (MIdle, out0) ->
  tokenize (pre ++ s) = Some ts -> exists more, ts = (rev out0 ++ more)%list.
Proof.
  intros Hpre. unfold tokenize. rewrite lex_run_app, Hpre.
  destruct (lex_run s (MIdle, out0)) as [l|] eqn:E; [|discriminate].
  destruct (flush l) as [out'|] eqn:F; [|discriminate]. intros [= <-].
  destruct (lex_run_grows s _ l E) as [n1 E1]. destruct (flush_grows l out' F) as [n2 E2].
  exists (rev (n2 ++ n1)). rewrite E2, E1. cbn [snd].
  now rewrite app_assoc, rev_app_distr.
Qed.

(** Whatever the filter, a statement that [delete_matching] sends and
    that the backend accepts is a delete statement. *)
Lemma prepare_delete_form n kwargs st :
  prepare (delete_sql n kwargs) = inr st ->
  exists conds o, st = DeleteIn "Observation" "rowid" "rowid" "Observation" conds o.
Proof.
  unfold prepare. destruct (has_nul _); [discriminate|].
  destruct (tokenize (delete_sql n kwargs)) as [ts|] eqn:E; [|discriminate].
  apply (tokenize_head _ _ (rev delete_head)) in E as [more ->]; [|reflexivity].
  rewrite rev_involutive, parse_delete_head.
  destruct (parse_conds more) as [[conds ts]|]; [|discriminate].
  destruct (parse_limit ts) as [o|]; [|discriminate].
  intros [= <-]. eauto.
Qed.

(** ** The invariant of the table *)

Lemma StronglySorted_snoc {A} (R : A -> A -> Prop) l a :
  StronglySorted R l -> Forall (fun x => R x a) l -> StronglySorted R (l ++ [a])%list.
Proof.
  induction 1 as [|x l Hl IH Hx]; intros Ha; cbn [List.app].
  - repeat constructor.
  - apply Forall_cons_iff in Ha as [Hxa Ha]. constructor; [now apply IH|].
    apply Forall_app. split; [exact Hx | now constructor].
Qed.

Lemma StronglySorted_filter {A} (R : A -> A -> Prop) f l :
  StronglySorted R l -> StronglySorted R (filter f l).
Proof.
  induction 1 as [|x l Hl IH Hx]; cbn [filter]; [constructor|].
  destruct (f x); [|exact IH]. constructor; [exact IH|].
  apply Forall_forall. intros y Hy. apply filter_In in Hy as [Hy _].
  rewrite Forall_forall in Hx. now apply Hx.
Qed.

Lemma Forall_filter {A} (P : A -> Prop) f l : Forall P l -> Forall P (filter f l).
Proof.
  intros H. apply Forall_forall. intros y Hy. apply filter_In in Hy as [Hy _].
  rewrite Forall_forall in H. now apply H.
Qed.

Lemma next_rowid_above (t : table) : Forall (fun r => (rowid r < next_rowid t)%Z) t.
Proof.
  unfold next_rowid. induction t as [|r t IH]; [constructor|].
  cbn [map fold_right]. constructor; [lia|].
  eapply Forall_impl; [|exact IH]. cbn beta. intros x Hx. lia.
Qed.

Lemma table_ok_nil clock bound : table_ok clock bound [].
Proof. repeat split; constructor. Qed.

Lemma table_ok_mono clock bound bound' t :
  bound <= bound' -> table_ok clock bound t -> table_ok clock bound' t.
Proof.
  intros Hb (H1 & H2 & H3). repeat split; try assumption.
  eapply Forall_impl; [|exact H2]. intros r (k & Hk & E). exists k. split; [lia | exact E].
Qed.

Lemma table_ok_snoc clock bound t c :
  table_ok clock bound t -> cAddedOn c = Default (clock bound) ->
  table_ok clock (S bound) (t ++ [(next_rowid t, c)])%list.
Proof.
  intros (H1 & H2 & H3) Hc. repeat split.
  - apply StronglySorted_snoc; [exact H1 | apply next_rowid_above].
  - apply Forall_app. split.
    + eapply Forall_impl; [|exact H2]. intros r (k & Hk & E). exists k. split; [lia | exact E].
    + constructor; [|constructor]. exists bound. split; [lia | exact Hc].
  - apply StronglySorted_snoc; [exact H3|].
    eapply Forall_impl; [|exact H2]. intros r (k & Hk & E). now exists k, bound.
Qed.

Lemma table_ok_filter clock bound f t :
  table_ok clock bound t -> table_ok clock bound (filter f t).
Proof.
  intros (H1 & H2 & H3). repeat split;
    [now apply StronglySorted_filter | now apply Forall_filter | now apply StronglySorted_filter].
Qed.

(** *** What each call does to the table *)

Lemma new_cells_stamp now vs :
  cAddedOn (new_cells now [ColDate; ColItem; ColPrice; ColCategory; ColState; ColCity] vs)
  = Default now.
Proof. destruct vs as [|v1 [|v2 [|v3 [|v4 [|v5 [|v6 vs]]]]]]; reflexivity. Qed.

Lemma run_insert_effect os now d t' :
  run_insert "Observation" insert_names os now d = inr t' ->
  exists t c, d = Some t /\ t' = (t ++ [(next_rowid t, c)])%list /\ cAddedOn c = Default now.
Proof.
  unfold run_insert. destruct d as [t|]; [|discriminate]. cbn [open_table].
  change (is_table_name "Observation") with true. cbv beta iota.
  change (insert_columns insert_names)
    with (@inr sql_error _ [ColDate; ColItem; ColPrice; ColCategory; ColState; ColCity]).
  cbv beta iota. destruct (negb _); [discriminate|].
  destruct (constants os) as [e|vs]; [discriminate|].
  unfold add_row. destruct (not_null_violation _); [discriminate|].
  intros [= <-]. eexists t, _. repeat split. apply new_cells_stamp.
Qed.

Lemma write_effect clock o w :
  statements (snd (write clock o w)) = S (statements w)
  /\ (db (snd (write clock o w)) = db w
      \/ exists t c,
           db w = Some t
           /\ db (snd (write clock o w)) = Some (t ++ [(next_rowid t, c)])%list
           /\ cAddedOn c = Default (clock (statements w))).
Proof.
  rewrite write_eq. unfold con_execute, execute.
  rewrite encoded_row_fields, prepare_insert by discriminate.
  destruct (existsb value_has_nul (fields o)); [now split; [|left]|].
  destruct (operands_of (fields o)) as [os|]; [|now split; [|left]].
  cbn [run]. destruct (run_insert _ _ os _ (db w)) as [e|t'] eqn:E; [now split; [|left]|].
  cbn. split; [reflexivity|]. right.
  destruct (run_insert_effect os _ (db w) t' E) as (t & c & Hd & -> & Hc). now exists t, c.
Qed.

Lemma run_delete_effect conds o d t' :
  run_delete "Observation" "rowid" "rowid" "Observation" conds o d = inr t' ->
  exists t f, d = Some t /\ t' = filter f t.
Proof.
  unfold run_delete. destruct d as [t|]; [|discriminate]. cbn [open_table].
  change (is_table_name "Observation") with true. cbv beta iota.
  change (resolve (OName "rowid")) with (@inr sql_error _ (Col ColRowid)). cbv beta iota.
  destruct (resolve_conds conds); [discriminate|].
  destruct (limit_value o); [discriminate|].
  intros [= <-]. eauto.
Qed.

Lemma delete_effect clock self n order kwargs w :
  statements (snd (delete_matching clock self n order kwargs w)) = S (statements w)
  /\ (db (snd (delete_matching clock self n order kwargs w)) = db w
      \/ exists t f,
           db w = Some t
           /\ db (snd (delete_matching clock self n order kwargs w)) = Some (filter f t)).
Proof.
  unfold delete_matching, con_execute, execute.
  destruct (prepare (delete_sql n kwargs)) as [e|st] eqn:E; [now split; [|left]|].
  destruct (prepare_delete_form n kwargs st E) as (conds & o & ->).
  cbn [run]. destruct (run_delete _ _ _ _ conds o (db w)) as [e|t'] eqn:R;
    [now split; [|left]|].
  cbn. split; [reflexivity|]. right.
  destruct (run_delete_effect conds o (db w) t' R) as (t & f & Hd & ->). now exists t, f.
Qed.

Lemma table_df_effect clock w :
  statements (snd (table_df clock w)) = S (statements w)
  /\ db (snd (table_df clock w)) = db w.
Proof.
  unfold table_df, con_execute, execute. rewrite prepare_select. cbn [run].
  destruct (open_table "Observation" (db w)); now split.
Qed.

Lemma to_sql_ok clock df w : world_ok clock w -> world_ok clock (snd (to_sql clock df w)).
Proof.
  revert w. induction df as [|r df IH]; intros w Hw; cbn [to_sql]; [exact Hw|].
  destruct (db w) as [t|] eqn:Hd; cbn [open_table]; [|exact Hw].
  change (is_table_name "Observation") with true. cbv beta iota.
  unfold add_row. destruct (not_null_violation _); [exact Hw|].
  apply IH. intros t' [= <-]. cbn [statements].
  apply table_ok_snoc; [now apply Hw | reflexivity].
Qed.

Lemma create_table_ok clock cls today z w :
  world_ok clock (snd (create_table clock cls today z w)).
Proof.
  unfold create_table, drop_table_if_exists, create_table_statement. cbn [db statements].
  destruct (get_test_data cls today z) as [df|e].
  - apply to_sql_ok. intros t [= <-]. apply table_ok_nil.
  - intros t [= <-]. apply table_ok_nil.
Qed.

Lemma perform_ok clock c w : world_ok clock w -> world_ok clock (perform clock c w).
Proof.
  intros Hw. destruct c as [o|o n order kwargs| |cls today z]; cbn [perform].
  - destruct (write_effect clock o w) as (Hs & [Hd|(t & c & Hd & Hd' & Hc)]);
      intros t' Ht'; rewrite Hs.
    + rewrite Hd in Ht'. apply (table_ok_mono clock (statements w)); [lia | now apply Hw].
    + rewrite Hd' in Ht'. injection Ht' as <-. apply table_ok_snoc; [now apply Hw | exact Hc].
  - destruct (delete_effect clock o n order kwargs w) as (Hs & [Hd|(t & f & Hd & Hd')]);
      intros t' Ht'; rewrite Hs.
    + rewrite Hd in Ht'. apply (table_ok_mono clock (statements w)); [lia | now apply Hw].
    + rewrite Hd' in Ht'. injection Ht' as <-.
      apply (table_ok_mono clock (statements w)); [lia|]. apply table_ok_filter. now apply Hw.
  - destruct (table_df_effect clock w) as (Hs & Hd). intros t' Ht'. rewrite Hs.
    rewrite Hd in Ht'. apply (table_ok_mono clock (statements w)); [lia | now apply Hw].
  - apply create_table_ok.
Qed.

Lemma run_calls_ok clock cs w : world_ok clock w -> world_ok clock (run_calls clock cs w).
Proof.
  revert w. induction cs as [|c cs IH]; intros w Hw; [exact Hw|].
  cbn [run_calls fold_left]. apply IH. now apply perform_ok.
Qed.

Lemma fresh_ok clock : world_ok clock fresh.
Proof. intros t H. discriminate H. Qed.

Lemma prepare_write_form o st :
  prepare (insert_sql (encoded_row o)) = inr st ->
  exists os, st = Insert "Observation" insert_names os.
Proof.
  rewrite encoded_row_fields, prepare_insert by discriminate.
  destruct (existsb value_has_nul (fields o)); [discriminate|].
  destruct (operands_of (fields o)) as [os|]; [|discriminate].
  intros [= <-]. eauto.
Qed.

(** ** Synthetic data *)

Lemma list_sum_map_mul {A} (f : A -> nat) c l :
  list_sum (map (fun x => f x * c) l) = list_sum (map f l) * c.
Proof.
  unfold list_sum. induction l as [|x l IH]; cbn [map fold_right]; [reflexivity | rewrite IH; lia].
Qed.

Lemma length_combos cls today : List.length (combos cls today) = seed_count cls.
Proof.
  unfold combos, seed_count, item_count, city_count.
  set (cities := list_sum (map (fun sc => List.length (snd sc)) (state_city_map cls))).
  rewrite length_flat_map.
  rewrite (map_ext _ (fun ci => List.length (snd ci) * (cities * 50))).
  - rewrite list_sum_map_mul. lia.
  - intros ci. apply flat_map_constant_length. intros item _.
    rewrite length_flat_map. unfold cities. rewrite <- list_sum_map_mul.
    f_equal. apply map_ext. intros sc.
    apply flat_map_constant_length. intros city _.
    rewrite (flat_map_constant_length (c := 5)).
    + unfold date_range. now rewrite length_map, length_seq.
    + intros dt _. now rewrite length_map, length_seq.
Qed.

Lemma in_combos cls today s :
  In s (combos cls today) ->
  In (rItem s) (available_items cls) /\ In (rState s) (available_states cls).
Proof.
  unfold combos, available_items, available_states.
  intros H. apply in_flat_map in H as (ci & Hci & H).
  apply in_flat_map in H as (item & Hitem & H).
  apply in_flat_map in H as (sc & Hsc & H).
  apply in_flat_map in H as (city & Hcity & H).
  apply in_flat_map in H as (dt & Hdt & H).
  apply in_map_iff in H as (i & <- & _). cbn [rItem rState]. split.
  - apply in_concat. exists (snd ci). split; [now apply in_map | exact Hitem].
  - now apply in_map.
Qed.

Lemma apply_price_ok f g i df :
  (forall j s, nth_error df j = Some s -> f (i + j) s = Returned (g (i + j) s)) ->
  apply_price f i df = Returned (reprice g i df).
Proof.
  revert i. induction df as [|s df IH]; intros i H; [reflexivity|].
  cbn [apply_price reprice].
  pose proof (H 0 s eq_refl) as H0. rewrite Nat.add_0_r in H0. rewrite H0, IH; [reflexivity|].
  intros j s' Hj. replace (S i + j) with (i + S j) by lia. now apply (H (S j)).
Qed.

Lemma nth_error_reprice g i df j :
  nth_error (reprice g i df) j
  = option_map (fun s => set_price s (g (i + j) s)) (nth_error df j).
Proof.
  revert i j. induction df as [|s df IH]; intros i [|j]; try reflexivity.
  - cbn [reprice nth_error option_map]. now rewrite Nat.add_0_r.
  - cbn [reprice nth_error]. rewrite IH. now replace (S i + j) with (i + S j) by lia.
Qed.

Lemma length_reprice g i df : List.length (reprice g i df) = List.length df.
Proof. revert i. induction df as [|s df IH]; intros i; cbn; [reflexivity | now rewrite IH]. Qed.

Lemma reprice_reprice g h i df :
  reprice h i (reprice g i df) = reprice (fun j s => h j (set_price s (g j s))) i df.
Proof.
  revert i. induction df as [|s df IH]; intros i; [reflexivity|].
  cbn [reprice]. now rewrite IH.
Qed.

Lemma map_key_reprice g i df : map key (reprice g i df) = map key df.
Proof. revert i. induction df as [|s df IH]; intros i; cbn; [reflexivity | now rewrite IH]. Qed.

Lemma has_key_getitem {A} (d : list (string * A)) k :
  has_key d k = true -> exists a, assoc k d = Some a /\ getitem d k = Returned a.
Proof.
  unfold has_key, getitem. destruct (assoc k d) as [a|]; [|discriminate]. now exists a.
Qed.

(** With a base price for every item and a scale for every state,
    [get_test_data] returns the combinations, each with the price of the
    model. *)
Lemma get_test_data_eq cls today z :
  vocabulary_ok cls = true ->
  get_test_data cls today z = Returned (reprice (model_price cls z) 0 (combos cls today)).
Proof.
  unfold vocabulary_ok. rewrite andb_true_iff, !forallb_forall. intros [Hitems Hstates].
  unfold get_test_data.
  rewrite (apply_price_ok _ (fun _ s => base_price cls s)).
  2:{ intros j s Hs. apply nth_error_In, in_combos in Hs as [Hs _].
      destruct (has_key_getitem _ _ (Hitems _ Hs)) as (b & Hb & E).
      unfold base_price. now rewrite E, Hb. }
  cbn [bind].
  rewrite (apply_price_ok _ (fun _ s => (rPrice s * fst (scale cls s))%Q)).
  2:{ intros j s Hs. rewrite nth_error_reprice in Hs.
      destruct (nth_error (combos cls today) j) as [s0|] eqn:E0; [|discriminate].
      injection Hs as <-. apply nth_error_In, in_combos in E0 as [_ Hs0].
      destruct (has_key_getitem _ _ (Hstates _ Hs0)) as (ms & Hms & E).
      unfold scale. cbn [set_price rState rPrice].
      now rewrite E, Hms. }
  cbn [bind].
  rewrite (apply_price_ok _ (fun i s => gauss (z i) (rPrice s) (rPrice s * snd (scale cls s))%Q)).
  2:{ intros j s Hs. rewrite reprice_reprice, nth_error_reprice in Hs.
      destruct (nth_error (combos cls today) j) as [s0|] eqn:E0; [|discriminate].
      injection Hs as <-. apply nth_error_In, in_combos in E0 as [_ Hs0].
      destruct (has_key_getitem _ _ (Hstates _ Hs0)) as (ms & Hms & E).
      unfold scale. cbn [set_price rState rPrice].
      now rewrite E, Hms. }
  f_equal. rewrite !reprice_reprice.
  generalize 0 at 1 2. induction (combos cls today) as [|s l IH]; intros i; [reflexivity|].
  cbn [reprice]. now rewrite IH.
Qed.

Lemma in_reprice g i df r :
  In r (reprice g i df) -> exists j s, In s df /\ r = set_price s (g j s).
Proof.
  revert i. induction df as [|s df IH]; intros i; cbn [reprice In]; [contradiction|].
  intros [<-|H]; [exists i, s; now split; [left|]|].
  destruct (IH _ H) as (j & s' & Hs' & E). exists j, s'. split; [now right | exact E].
Qed.

(** C5.  With the fixture vocabulary -- category map {"Food": ["Eggs"]},
    state map {"Texas": ["Dallas"]}, base price Eggs = 3.00, scale
    (1.0, 0.0) -- [get_test_data] returns 1 x 1 x 10 x 5 = 50 records,
    and the price of every record is 3.00: the draw with a standard
    deviation of zero gives its mean, the base price times the mean of
    the state, whatever the deviate. *)
Theorem fixture_prices (today : Z) (z : nat -> Q) :
  exists df,
    get_test_data fixture today z = Returned df
    /\ List.length df = 1 * 1 * 10 * 5
    /\ List.length df = 50
    /\ Forall (fun r => (rPrice r == 3.00)%Q) df.
Proof.
  exists (reprice (model_price fixture z) 0 (combos fixture today)).
  split; [now apply get_test_data_eq|].
  rewrite length_reprice, length_combos. split; [reflexivity|]. split; [reflexivity|].
  apply Forall_forall. intros r Hr.
  apply in_reprice in Hr as (j & s & Hs & ->).
  apply in_combos in Hs as [Hitem Hstate].
  cbn in Hitem, Hstate. destruct Hitem as [Hitem|[]]. destruct Hstate as [Hstate|[]].
  unfold model_price, base_price, scale, gauss. cbn [set_price rPrice].
  rewrite <- Hitem, <- Hstate. cbn [fixture item_base_price state_price_mu_std assoc].
  cbn [String.eqb Ascii.eqb Bool.eqb fst snd]. lra.
Qed.

(** *** One record per combination *)

Lemma map_list_prod {A B C} (f : A * B -> C) (l : list A) (l' : list B) :
  map f (list_prod l l') = flat_map (fun a => map (fun b => f (a, b)) l') l.
Proof.
  induction l as [|a l IH]; [reflexivity|].
  cbn [list_prod flat_map]. now rewrite map_app, map_map, IH.
Qed.

Lemma flat_map_list_prod {A B C} (g : A * B -> list C) (l : list A) (l' : list B) :
  flat_map g (list_prod l l') = flat_map (fun a => flat_map (fun b => g (a, b)) l') l.
Proof.
  induction l as [|a l IH]; [reflexivity|].
  cbn [list_prod flat_map]. now rewrite flat_map_app, flat_map_concat_map, map_map,
    <- flat_map_concat_map, IH.
Qed.

Lemma flat_map_flat_map {A B C} (g : B -> list C) (h : A -> list B) (l : list A) :
  flat_map g (flat_map h l) = flat_map (fun x => flat_map g (h x)) l.
Proof.
  induction l as [|a l IH]; [reflexivity|].
  cbn [flat_map]. now rewrite flat_map_app, IH.
Qed.

Lemma flat_map_map' {A B C} (g : B -> list C) (h : A -> B) (l : list A) :
  flat_map g (map h l) = flat_map (fun x => g (h x)) l.
Proof. induction l as [|a l IH]; [reflexivity|]. cbn [map flat_map]. now rewrite IH. Qed.

Lemma map_flat_map {A B C} (f : B -> C) (h : A -> list B) (l : list A) :
  map f (flat_map h l) = flat_map (fun x => map f (h x)) l.
Proof.
  induction l as [|a l IH]; [reflexivity|].
  cbn [flat_map]. now rewrite map_app, IH.
Qed.

(** The rows of the comprehension are the combinations of the
    vocabulary, in order. *)
Lemma combos_combinations cls today :
  map key (combos cls today) = map combination_key (combinations cls today).
Proof.
  unfold combos, combinations.
  rewrite map_list_prod, !flat_map_list_prod, flat_map_flat_map, map_flat_map.
  apply flat_map_ext. intros ci.
  rewrite flat_map_map', map_flat_map. apply flat_map_ext. intros item.
  rewrite flat_map_flat_map, map_flat_map. apply flat_map_ext. intros sc.
  rewrite flat_map_map', map_flat_map. apply flat_map_ext. intros city.
  rewrite map_flat_map. apply flat_map_ext. intros dt.
  rewrite map_map. reflexivity.
Qed.

Lemma class_record_cases today s :
  In s (combos Observation_class today) ->
  (rItem s = "USDA Grade-A eggs, Dozen" \/ rItem s = "Regular Gasoline, Gallon"
   \/ rItem s = "Wool Socks, Pair")
  /\ (rState s = "California" \/ rState s = "New York" \/ rState s = "Texas").
Proof.
  intros H. apply in_combos in H as [Hi Hs]. cbn in Hi, Hs. intuition auto.
Qed.

(** C4, as amended.  Every call of [get_test_data] returns exactly
    (sum of the item counts) x (sum of the city counts) x 10 days x 5
    replicas records, 3 x 5 x 10 x 5 for the vocabulary of the class, one
    record per combination of a category, an item of it, a state, a city
    of it, a day of the trailing window of 10 days and a replica.  The
    price of the j-th record is the draw [gauss] of the source for the
    j-th deviate, around mu = base x mean with the standard deviation
    mu x std, where base is the base price of the item of the record and
    (mean, std) the scale of its state: the products are taken in the
    order of the source, and nothing bounds the draw from below. *)
Theorem synthetic_cardinality (today : Z) (z : nat -> Q) :
  exists df,
    get_test_data Observation_class today z = Returned df
    /\ List.length df = seed_count Observation_class
    /\ seed_count Observation_class = (1 + 1 + 1) * (2 + 1 + 2) * 10 * 5
    /\ map key df = map combination_key (combinations Observation_class today)
    /\ forall j r,
         nth_error df j = Some r ->
         exists base mean std,
           getitem (item_base_price Observation_class) (rItem r) = Returned base
           /\ getitem (state_price_mu_std Observation_class) (rState r)
              = Returned (mean, std)
           /\ rPrice r = gauss (z j) (base * mean)%Q (base * mean * std)%Q.
Proof.
  exists (reprice (model_price Observation_class z) 0 (combos Observation_class today)).
  split; [now apply get_test_data_eq|].
  rewrite length_reprice, length_combos, map_key_reprice, combos_combinations.
  split; [reflexivity|]. split; [reflexivity|]. split; [reflexivity|].
  intros j r Hr. rewrite nth_error_reprice in Hr.
  destruct (nth_error (combos Observation_class today) j) as [s|] eqn:Hs; [|discriminate].
  injection Hr as <-. apply nth_error_In in Hs.
  destruct (class_record_cases today s Hs) as [Hi Hst].
  unfold model_price, base_price, scale.
  cbn [set_price rPrice rItem rState Nat.add].
  destruct Hi as [Hi|[Hi|Hi]], Hst as [Hst|[Hst|Hst]]; rewrite Hi, Hst;
    do 3 eexists; (split; [reflexivity | split; reflexivity]).
Qed.

(** With the deviate 0 for every draw: 750 records, and the record at
    position 100, one of New York, has the price drawn around
    2.99 x 1.75. *)
Lemma synthetic_cardinality_witness :
  exists df r,
    get_test_data Observation_class sample_today (fun _ => 0%Q) = Returned df
    /\ List.length df = 750
    /\ nth_error df 100 = Some r
    /\ rState r = "New York"
    /\ rPrice r = gauss 0 (2.99 * 1.75)%Q (2.99 * 1.75 * 0.25)%Q.
Proof.
  destruct (synthetic_cardinality sample_today (fun _ => 0%Q)) as (df & E & Hl & Hc & _ & Hp).
  assert (E' : get_test_data Observation_class sample_today (fun _ => 0%Q)
               = Returned (reprice (model_price Observation_class (fun _ => 0%Q)) 0
                                   (combos Observation_class sample_today)))
    by (now apply get_test_data_eq).
  rewrite E' in E. injection E as <-.
  eexists. eexists. split; [exact E'|]. split; [exact (eq_trans Hl Hc)|].
  split; [vm_compute; reflexivity|]. split; [reflexivity|].
  destruct (Hp 100 _ eq_refl) as (base & mean & std & Hb & Hm & Hprice).
  vm_compute in Hb. vm_compute in Hm. injection Hb as <-. injection Hm as <- <-.
  exact Hprice.
Defined.

(** With the deviate -5 for every draw the records of New York have a
    price below zero. *)
Lemma synthetic_cardinality_counterexample :
  ~ synthetic_claim Observation_class sample_today (fun _ => (-5)%Q).
Proof.
  intros (df & E & _ & H).
  rewrite get_test_data_eq in E by reflexivity. injection E as <-.
  rewrite Forall_forall in H.
  assert (Hin : exists r,
            nth_error (reprice (model_price Observation_class (fun _ => (-5)%Q)) 0
                               (combos Observation_class sample_today)) 100 = Some r
            /\ (rPrice r < 0)%Q).
  { eexists. split; [vm_compute; reflexivity | reflexivity]. }
  destruct Hin as (r & Hr & Hneg). apply nth_error_In in Hr. specialize (H r Hr). lra.
Qed.

(** ** Schema reset *)

Lemma to_sql_seeded clock df t s :
  to_sql clock df (mkWorld (Some t) s)
  = (Returned tt, mkWorld (Some (seeded clock df s t)) (List.length df + s)).
Proof.
  revert t s. induction df as [|r df IH]; intros t s; [reflexivity|].
  cbn [to_sql seeded db statements open_table].
  change (is_table_name "Observation") with true. cbv beta iota.
  change (add_row (bound_cells (clock s) r) t)
    with (@inr sql_error _ (t ++ [(next_rowid t, bound_cells (clock s) r)])%list).
  cbv beta iota. rewrite IH. cbn [List.length]. do 2 f_equal. lia.
Qed.

Lemma length_seeded clock df s t :
  List.length (seeded clock df s t) = List.length t + List.length df.
Proof.
  revert s t. induction df as [|r df IH]; intros s t; cbn [seeded List.length]; [lia|].
  rewrite IH, length_app. cbn [List.length]. lia.
Qed.

Lemma columns_seeded clock df s t :
  map data_columns (seeded clock df s t) = (map data_columns t ++ map record_columns df)%list.
Proof.
  revert s t. induction df as [|r df IH]; intros s t; cbn [seeded map].
  - now rewrite List.app_nil_r.
  - rewrite IH, map_app, <- app_assoc. reflexivity.
Qed.

Lemma record_columns_reprice g i df :
  map record_columns (reprice g i df) = map record_columns df.
Proof. revert i. induction df as [|s df IH]; intros i; cbn; [reflexivity | now rewrite IH]. Qed.

(** With a base price for every item and a scale for every state,
    [create_table] leaves, whatever was there, a table of the rows of
    the synthetic frame. *)
Lemma create_table_eq clock cls today z w :
  vocabulary_ok cls = true ->
  create_table clock cls today z w
  = (Returned tt,
     mkWorld (Some (seeded clock (reprice (model_price cls z) 0 (combos cls today))
                           (S (S (statements w))) []))
             (seed_count cls + S (S (statements w)))).
Proof.
  intros Hok. unfold create_table, drop_table_if_exists, create_table_statement.
  cbn [db statements]. rewrite (get_test_data_eq cls today z Hok), to_sql_seeded.
  now rewrite length_reprice, length_combos.
Qed.

(** *** The statement of each stamp *)

Lemma filter_all {A} (l : list A) : filter (fun _ => true) l = l.
Proof. induction l as [|a l IH]; cbn [filter]; [reflexivity | now rewrite IH]. Qed.

Lemma filter_nothing {A} (l : list A) : filter (fun _ => false) l = [].
Proof. induction l as [|a l IH]; cbn [filter]; [reflexivity | exact IH]. Qed.

Lemma StronglySorted_app {A} (R : A -> A -> Prop) l1 l2 :
  StronglySorted R l1 -> StronglySorted R l2 ->
  (forall x y, In x l1 -> In y l2 -> R x y) ->
  StronglySorted R (l1 ++ l2)%list.
Proof.
  induction 1 as [|x l1 Hl IH Hx]; intros H2 H; cbn [List.app]; [exact H2|].
  constructor.
  - apply IH; [exact H2|]. intros a b Ha Hb. apply H; [now right | exact Hb].
  - apply Forall_app. split; [exact Hx|].
    apply Forall_forall. intros y Hy. apply H; [now left | exact Hy].
Qed.

Lemma StronglySorted_seq s n : StronglySorted lt (seq s n).
Proof.
  revert s. induction n as [|n IH]; intros s; cbn [seq]; constructor; [apply IH|].
  apply Forall_forall. intros y Hy. apply in_seq in Hy. lia.
Qed.

Lemma stamps_seeded clock df s t :
  map stamp_of (seeded clock df s t)
  = (map stamp_of t ++ at_statements clock (seq s (List.length df)))%list.
Proof.
  revert s t. induction df as [|r df IH]; intros s t; cbn [seeded List.length seq].
  - unfold at_statements. cbn [map]. now rewrite List.app_nil_r.
  - rewrite IH, map_app, <- app_assoc. reflexivity.
Qed.

(** The rows that a filter keeps have the stamps of some of the
    statements, in the same order. *)
Lemma stamps_filter clock f (t : table) ks :
  map stamp_of t = at_statements clock ks ->
  exists ks',
    map stamp_of (filter f t) = at_statements clock ks'
    /\ incl ks' ks
    /\ (StronglySorted lt ks -> StronglySorted lt ks').
Proof.
  revert ks. induction t as [|r t IH]; intros ks E.
  - exists []. repeat split; [intros k [] | constructor].
  - destruct ks as [|k ks]; [discriminate|]. unfold at_statements in E. cbn [map] in E.
    injection E as Er Et. destruct (IH ks Et) as (ks' & E' & Hi & Hs).
    cbn [filter]. destruct (f r).
    + exists (k :: ks'). split; [|split].
      * unfold at_statements. cbn [map]. now rewrite Er, E'.
      * intros x [<-|Hx]; [now left | right; now apply Hi].
      * intros H. inversion H as [|? ? Hks Hk]; subst. constructor; [now apply Hs|].
        apply Forall_forall. intros y Hy. rewrite Forall_forall in Hk. now apply Hk, Hi.
    + exists ks'. split; [exact E'|]. split; [now apply incl_tl|].
      intros H. inversion H; subst. now apply Hs.
Qed.

(** A call that returns after [write] has inserted the row. *)
Lemma write_returned clock o w t :
  db w = Some t -> fst (write clock o w) = Returned tt ->
  exists c,
    snd (write clock o w) = mkWorld (Some (t ++ [(next_rowid t, c)])%list) (S (statements w))
    /\ cAddedOn c = Default (clock (statements w)).
Proof.
  intros Hd. rewrite write_eq. unfold con_execute, execute.
  rewrite encoded_row_fields, prepare_insert by discriminate.
  destruct (existsb value_has_nul (fields o)); [discriminate|].
  destruct (operands_of (fields o)) as [os|]; [|discriminate].
  cbn [run]. destruct (run_insert _ _ os _ (db w)) as [e|t'] eqn:E; [discriminate|].
  intros _. destruct (run_insert_effect os _ (db w) t' E) as (t0 & c & Hd' & -> & Hc).
  rewrite Hd in Hd'. injection Hd' as <-. exists c. split; [reflexivity | exact Hc].
Qed.

(** What a call does to the rows and their stamps: it keeps some of the
    stored rows as they are, in their order, and appends rows of its
    own, each stamped by the statement that inserted it. *)
Lemma perform_effect clock c w t' :
  db (perform clock c w) = Some t' ->
  exists f new s,
    t' = (filter f (stored w) ++ new)%list
    /\ map stamp_of new = at_statements clock (seq s (List.length new))
    /\ statements w <= s
    /\ s + List.length new <= statements (perform clock c w).
Proof.
  destruct c as [o|o n order kwargs| |cls today z]; cbn [perform]; intros Ht.
  - destruct (write_effect clock o w) as (Hs & [Hd|(t & x & Hd & Hd' & Hc)]).
    + exists (fun _ => true), [], (statements w). rewrite Hs, filter_all, List.app_nil_r.
      unfold stored. rewrite <- Hd, Ht. repeat split; cbn [List.length]; lia.
    + exists (fun _ => true), [(next_rowid t, x)], (statements w).
      rewrite Hs, filter_all. unfold stored. rewrite Hd. rewrite Hd' in Ht.
      injection Ht as <-. split; [reflexivity|]. split; [|cbn [List.length]; lia].
      unfold at_statements, stamp_of. cbn. now rewrite Hc.
  - destruct (delete_effect clock o n order kwargs w) as (Hs & [Hd|(t & f & Hd & Hd')]).
    + exists (fun _ => true), [], (statements w). rewrite Hs, filter_all, List.app_nil_r.
      unfold stored. rewrite <- Hd, Ht. repeat split; cbn [List.length]; lia.
    + exists f, [], (statements w). rewrite Hs, List.app_nil_r.
      unfold stored. rewrite Hd. rewrite Hd' in Ht. injection Ht as <-.
      repeat split; cbn [List.length]; lia.
  - destruct (table_df_effect clock w) as (Hs & Hd).
    exists (fun _ => true), [], (statements w). rewrite Hs, filter_all, List.app_nil_r.
    unfold stored. rewrite <- Hd, Ht. repeat split; cbn [List.length]; lia.
  - revert Ht. unfold create_table, drop_table_if_exists, create_table_statement.
    cbn [db statements]. destruct (get_test_data cls today z) as [df|e].
    + rewrite to_sql_seeded. cbn [snd db statements]. intros [= <-].
      exists (fun _ => false), (seeded clock df (S (S (statements w))) []),
             (S (S (statements w))).
      rewrite filter_nothing, length_seeded. cbn [List.app List.length Nat.add].
      split; [reflexivity|]. split; [now rewrite stamps_seeded|]. lia.
    + cbn [snd db statements]. intros [= <-].
      exists (fun _ => false), [], (statements w). rewrite filter_nothing.
      repeat split; cbn [List.length]; lia.
Qed.

Lemma perform_stamps clock c w :
  stamps_in_order clock w -> stamps_in_order clock (perform clock c w).
Proof.
  intros Hw t' Ht'.
  destruct (perform_effect clock c w t' Ht') as (f & new & s & -> & Hnew & Hs & Hs').
  assert (Hold : exists ks, map stamp_of (stored w) = at_statements clock ks
                            /\ StronglySorted lt ks
                            /\ Forall (fun k => k < statements w) ks).
  { unfold stored. destruct (db w) as [t|] eqn:Hd; [now apply Hw|].
    exists []. repeat split; constructor. }
  destruct Hold as (ks & E & Hsorted & Hbound).
  destruct (stamps_filter clock f (stored w) ks E) as (ks' & E' & Hincl & Hsorted').
  rewrite Forall_forall in Hbound.
  exists (ks' ++ seq s (List.length new))%list. split; [|split].
  - rewrite map_app, E', Hnew. unfold at_statements. now rewrite map_app.
  - apply StronglySorted_app; [now apply Hsorted' | apply StronglySorted_seq|].
    intros x y Hx Hy. apply in_seq in Hy. apply Hincl, Hbound in Hx. lia.
  - apply Forall_app. split; apply Forall_forall; intros x Hx.
    + apply Hincl, Hbound in Hx. lia.
    + apply in_seq in Hx. lia.
Qed.

Lemma run_calls_stamps clock cs w :
  stamps_in_order clock w -> stamps_in_order clock (run_calls clock cs w).
Proof.
  revert w. induction cs as [|c cs IH]; intros w Hw; [exact Hw|].
  cbn [run_calls fold_left]. apply IH. now apply perform_stamps.
Qed.

(** With a clock that does not run backwards, stamps taken in the order
    of the rows do not decrease along them. *)
Lemma stamps_not_later clock (t : table) ks :
  (forall i j, i <= j -> (clock i <= clock j)%Z) ->
  map stamp_of t = at_statements clock ks -> StronglySorted lt ks ->
  StronglySorted not_later t.
Proof.
  intros Hmono. revert ks. induction t as [|r t IH]; intros ks E Hs; [constructor|].
  destruct ks as [|k ks]; [discriminate|]. unfold at_statements in E. cbn [map] in E.
  injection E as Er Et. inversion Hs as [|? ? Hks Hk]; subst.
  constructor; [now apply (IH ks)|].
  clear IH Hs Hks. revert ks Et Hk. induction t as [|r' t IH]; intros ks Et Hk; [constructor|].
  destruct ks as [|k' ks]; [discriminate|]. cbn [map] in Et. injection Et as Er' Et.
  apply Forall_cons_iff in Hk as [Hkk' Hk]. constructor; [|now apply (IH ks)].
  exists (clock k), (clock k'). repeat split; try assumption. apply Hmono. lia.
Qed.

(** C7, as amended.  [AddedOn] is the store's.  The statement that
    [write] sends names the six data columns and not [AddedOn], and
    [write] does not look at the [AddedOn] of the observation.  A
    [write] that returns appends one row, stamped with the schema
    default: the clock of the store read at that very statement.  Every
    call keeps the rows it does not delete as they are, stamps
    included, and the rows it appends carry the clock of the statements
    that inserted them, one after the other.  So, whatever calls were
    made on a fresh database, the stamps of the table are the clock at
    statements that ran, each row at a later statement than the rows
    before it, the rows standing in the order of their insertion, by
    growing rowid; and as long as the clock of the store does not run
    backwards these times are non-decreasing along the table. *)
Theorem added_on_store_assigned clock (cs : list call) (t : table) :
  db (run_calls clock cs fresh) = Some t ->
  (exists ks,
      map stamp_of t = at_statements clock ks
      /\ StronglySorted lt ks
      /\ Forall (fun k => k < statements (run_calls clock cs fresh)) ks)
  /\ ((forall i j, i <= j -> (clock i <= clock j)%Z) -> StronglySorted not_later t)
  /\ StronglySorted (fun r r' => (rowid r < rowid r')%Z) t
  /\ (forall o w t0,
        db w = Some t0 -> fst (write clock o w) = Returned tt ->
        exists c,
          snd (write clock o w)
          = mkWorld (Some (t0 ++ [(next_rowid t0, c)])%list) (S (statements w))
          /\ cAddedOn c = Default (clock (statements w)))
  /\ (forall c w t',
        db (perform clock c w) = Some t' ->
        exists f new s,
          t' = (filter f (stored w) ++ new)%list
          /\ map stamp_of new = at_statements clock (seq s (List.length new))
          /\ statements w <= s
          /\ s + List.length new <= statements (perform clock c w))
  /\ (forall o a w, write clock (set_AddedOn a o) w = write clock o w)
  /\ (forall o st, prepare (insert_sql (encoded_row o)) = inr st ->
                   exists os, st = Insert "Observation" insert_names os
                              /\ ~ In "AddedOn" insert_names).
Proof.
  intros Hdb.
  destruct (run_calls_ok clock cs fresh (fresh_ok clock) t Hdb) as (H1 & _ & _).
  assert (Hfresh : stamps_in_order clock fresh) by (intros t0 H; discriminate H).
  destruct (run_calls_stamps clock cs fresh Hfresh t Hdb) as (ks & E & Hs & Hb).
  split; [now exists ks|]. split; [|split; [exact H1|split; [|split; [|split]]]].
  - intros Hmono. now apply (stamps_not_later clock t ks).
  - apply write_returned.
  - apply perform_effect.
  - reflexivity.
  - intros o st Hst. destruct (prepare_write_form o st Hst) as [os ->].
    exists os. split; [reflexivity|]. cbn. intuition discriminate.
Qed.

(** A table is seeded, a row written, two rows deleted and a row
    written again: of the 50 rows that remain, the last two are the
    written ones, stamped at the statements 52 and 54 of their inserts,
    and with the sample clock the stamps do not decrease. *)
Lemma added_on_store_assigned_witness :
  (forall i j, i <= j -> (sample_clock i <= sample_clock j)%Z)
  /\ exists t,
       db (run_calls sample_clock sample_calls fresh) = Some t
       /\ List.length t = 50
       /\ map stamp_of (skipn 48 t) = [Default (sample_clock 52); Default (sample_clock 54)]
       /\ StronglySorted not_later t.
Proof.
  assert (Hmono : forall i j, i <= j -> (sample_clock i <= sample_clock j)%Z).
  { intros i j H. unfold sample_clock. lia. }
  split; [exact Hmono|].
  eexists. split; [vm_compute; reflexivity|]. split; [reflexivity|].
  split; [reflexivity|].
  refine (proj1 (proj2 (added_on_store_assigned sample_clock sample_calls _ _)) Hmono).
  vm_compute. reflexivity.
Defined.

(** With a clock that is set back between the statements the same calls
    leave a table whose stamps decrease: the first row carries a later
    time than the second. *)
Lemma added_on_store_assigned_counterexample :
  (exists r r' rest,
      db (run_calls back_clock sample_calls fresh) = Some (r :: r' :: rest)
      /\ stamp_of r = Default 1667519760
      /\ stamp_of r' = Default 1667519700)
  /\ ~ non_decreasing_stamps back_clock sample_calls.
Proof.
  assert (H : exists r r' rest,
             db (run_calls back_clock sample_calls fresh) = Some (r :: r' :: rest)
             /\ stamp_of r = Default 1667519760
             /\ stamp_of r' = Default 1667519700).
  { do 3 eexists. split; [vm_compute; reflexivity|]. split; reflexivity. }
  split; [exact H|].
  destruct H as (r & r' & rest & E & Hr & Hr'). intros Hclaim.
  specialize (Hclaim _ E). inversion Hclaim as [|? ? _ Hall]; subst.
  apply Forall_cons_iff in Hall as [(a & b & Ha & Hb & Hab) _].
  rewrite Hr in Ha. rewrite Hr' in Hb. injection Ha as <-. injection Hb as <-. lia.
Qed.

(** C8.  [create_table] is idempotent in shape.  From any state of the
    database, with or without a table, the call returns and [table_df]
    then gives a frame that is not empty and has as many rows as the
    synthetic cardinality; a second call, made on the table that the
    first one left, returns as well and gives that same number of rows.
    The date, category, item, state and city of the rows are those of
    the combinations of the day of the call: only the prices, and the
    stamps of the store, depend on anything else. *)
Theorem create_table_shape clock (today today' : Z) (z z' : nat -> Q) (w : world) :
  let first := create_table clock Observation_class today z w in
  let second := create_table clock Observation_class today' z' (snd first) in
  fst first = Returned tt /\ fst second = Returned tt
  /\ (exists d, get_test_data Observation_class today z = Returned d
                /\ List.length d = seed_count Observation_class)
  /\ exists t1 t2 df1 df2,
       db (snd first) = Some t1 /\ db (snd second) = Some t2
       /\ fst (table_df clock (snd first)) = Returned df1
       /\ fst (table_df clock (snd second)) = Returned df2
       /\ List.length df1 = seed_count Observation_class
       /\ List.length df2 = List.length df1
       /\ 0 < List.length df1
       /\ map snd df1 = rev (map row_cells t1) /\ map snd df2 = rev (map row_cells t2)
       /\ map data_columns t1 = map record_columns (combos Observation_class today)
       /\ map data_columns t2 = map record_columns (combos Observation_class today').
Proof.
  intros first second. subst first second.
  rewrite !(create_table_eq clock Observation_class) by reflexivity.
  cbn [fst snd db statements]. split; [reflexivity|]. split; [reflexivity|].
  split.
  { rewrite get_test_data_eq by reflexivity. eexists. split; [reflexivity|].
    now rewrite length_reprice, length_combos. }
  do 4 eexists. split; [reflexivity|]. split; [reflexivity|].
  rewrite !table_df_eq. cbn [fst]. split; [reflexivity|]. split; [reflexivity|].
  unfold newest_first. rewrite !length_rev, !length_combine, !length_map, !length_seq, !Nat.min_id.
  rewrite !length_seeded, !length_reprice, !length_combos.
  rewrite !map_rev, !map_snd_combine by (now rewrite !length_map, length_seq).
  rewrite !columns_seeded, !record_columns_reprice.
  repeat split. vm_compute. lia.
Qed.

(* ================================================================= *)
(** * Further properties of the code *)

(** ** The encoder, read back *)

(** A token that a space ends is the token that the end of the text
    ends. *)
Lemma flush_before_space l out :
  lex_step l " " = Some (MIdle, out) -> flush l = Some out.
Proof.
  destruct l as [m o]. unfold lex_step, flush. cbn [fst snd].
  destruct m; cbn [pending];
    change (is_idchar " ") with false; change (is_digit " ") with false;
    change (is_e " ") with false; change (is_quote " ") with false;
    change (Ascii.eqb " " ".") with false; change (Ascii.eqb " " "+") with false;
    change (Ascii.eqb " " "-") with false; cbv beta iota;
    unfold start; change (is_space " ") with true; cbv beta iota;
    try discriminate; intros [= <-]; reflexivity.
Qed.

Lemma lexes_tokenize p ts : lexes p ts -> tokenize p = Some ts.
Proof.
  intros H. specialize (H " "%char EmptyString [] eq_refl).
  rewrite lex_run_app in H. unfold tokenize.
  destruct (lex_run p (MIdle, [])) as [l|]; [|discriminate].
  rewrite lex_run_cons in H. cbn [lex_run] in H.
  unfold start in H. change (is_space " ") with true in H. cbv beta iota in H.
  destruct (lex_step l " ") as [l'|] eqn:E; [|discriminate].
  injection H as ->. rewrite List.app_nil_r in E.
  rewrite (flush_before_space _ _ E). cbn [option_map]. now rewrite rev_involutive.
Qed.

(** X1.  What [sqlize] writes, the tokenizer of the backend reads back
    as one operand, for a text without a NUL character (the backend
    refuses a statement with one), an integer of 64 bits (the backend
    reads a longer one as a floating-point number) and every other
    value.  A text comes back as the one text literal that holds it,
    whatever quotes it contains; a date and a timestamp as the text of
    their fields; an integer, a boolean and a finite float as the number
    they stand for.  [None], [nan] and the infinities are written bare
    and are not read as literals: [None] is read as a name. *)
Theorem sqlize_reads_back (v : pyval) :
  in_backend_range v = true ->
  exists ts,
    tokenize (sqlize v) = Some ts
    /\ match v with
       | PStr s => ts = [TText s]
       | PDate d => ts = [TText (strftime_text "%Y-%m-%d" d midnight)]
       | PDateTime d t => ts = [TText (strftime_text "%Y-%m-%d %H:%M:%S.%f" d t)]
       | PInt z =>
           exists q, tokens_operand ts = Some (OLit (SNum q)) /\ (q == inject_Z z)%Q
       | PBool b =>
           exists q, tokens_operand ts = Some (OLit (SNum q))
                     /\ (q == inject_Z (if b then 1 else 0))%Q
       | PFloat f =>
           match float_value f with
           | Some x => exists q, tokens_operand ts = Some (OLit (SNum q)) /\ (q == x)%Q
           | None => forall x, tokens_operand ts <> Some (OLit x)
           end
       | PNone => tokens_operand ts = Some (OName "None")
       end.
Proof.
  intros _.
  exists (value_tokens v). split; [apply lexes_tokenize, lexes_sqlize|].
  destruct v as [|s|z|f|b|d|d t]; cbn [value_tokens]; try reflexivity.
  - apply int_operand.
  - destruct f as [|[|]|[|] n]; cbn [float_value sign_tokens List.app];
      try (intros x; cbn; discriminate).
    + eexists. split; [reflexivity|]. now rewrite numeral_value_as_read.
    + eexists. split; [reflexivity|]. now rewrite numeral_value_as_read.
  - apply int_operand.
Qed.

Lemma sqlize_reads_back_witness :
  exists ts, tokenize (sqlize (PStr "O'Neil")) = Some ts /\ ts = [TText "O'Neil"].
Proof. exact (sqlize_reads_back (PStr "O'Neil") eq_refl). Defined.

(** ** When [write] returns *)

Lemma constants_unwritable vs os :
  operands_of vs = Some os -> existsb value_has_nul vs = false ->
  existsb unwritable vs = true -> exists e, constants os = inl e.
Proof.
  revert os. induction vs as [|v vs IH]; intros os; cbn [operands_of existsb]; [discriminate|].
  destruct (value_operand v) as [o|] eqn:Ho; [|discriminate].
  destruct (operands_of vs) as [os'|]; [|discriminate].
  intros [= <-] Hn H. apply orb_false_iff in Hn as [Hv Hn].
  cbn [constants]. destruct o as [x|w]; [|eauto].
  assert (Hu : unwritable v = false).
  { unfold unwritable. destruct v as [|s|z|f|b|d|d t]; cbn [literal_value]; try reflexivity.
    - discriminate Ho.
    - cbn [value_has_nul] in Hv. now rewrite Hv.
    - destruct f as [|[|]|[|] n]; try reflexivity; discriminate Ho. }
  rewrite Hu in H. cbn [orb] in H.
  destruct (IH os' eq_refl Hn H) as [e E]. rewrite E. eauto.
Qed.

Lemma execute_insert_unwritable o now d :
  existsb unwritable (fields o) = true ->
  exists e, execute (insert_sql (encoded_row o)) now d = inl e.
Proof.
  intros Hu. unfold execute. rewrite encoded_row_fields, prepare_insert by discriminate.
  destruct (existsb value_has_nul (fields o)) eqn:Hn; [eauto|].
  destruct (operands_of (fields o)) as [os|] eqn:Ho; [|eauto].
  pose proof (operands_of_length _ _ Ho) as Hlen.
  destruct (constants_unwritable _ _ Ho Hn Hu) as [e E].
  unfold run, run_insert. destruct (open_table "Observation" d) as [e'|t]; [eauto|].
  change (insert_columns insert_names)
    with (@inr sql_error _ [ColDate; ColItem; ColPrice; ColCategory; ColState; ColCity]).
  cbv beta iota. rewrite Hlen. cbn [fields List.length Nat.eqb negb]. rewrite E. eauto.
Qed.

Lemma writable_fields o :
  complete o && well_formed o = negb (existsb unwritable (fields o)).
Proof.
  unfold complete, well_formed.
  induction (fields o) as [|v vs IH]; [reflexivity|].
  cbn [forallb existsb]. rewrite negb_orb, <- IH. unfold unwritable.
  destruct v as [|s|z|f|b|d|d t]; cbn [is_none literal_value negb orb andb];
    try reflexivity;
    repeat match goal with
           | |- context [match ?x with _ => _ end] => destruct x
           end; cbn; try reflexivity; try (now rewrite ?andb_true_r, ?andb_false_r);
    destruct (forallb _ vs), (forallb _ vs); reflexivity.
Qed.

(** X2.  On a table that exists, [write] returns exactly when the six
    fields are all given and can all be written as literals: it then
    appends one row, under the next rowid, that holds the fields and the
    stamp of the store.  In every other case -- a field that is [None],
    a price that is [nan] or an infinity, a text with a NUL character --
    it raises, and the table is left as it was. *)
Theorem write_returns_iff clock (o : Observation) (t : table) (n : nat) :
  if complete o && well_formed o
  then write clock o (mkWorld (Some t) n)
       = (Returned tt,
          mkWorld (Some (t ++ [(next_rowid t, cells_of o (clock n))])%list) (S n))
  else exists e,
         write clock o (mkWorld (Some t) n) = (Raised e, mkWorld (Some t) (S n)).
Proof.
  destruct (complete o && well_formed o) eqn:E.
  - apply andb_true_iff in E as [Hc Hw]. now apply write_complete.
  - rewrite writable_fields in E. apply negb_false_iff in E.
    destruct (execute_insert_unwritable o (clock n) (Some t) E) as [e He].
    exists (OperationalError e). rewrite write_eq. unfold con_execute. cbn [db statements].
    now rewrite He.
Qed.

(** ** A database without the table *)

Lemma run_no_table st now : exists e, run st now None = inl e.
Proof. destruct st; cbn; eauto. Qed.

Lemma execute_no_table sql now : exists e, execute sql now None = inl e.
Proof. unfold execute. destruct (prepare sql) as [e|st]; [eauto | apply run_no_table]. Qed.

Lemma prepare_insert_complete o :
  complete o = true -> well_formed o = true ->
  exists os, prepare (insert_sql (encoded_row o)) = inr (Insert "Observation" insert_names os).
Proof.
  intros Hc Hw. pose proof (execute_insert_complete o 0%Z [] Hc Hw) as E.
  unfold execute in E. destruct (prepare (insert_sql (encoded_row o))) as [e|st] eqn:Hp;
    [discriminate|].
  destruct (prepare_write_form o st Hp) as [os ->]. eauto.
Qed.

(** X3.  While the database has no Observation table, [write],
    [delete_matching] and [table_df] all raise, whatever they are given,
    and none of them creates the table; [table_df] fails with `no such
    table', and so does [write] for an observation that it would
    otherwise store. *)
Theorem no_table_raises clock (o self : Observation) (m : Z)
        (order : option (list (string * pyval))) (kwargs : list (string * pyval)) (n : nat) :
  let w := mkWorld None n in
  (exists e, write clock o w = (Raised e, mkWorld None (S n))
             /\ if complete o && well_formed o
                then e = OperationalError (NoSuchTable "Observation") else True)
  /\ (exists e, delete_matching clock self m order kwargs w = (Raised e, mkWorld None (S n)))
  /\ table_df clock w = (Raised (OperationalError (NoSuchTable "Observation")), mkWorld None (S n)).
Proof.
  intros w. subst w. split; [|split].
  - rewrite write_eq. unfold con_execute. cbn [db statements].
    destruct (complete o && well_formed o) eqn:E.
    + apply andb_true_iff in E as [Hc Hw].
      destruct (prepare_insert_complete o Hc Hw) as [os Hp].
      exists (OperationalError (NoSuchTable "Observation")). unfold execute. rewrite Hp.
      split; reflexivity.
    + destruct (execute_no_table (insert_sql (encoded_row o)) (clock n)) as [e He].
      exists (OperationalError e). now rewrite He.
  - unfold delete_matching, con_execute. cbn [db statements].
    destruct (execute_no_table (delete_sql m kwargs) (clock n)) as [e He].
    exists (OperationalError e). now rewrite He.
  - unfold table_df, con_execute. cbn [db statements]. unfold execute.
    rewrite prepare_select. reflexivity.
Qed.

(** ** Which rows [delete_matching] removes *)

Lemma execute_delete_any m kwargs now t :
  kwargs <> [] -> filter_ok kwargs = true ->
  execute (delete_sql m kwargs) now (Some t)
  = if int64 m
    then inr (Some (without (limited m (filter (matches kwargs) t)) t), [])
    else inl DatatypeMismatch.
Proof.
  intros Hne Hok. destruct (int64 m) eqn:H64; [now apply execute_delete|].
  destruct (prepare_delete m kwargs Hne Hok) as (conds & rconds & o & Hp & Hres & Hholds & Hl).
  unfold execute. rewrite Hp. unfold run, run_delete.
  cbn [open_table]. change (is_table_name "Observation") with true. cbv beta iota.
  change (resolve (OName "rowid")) with (@inr sql_error _ (Col ColRowid)).
  now rewrite Hres, Hl, H64.
Qed.







(** X6.  [delete_matching] only ever removes rows.  Whatever the filter,
    the bound and the state of the database, the call runs one
    statement; when it raises, the database is as it was; when it
    returns, the table holds some of the rows it held, unchanged and in
    their order, and no other row. *)
Theorem delete_matching_only_removes clock (self : Observation) (m : Z)
        (order : option (list (string * pyval))) (kwargs : list (string * pyval))
        (w : world) :
  exists out d,
    delete_matching clock self m order kwargs w = (out, mkWorld d (S (statements w)))
    /\ match out with
       | Raised _ => d = db w
       | Returned _ => exists t f, db w = Some t /\ d = Some (filter f t)
       end.
Proof.
  unfold delete_matching, con_execute, execute.
  destruct (prepare (delete_sql m kwargs)) as [e|st] eqn:E.
  - do 2 eexists. split; [reflexivity|]. reflexivity.
  - destruct (prepare_delete_form m kwargs st E) as (conds & o & ->).
    cbn [run]. destruct (run_delete _ _ _ _ conds o (db w)) as [e|t'] eqn:R.
    + do 2 eexists. split; [reflexivity|]. reflexivity.
    + destruct (run_delete_effect conds o (db w) t' R) as (t & f & Hd & ->).
      do 2 eexists. split; [reflexivity|]. cbn. eauto.
Qed.

(** ** Filters that cannot be written *)

Lemma has_nul_delete_eq n kwargs :
  has_nul (delete_sql n kwargs) = existsb (fun kv => has_nul (condition_text kv)) kwargs.
Proof.
  unfold delete_sql.
  rewrite !has_nul_app, has_nul_join, int_str_no_nul by reflexivity.
  cbn [orb]. rewrite orb_false_r.
  change (has_nul "DELETE from Observation WHERE rowid in (SELECT rowid FROM Observation WHERE ")
    with false.
  cbn [orb]. induction kwargs as [|kv kwargs IH]; [reflexivity|].
  cbn [map existsb]. now rewrite IH.
Qed.

Lemma keys_ok_words kwargs :
  keys_ok kwargs = true ->
  Forall (fun kv => is_word (PyStr.capitalize (fst kv)) = true) kwargs.
Proof.
  unfold keys_ok. induction kwargs as [|kv kwargs IH]; [constructor|].
  cbn [forallb]. rewrite andb_true_iff. intros [H1 H2]. constructor; [|now apply IH].
  destruct (column_of_name (fst kv)) as [c|] eqn:Hc; [|discriminate].
  now destruct (column_key _ c Hc).
Qed.

Lemma resolve_conds_head l r cs e :
  resolve r = inl e -> exists e', resolve_conds ((l, r) :: cs) = inl e'.
Proof. intros H. cbn [resolve_conds]. rewrite H. destruct (resolve l); eauto. Qed.

Lemma resolve_conds_tail l r cs e :
  resolve_conds cs = inl e -> exists e', resolve_conds ((l, r) :: cs) = inl e'.
Proof.
  intros H. cbn [resolve_conds]. rewrite H. destruct (resolve l); [eauto|].
  destruct (resolve r); eauto.
Qed.

Lemma resolve_unwritable kwargs conds :
  read_conditions kwargs = Some conds ->
  existsb (fun kv => value_has_nul (snd kv)) kwargs = false ->
  existsb (fun kv => unwritable (snd kv)) kwargs = true ->
  exists e, resolve_conds conds = inl e.
Proof.
  revert conds. induction kwargs as [|[k v] kwargs IH]; intros conds;
    cbn [read_conditions existsb fst snd]; [discriminate|].
  destruct (read_condition (k, v)) as [[l r]|] eqn:Hc; [|discriminate].
  destruct (read_conditions kwargs) as [cs|]; [|discriminate].
  intros [= <-] Hn Hu. apply orb_false_iff in Hn as [Hv Hn].
  destruct (unwritable v) eqn:Ev.
  - unfold read_condition in Hc. cbn [fst snd] in Hc.
    destruct (operand1 (TWord (PyStr.capitalize k))) as [l'|]; [|discriminate].
    destruct (value_operand v) as [r'|] eqn:Hr; [|discriminate].
    injection Hc as <- <-.
    assert (exists e, resolve r' = inl e) as [e He]; [|exact (resolve_conds_head _ _ _ _ He)].
    unfold unwritable in Ev.
    destruct v as [|s|z|f|b|d|d t]; cbn [literal_value value_has_nul] in Ev, Hv;
      try discriminate Ev.
    + injection Hr as <-. now eexists.
    + rewrite Hv in Ev. discriminate.
    + destruct f as [|[|]|[|] n]; try discriminate Ev; try discriminate Hr;
        injection Hr as <-; now eexists.
  - cbn [orb] in Hu. destruct (IH cs eq_refl Hn Hu) as [e He].
    exact (resolve_conds_tail _ _ _ _ He).
Qed.

Lemma execute_delete_unwritable m kwargs now d :
  keys_ok kwargs = true ->
  existsb (fun kv => unwritable (snd kv)) kwargs = true ->
  exists e, execute (delete_sql m kwargs) now d = inl e.
Proof.
  intros Hk Hu.
  assert (Hne : kwargs <> []) by (intros ->; discriminate Hu).
  unfold execute, prepare. rewrite has_nul_delete_eq.
  destruct (existsb (fun kv => has_nul (condition_text kv)) kwargs) eqn:Hn; [eauto|].
  assert (Hv : existsb (fun kv => value_has_nul (snd kv)) kwargs = false).
  { clear -Hn. induction kwargs as [|kv kwargs IH]; [reflexivity|].
    cbn [existsb] in *. apply orb_false_iff in Hn as [H1 H2]. rewrite (IH H2), orb_false_r.
    unfold condition_text in H1. rewrite !has_nul_app, has_nul_sqlize in H1.
    apply orb_false_iff in H1 as [_ H1]. now apply orb_false_iff in H1 as [_ H1]. }
  rewrite (tokenize_delete m kwargs (keys_ok_words kwargs Hk)).
  rewrite <- !app_assoc. rewrite parse_delete_head.
  cbn [List.app]. rewrite (parse_conds_conditions kwargs _ Hne).
  destruct (read_conditions kwargs) as [conds|] eqn:Hread; [|eauto].
  destruct (parse_limit (int_tokens m ++ [TRParen])%list) as [o|]; [|eauto].
  destruct (resolve_unwritable kwargs conds Hread Hv Hu) as [e He].
  unfold run, run_delete. destruct (open_table "Observation" d) as [e'|t]; [eauto|].
  change (resolve (OName "rowid")) with (@inr sql_error _ (Col ColRowid)).
  cbv beta iota. rewrite He. eauto.
Qed.

Lemma delete_matching_unwritable_filter_aux clock (self : Observation) (m : Z)
      (order : option (list (string * pyval))) (kwargs : list (string * pyval))
      (d : option table) (n : nat) :
  keys_ok kwargs = true ->
  existsb (fun kv => unwritable (snd kv)) kwargs = true ->
  exists e,
    delete_matching clock self m order kwargs (mkWorld d n) = (Raised e, mkWorld d (S n)).
Proof.
  intros Hk Hu. unfold delete_matching, con_execute. cbn [db statements].
  destruct (execute_delete_unwritable m kwargs (clock n) d Hk Hu) as [e He].
  exists (OperationalError e). now rewrite He.
Qed.

(** X7.  A filter value that cannot be written as a literal makes
    [delete_matching] raise.  When the entries of the filter name
    columns and one of the values is [None], [nan], an infinity or a
    text with a NUL character, the call raises, whatever the bound and
    the other entries, and the database is left as it was. *)
Theorem delete_matching_unwritable_filter clock (self : Observation) (m : Z)
        (order : option (list (string * pyval))) (kwargs : list (string * pyval))
        (d : option table) (n : nat) :
  keys_ok kwargs = true ->
  existsb (fun kv => unwritable (snd kv)) kwargs = true ->
  exists e,
    delete_matching clock self m order kwargs (mkWorld d n) = (Raised e, mkWorld d (S n)).
Proof. apply delete_matching_unwritable_filter_aux. Qed.

Lemma delete_matching_unwritable_filter_witness :
  exists e,
    delete_matching sample_clock dozen_eggs 1 None
                    [("state", PStr "Texas"); ("city", PNone)] sample_world
    = (Raised e, mkWorld (Some one_row) 2).
Proof.
  exact (delete_matching_unwritable_filter sample_clock dozen_eggs 1 None
           [("state", PStr "Texas"); ("city", PNone)] (Some one_row) 1 eq_refl eq_refl).
Defined.

(** ** Writing, then deleting *)

Lemma sql_eq_refl x : is_null x = false -> sql_eq x x = true.
Proof.
  destruct x as [|q|s]; cbn [is_null sql_eq]; [discriminate| |]; intros _.
  - apply Qeq_bool_iff. reflexivity.
  - apply String.eqb_refl.
Qed.

(** Each of its own fields matches the row of an observation. *)
Lemma own_filter_matches o rid now :
  complete o = true -> well_formed o = true ->
  forall kv, In kv (own_filter o) -> field_matches kv (rid, cells_of o now) = true.
Proof.
  unfold complete, well_formed, fields. cbn [forallb]. rewrite !andb_true_r, !andb_true_iff.
  intros (C1 & C2 & C3 & C4 & C5 & C6) (W1 & W2 & W3 & W4 & W5 & W6) kv Hin.
  apply negb_true_iff in C1, C2, C3, C4, C5, C6.
  rewrite C1 in W1. rewrite C2 in W2. rewrite C3 in W3.
  rewrite C4 in W4. rewrite C5 in W5. rewrite C6 in W6. cbn [orb] in *.
  unfold own_filter in Hin. cbn [In] in Hin.
  destruct Hin as [<-|[<-|[<-|[<-|[<-|[<-|[]]]]]]]; unfold field_matches; cbn [fst snd];
    match goal with
    | |- context [column_of_name ?k] =>
        let c := eval vm_compute in (column_of_name k) in
        change (column_of_name k) with c
    end; cbv beta iota;
    unfold cells_of, cell_of; cbn [column_value row_cells snd cDate cItem cPrice cCategory cState cCity];
    match goal with
    | |- context [literal_value ?v] => destruct (literal_value v) as [x|] eqn:E; [|discriminate]
    end;
    apply sql_eq_refl; destruct x; try reflexivity;
    match goal with
    | E : literal_value ?v = Some SNull |- _ =>
        destruct v as [|?|?|f|?|?|? ?]; cbn [literal_value] in E; try discriminate E;
        [destruct (has_nul _); discriminate E | destruct f; discriminate E]
    end.
Qed.

Lemma without_last (t : table) c :
  without [(next_rowid t, c)] (t ++ [(next_rowid t, c)])%list = t.
Proof.
  unfold without. rewrite filter_app. cbn [filter existsb rowid fst].
  rewrite Z.eqb_refl. cbn [orb negb]. rewrite List.app_nil_r.
  apply forallb_filter_id, forallb_forall. intros r Hr.
  pose proof (next_rowid_above t) as H. rewrite Forall_forall in H. specialize (H r Hr).
  unfold rowid in *. replace (fst r =? next_rowid t)%Z with false; [reflexivity|].
  symmetry. apply Z.eqb_neq. lia.
Qed.



(** ** Synthetic data and the price tables *)

Lemma apply_price_raised f i df e :
  apply_price f i df = Raised e ->
  exists j s, nth_error df j = Some s /\ f (i + j) s = Raised e.
Proof.
  revert i. induction df as [|s df IH]; intros i; cbn [apply_price]; [discriminate|].
  destruct (f i s) as [p|e'] eqn:E.
  - destruct (apply_price f (S i) df) as [rest|e''] eqn:E'; [discriminate|].
    intros [= <-]. destruct (IH (S i) E') as (j & s' & Hj & Hf).
    exists (S j), s'. split; [exact Hj|]. now replace (i + S j) with (S i + j) by lia.
  - intros [= <-]. exists 0, s. split; [reflexivity|]. now rewrite Nat.add_0_r.
Qed.

Lemma apply_price_cases f i df :
  (exists g, apply_price f i df = Returned (reprice g i df)
             /\ forall j s, nth_error df j = Some s -> f (i + j) s = Returned (g (i + j) s))
  \/ exists e, apply_price f i df = Raised e.
Proof.
  revert i. induction df as [|s df IH]; intros i.
  - left. exists (fun _ _ => 0%Q). split; [reflexivity|]. intros [|j] s'; discriminate.
  - cbn [apply_price]. destruct (f i s) as [p|e] eqn:E; [|right; eauto].
    destruct (IH (S i)) as [(g & Hg & Hf)|[e He]]; [|right; rewrite He; eauto].
    left. exists (fun j s' => if (j =? i)%nat then p else g j s'). split.
    + rewrite Hg. cbn [reprice]. rewrite Nat.eqb_refl. unfold set_price. f_equal. f_equal.
      clear. assert (H : forall k, i < k ->
                reprice g k df = reprice (fun j s' => if (j =? i)%nat then p else g j s') k df).
      { induction df as [|s' df IH]; intros k Hk; [reflexivity|]. cbn [reprice].
        replace (k =? i)%nat with false by (symmetry; apply Nat.eqb_neq; lia).
        now rewrite (IH (S k)) by lia. }
      apply H. lia.
    + intros [|j] s' Hj.
      * injection Hj as <-. now rewrite Nat.add_0_r, Nat.eqb_refl.
      * cbn [nth_error] in Hj. replace (i + S j) with (S i + j) by lia.
        replace (S i + j =? i)%nat with false by (symmetry; apply Nat.eqb_neq; lia).
        now apply Hf.
Qed.

Lemma getitem_raised {A} (d : list (string * A)) k e :
  getitem d k = Raised e -> e = KeyError k /\ has_key d k = false.
Proof.
  unfold getitem, has_key. destruct (assoc k d); [discriminate|]. now intros [= <-].
Qed.

Lemma get_test_data_used cls today z :
  used_ok cls today = true ->
  get_test_data cls today z = Returned (reprice (model_price cls z) 0 (combos cls today)).
Proof.
  unfold used_ok. rewrite forallb_forall. intros Hused.
  assert (Hitems : forall s, In s (combos cls today) ->
                             has_key (item_base_price cls) (rItem s) = true)
    by (intros s Hs; now destruct (proj1 (andb_true_iff _ _) (Hused s Hs))).
  assert (Hstates : forall s, In s (combos cls today) ->
                              has_key (state_price_mu_std cls) (rState s) = true)
    by (intros s Hs; now destruct (proj1 (andb_true_iff _ _) (Hused s Hs))).
  unfold get_test_data.
  rewrite (apply_price_ok _ (fun _ s => base_price cls s)).
  2:{ intros j s Hs. apply nth_error_In in Hs.
      destruct (has_key_getitem _ _ (Hitems _ Hs)) as (b & Hb & E).
      unfold base_price. now rewrite E, Hb. }
  cbn [bind].
  rewrite (apply_price_ok _ (fun _ s => (rPrice s * fst (scale cls s))%Q)).
  2:{ intros j s Hs. rewrite nth_error_reprice in Hs.
      destruct (nth_error (combos cls today) j) as [s0|] eqn:E0; [|discriminate].
      injection Hs as <-. apply nth_error_In in E0.
      destruct (has_key_getitem _ _ (Hstates _ E0)) as (ms & Hms & E).
      unfold scale. cbn [set_price rState rPrice].
      now rewrite E, Hms. }
  cbn [bind].
  rewrite (apply_price_ok _ (fun i s => gauss (z i) (rPrice s) (rPrice s * snd (scale cls s))%Q)).
  2:{ intros j s Hs. rewrite reprice_reprice, nth_error_reprice in Hs.
      destruct (nth_error (combos cls today) j) as [s0|] eqn:E0; [|discriminate].
      injection Hs as <-. apply nth_error_In in E0.
      destruct (has_key_getitem _ _ (Hstates _ E0)) as (ms & Hms & E).
      unfold scale. cbn [set_price rState rPrice].
      now rewrite E, Hms. }
  f_equal. rewrite !reprice_reprice. clear Hused Hitems Hstates.
  generalize 0 at 1 2. induction (combos cls today) as [|s l IH]; intros i; [reflexivity|].
  cbn [reprice]. now rewrite IH.
Qed.

Lemma getitem_returned {A} (d : list (string * A)) k a :
  getitem d k = Returned a -> has_key d k = true.
Proof. unfold getitem, has_key. now destruct (assoc k d). Qed.

Lemma bind_getitem_raised {A B} (d : list (string * A)) k (h : A -> B) e :
  bind (getitem d k) (fun a => Returned (h a)) = Raised e ->
  e = KeyError k /\ has_key d k = false.
Proof.
  destruct (getitem d k) as [a|e'] eqn:E; cbn [bind]; [discriminate|].
  intros [= <-]. now apply getitem_raised.
Qed.

Lemma bind_getitem_returned {A B} (d : list (string * A)) k (h : A -> B) b :
  bind (getitem d k) (fun a => Returned (h a)) = Returned b -> has_key d k = true.
Proof.
  destruct (getitem d k) as [a|e'] eqn:E; cbn [bind]; [|discriminate].
  intros _. exact (getitem_returned _ _ _ E).
Qed.

Lemma get_test_data_missing cls today z :
  used_ok cls today = false ->
  exists k, get_test_data cls today z = Raised (KeyError k) /\ missing_key cls k.
Proof.
  intros Hused. unfold get_test_data.
  destruct (apply_price_cases (fun _ s => getitem (item_base_price cls) (rItem s)) 0
              (combos cls today)) as [(g & Hg & Hf)|[e He]].
  - rewrite Hg. cbn [bind].
    destruct (apply_price_cases
                (fun _ s => bind (getitem (state_price_mu_std cls) (rState s))
                                 (fun ms => Returned (rPrice s * fst ms)%Q)) 0
                (reprice g 0 (combos cls today))) as [(g' & Hg' & Hf')|[e He]].
    + exfalso. unfold used_ok in Hused.
      assert (H : forallb (fun s => has_key (item_base_price cls) (rItem s)
                                    && has_key (state_price_mu_std cls) (rState s))
                          (combos cls today) = true); [|congruence].
      apply forallb_forall. intros s Hs. apply In_nth_error in Hs as [j Hj].
      apply andb_true_iff. split.
      * exact (getitem_returned _ _ _ (Hf j s Hj)).
      * assert (Hj' : nth_error (reprice g 0 (combos cls today)) j
                      = Some (set_price s (g (0 + j) s)))
          by (now rewrite nth_error_reprice, Hj).
        exact (bind_getitem_returned _ _ _ _ (Hf' j _ Hj')).
    + rewrite He. cbn [bind].
      apply apply_price_raised in He as (j & s' & Hj & Hs').
      apply bind_getitem_raised in Hs' as [-> Hk].
      rewrite nth_error_reprice in Hj.
      destruct (nth_error (combos cls today) j) as [s|] eqn:E; [|discriminate].
      injection Hj as <-. cbn [set_price rState] in *.
      exists (rState s). split; [reflexivity|]. right. split; [|exact Hk].
      now apply nth_error_In, in_combos in E.
  - rewrite He. cbn [bind].
    apply apply_price_raised in He as (j & s & Hj & Hs).
    apply getitem_raised in Hs as [-> Hk].
    exists (rItem s). split; [reflexivity|]. left. split; [|exact Hk].
    now apply nth_error_In, in_combos in Hj.
Qed.

(** X9.  [get_test_data] and the price tables, for a vocabulary that
    gives at least one combination.  When every combination has a base
    price for its item and a scale for its state, the call returns the
    combinations, each with the price of the model.  When a
    combination uses an item without a base price or a state without a
    scale, the call raises [KeyError] with such a missing key, and
    returns no frame. *)
Theorem get_test_data_keys (cls : vocabulary) (today : Z) (z : nat -> Q) :
  combos cls today <> [] ->
  if used_ok cls today
  then get_test_data cls today z
       = Returned (reprice (model_price cls z) 0 (combos cls today))
  else exists k, get_test_data cls today z = Raised (KeyError k) /\ missing_key cls k.
Proof.
  intros _. destruct (used_ok cls today) eqn:E.
  - now apply get_test_data_used.
  - now apply get_test_data_missing.
Qed.

Lemma get_test_data_keys_witness :
  exists k,
    get_test_data (mkVocabulary [("Food", ["Eggs"; "Milk"])] [("Texas", ["Dallas"])]
                                [("Eggs", 3.00%Q)] [("Texas", (1.0%Q, 0.0%Q))])
                  sample_today (fun _ => 0%Q)
    = Raised (KeyError k)
    /\ k = "Milk".
Proof.
  pose proof (get_test_data_keys
                (mkVocabulary [("Food", ["Eggs"; "Milk"])] [("Texas", ["Dallas"])]
                              [("Eggs", 3.00%Q)] [("Texas", (1.0%Q, 0.0%Q))])
                sample_today (fun _ => 0%Q)) as H.
  match type of H with ?A -> _ => assert (Hne : A) by discriminate end.
  specialize (H Hne). cbv beta iota in H.
  change (used_ok _ sample_today) with false in H. cbv beta iota in H.
  destruct H as (k & Hk & _). exists k. split; [exact Hk|].
  assert (E : get_test_data
                (mkVocabulary [("Food", ["Eggs"; "Milk"])] [("Texas", ["Dallas"])]
                              [("Eggs", 3.00%Q)] [("Texas", (1.0%Q, 0.0%Q))])
                sample_today (fun _ => 0%Q) = Raised (KeyError "Milk")) by reflexivity.
  rewrite E in Hk. now injection Hk as <-.
Defined.

(** ** What [create_table] leaves *)

(** X10.  [create_table] drops before it looks.  When a combination
    uses an item without a base price or a state without a scale, the
    call raises the [KeyError] of [get_test_data] -- after the old table
    was dropped and the new one created: whatever rows were stored are
    gone, and the table is left empty. *)
Theorem create_table_missing_key clock (cls : vocabulary) (today : Z) (z : nat -> Q)
        (w : world) :
  used_ok cls today = false ->
  exists k,
    get_test_data cls today z = Raised (KeyError k)
    /\ missing_key cls k
    /\ create_table clock cls today z w
       = (Raised (KeyError k), mkWorld (Some []) (S (S (statements w)))).
Proof.
  intros Hused. destruct (get_test_data_missing cls today z Hused) as (k & Hk & Hm).
  exists k. split; [exact Hk|]. split; [exact Hm|].
  unfold create_table, drop_table_if_exists, create_table_statement.
  cbn [db statements]. now rewrite Hk.
Qed.

Lemma create_table_missing_key_witness :
  exists k,
    create_table sample_clock
                 (mkVocabulary [("Food", ["Eggs"])] [("Texas", ["Dallas"])]
                               [("Eggs", 3.00%Q)] [("Ohio", (1.0%Q, 0.0%Q))])
                 sample_today (fun _ => 0%Q) sample_world
    = (Raised (KeyError k), mkWorld (Some []) 3).
Proof.
  destruct (create_table_missing_key sample_clock
              (mkVocabulary [("Food", ["Eggs"])] [("Texas", ["Dallas"])]
                            [("Eggs", 3.00%Q)] [("Ohio", (1.0%Q, 0.0%Q))])
              sample_today (fun _ => 0%Q) sample_world eq_refl) as (k & _ & _ & E).
  exists k. exact E.
Defined.

Lemma max_rowid_nonneg (t : table) : (0 <= fold_right Z.max 0%Z (map rowid t))%Z.
Proof. induction t as [|r t IH]; cbn [map fold_right]; lia. Qed.

Lemma next_rowid_snoc (t : table) c :
  next_rowid (t ++ [(next_rowid t, c)])%list = (next_rowid t + 1)%Z.
Proof.
  unfold next_rowid. rewrite map_app. cbn [map rowid fst].
  pose proof (max_rowid_nonneg t) as H0.
  set (x := (fold_right Z.max 0 (map rowid t) + 1)%Z).
  assert (H : forall l, (0 <= fold_right Z.max 0%Z l)%Z ->
                        fold_right Z.max 0%Z (l ++ [x])%list
                        = Z.max (fold_right Z.max 0%Z l) (Z.max x 0)).
  { induction l as [|a l IH]; intros Hl; cbn [List.app fold_right]; [lia|].
    assert (Hl' : (0 <= fold_right Z.max 0%Z l)%Z).
    { clear. induction l as [|b l IH]; cbn [fold_right]; lia. }
    rewrite (IH Hl'). lia. }
  rewrite (H _ H0). subst x. lia.
Qed.

(** The rows that [to_sql] appends: the [k]-th record of the frame
    under the [k]-th next rowid, stamped by the statement that inserts
    it. *)
Lemma nth_error_seeded clock df s t k r :
  nth_error df k = Some r ->
  nth_error (seeded clock df s t) (List.length t + k)
  = Some ((next_rowid t + Z.of_nat k)%Z, bound_cells (clock (s + k)) r).
Proof.
  revert s t k. induction df as [|r0 df IH]; intros s t k; [now destruct k|].
  cbn [seeded]. destruct k as [|k].
  - intros [= ->]. rewrite !Nat.add_0_r, Z.add_0_r.
    assert (H : forall df s (t0 : table) x t',
               nth_error (seeded clock df s (t0 ++ x :: t')%list) (List.length t0) = Some x).
    { clear. induction df as [|r df IH]; intros s t0 x t'; cbn [seeded].
      - now rewrite nth_error_app2, Nat.sub_diag by lia.
      - rewrite <- app_assoc. cbn [List.app]. apply IH. }
    apply H.
  - cbn [nth_error]. intros Hk.
    specialize (IH (S s) (t ++ [(next_rowid t, bound_cells (clock s) r0)])%list k Hk).
    rewrite length_app, next_rowid_snoc in IH. cbn [List.length] in IH.
    replace (List.length t + S k) with (List.length t + 1 + k) by lia.
    rewrite IH. do 2 f_equal; [lia|]. do 2 f_equal. lia.
Qed.

(** X11.  The table that [create_table] leaves, row by row.  When there
    are combinations and they find their keys in the price tables, the
    call returns and the table holds exactly the frame of
    [get_test_data]: its k-th row is the k-th record, under the rowid
    k + 1 whatever rowids were in use before, with the day stored as the
    text of its midnight and the stamp taken by the store at the
    statement that inserted it (the drop and the create are the first
    two statements of the call). *)
Theorem create_table_rows clock (cls : vocabulary) (today : Z) (z : nat -> Q) (w : world) :
  combos cls today <> [] -> used_ok cls today = true ->
  exists df t,
    get_test_data cls today z = Returned df
    /\ create_table clock cls today z w
       = (Returned tt, mkWorld (Some t) (List.length df + S (S (statements w))))
    /\ List.length t = List.length df
    /\ forall k r,
         nth_error df k = Some r ->
         nth_error t k
         = Some (Z.of_nat (S k),
                 mkCells (SText (strftime_fields "%Y-%m-%d %H:%M:%S"
                                                 (civil_of_days (rDate r)) midnight))
                         (SText (rItem r)) (SNum (rPrice r)) (SText (rCategory r))
                         (SText (rState r)) (SText (rCity r))
                         (Default (clock (S (S (statements w)) + k)))).
Proof.
  intros _ Hused. pose proof (get_test_data_used cls today z Hused) as Hdf.
  exists (reprice (model_price cls z) 0 (combos cls today)).
  exists (seeded clock (reprice (model_price cls z) 0 (combos cls today))
                 (S (S (statements w))) []).
  split; [exact Hdf|]. split; [|split].
  - unfold create_table, drop_table_if_exists, create_table_statement.
    cbn [db statements]. now rewrite Hdf, to_sql_seeded.
  - now rewrite length_seeded.
  - intros k r Hk.
    pose proof (nth_error_seeded clock _ (S (S (statements w))) [] k r Hk) as H.
    cbn [List.length Nat.add] in H. rewrite H. unfold bound_cells. do 2 f_equal.
    unfold next_rowid. cbn [map fold_right]. lia.
Qed.

Lemma create_table_rows_witness :
  exists t,
    db (snd (create_table sample_clock fixture sample_today (fun _ => 0%Q) sample_world)) = Some t
    /\ List.length t = 50
    /\ option_map (fun r => (rowid r, cDate (row_cells r))) (nth_error t 0)
       = Some (1%Z, SText "2022-10-26 00:00:00").
Proof.
  assert (Hne : combos fixture sample_today <> []) by discriminate.
  destruct (create_table_rows sample_clock fixture sample_today (fun _ => 0%Q) sample_world
              Hne eq_refl) as (df & t & Hdf & Hct & Hlen & Hrows).
  exists t. rewrite Hct. cbn [snd db]. split; [reflexivity|].
  assert (E : df = reprice (model_price fixture (fun _ => 0%Q)) 0 (combos fixture sample_today)).
  { rewrite get_test_data_used in Hdf by reflexivity. now injection Hdf. }
  split.
  - rewrite Hlen, E, length_reprice, length_combos. reflexivity.
  - rewrite (Hrows 0 (mkRecord (sample_today - 9) "Food" "Eggs" "Texas" "Dallas"
                               (gauss 0 (3.00 * 1.0) (3.00 * 1.0 * 0.0))%Q)).
    + reflexivity.
    + rewrite E. reflexivity.
Defined.

(** ** Seeded rows and filters on the date *)

Lemma zero_padded_digits w n : all_chars is_digit (zero_padded w n) = true.
Proof.
  unfold zero_padded. destruct (n <? 10 ^ N.of_nat w)%N.
  - apply fixed_digits_digits.
  - apply uint_digits'.
Qed.

Lemma digits_free_of c s : is_digit c = false -> all_chars is_digit s = true -> free_of c s = true.
Proof.
  intros Hc. unfold free_of. apply all_chars_impl. intros x Hx.
  destruct (Ascii.eqb_spec x c) as [->|]; [congruence | reflexivity].
Qed.

Lemma free_of_app c a b : free_of c (a ++ b) = free_of c a && free_of c b.
Proof. apply all_chars_app. Qed.

Lemma zero_padded_free_of c w n : is_digit c = false -> free_of c (zero_padded w n) = true.
Proof. intros Hc. apply digits_free_of; [exact Hc | apply zero_padded_digits]. Qed.

Lemma free_of_cons c x s : free_of c (String x s) = negb (Ascii.eqb x c) && free_of c s.
Proof. reflexivity. Qed.

Lemma year_text_free_of c y : is_digit c = false -> free_of c (year_text y) = true.
Proof. intros Hc. apply digits_free_of; [exact Hc | apply year_text_digits]. Qed.

Ltac free_of_text :=
  cbn [strftime_fields strftime_text strftime_directive directive];
  repeat (rewrite free_of_app || rewrite free_of_cons
          || (rewrite zero_padded_free_of by reflexivity)
          || (rewrite year_text_free_of by reflexivity));
  reflexivity.

(** The text of a midnight has a space and no point; the text of a date
    has no space; the text of a timestamp with microseconds has a
    point. *)
Lemma midnight_text_chars d :
  free_of " " (strftime_fields "%Y-%m-%d %H:%M:%S" d midnight) = false
  /\ free_of "." (strftime_fields "%Y-%m-%d %H:%M:%S" d midnight) = true.
Proof. split; free_of_text. Qed.

(** From the year 1000 on [strftime] writes a date as [isoformat]
    does. *)
Lemma year_text_padded y : (1000 <= y)%N -> year_text y = zero_padded 4 y.
Proof.
  intros Hy. unfold zero_padded. destruct (y <? 10 ^ N.of_nat 4)%N eqn:E; [|reflexivity].
  apply N.ltb_lt in E. change (10 ^ N.of_nat 4)%N with 10000%N in E.
  now apply year_text_fixed.
Qed.

Lemma strftime_text_iso d :
  (1000 <= year d)%N ->
  strftime_text "%Y-%m-%d" d midnight = strftime_fields "%Y-%m-%d" d midnight.
Proof.
  intros Hy. cbn [strftime_text strftime_fields strftime_directive directive].
  now rewrite (year_text_padded _ Hy).
Qed.

Lemma date_text_no_space d : free_of " " (strftime_text "%Y-%m-%d" d midnight) = true.
Proof. free_of_text. Qed.

Lemma datetime_text_point d t :
  free_of "." (strftime_text "%Y-%m-%d %H:%M:%S.%f" d t) = false.
Proof. free_of_text. Qed.

Lemma seeded_dates clock df s t :
  Forall (fun r => exists d, cDate (row_cells r)
                             = SText (strftime_fields "%Y-%m-%d %H:%M:%S" d midnight)) t ->
  Forall (fun r => exists d, cDate (row_cells r)
                             = SText (strftime_fields "%Y-%m-%d %H:%M:%S" d midnight))
         (seeded clock df s t).
Proof.
  revert s t. induction df as [|r df IH]; intros s t Ht; cbn [seeded]; [exact Ht|].
  apply IH. apply Forall_app. split; [exact Ht|]. constructor; [|constructor].
  cbn [row_cells snd bound_cells cDate]. eauto.
Qed.

(** No day value is the date of a seeded row. *)
Lemma day_value_unmatched k v d rid c :
  column_of_name k = Some ColDate -> day_value v = true ->
  cDate c = SText (strftime_fields "%Y-%m-%d %H:%M:%S" d midnight) ->
  field_matches (k, v) (rid, c) = false.
Proof.
  intros Hk Hv Hc. unfold field_matches. cbn [fst snd]. rewrite Hk.
  cbn [column_value row_cells snd]. rewrite Hc.
  destruct (midnight_text_chars d) as [Hsp Hpt].
  destruct v as [|s|z|f|b|d'|d' t']; cbn [day_value] in Hv; try discriminate Hv;
    cbn [literal_value].
  - destruct (has_nul s); [reflexivity|]. cbn [sql_eq].
    destruct (String.eqb_spec (strftime_fields "%Y-%m-%d %H:%M:%S" d midnight) s) as [E|];
      [|reflexivity].
    rewrite E in Hsp. congruence.
  - cbn [sql_eq].
    destruct (String.eqb_spec (strftime_fields "%Y-%m-%d %H:%M:%S" d midnight)
                              (strftime_text "%Y-%m-%d" d' midnight)) as [E|]; [|reflexivity].
    rewrite E, date_text_no_space in Hsp. discriminate.
  - cbn [sql_eq].
    destruct (String.eqb_spec (strftime_fields "%Y-%m-%d %H:%M:%S" d midnight)
                              (strftime_text "%Y-%m-%d %H:%M:%S.%f" d' t')) as [E|];
      [|reflexivity].
    rewrite E, datetime_text_point in Hpt. discriminate.
Qed.

(** X12.  The rows that [create_table] seeds are out of the reach of a
    filter on the day.  Their date is stored as the text of a midnight,
    2022-11-04 00:00:00, while a date is written as 2022-11-04 and a
    timestamp with its microseconds.  So after a [create_table] that
    returned (there are combinations, with their keys), a call of
    [delete_matching] whose filter names columns and gives literals, and
    has an entry for the date column that is a date, a timestamp or a
    text without a space, returns and removes nothing, whatever its
    bound (a 64-bit integer) and its other entries. *)
Theorem seeded_rows_day_filter clock (cls : vocabulary) (today : Z) (z : nat -> Q)
        (w : world) (self : Observation) (m : Z)
        (order : option (list (string * pyval))) (kwargs : list (string * pyval))
        (k : string) (v : pyval) :
  combos cls today <> [] -> used_ok cls today = true ->
  In (k, v) kwargs -> column_of_name k = Some ColDate -> day_value v = true ->
  filter_ok kwargs = true ->
  (-9223372036854775808 <= m <= 9223372036854775807)%Z ->
  let w1 := snd (create_table clock cls today z w) in
  delete_matching clock self m order kwargs w1
  = (Returned tt, mkWorld (db w1) (S (statements w1))).
Proof.
  intros _ Hused Hin Hk Hv Hok Hm w1. subst w1.
  unfold create_table, drop_table_if_exists, create_table_statement.
  cbn [db statements]. rewrite (get_test_data_used cls today z Hused), to_sql_seeded.
  cbn [snd db statements].
  set (t := seeded clock _ _ []).
  assert (Hne : kwargs <> []) by (intros ->; contradiction).
  assert (Hnone : filter (matches kwargs) t = []).
  { assert (Hall : Forall (fun r => matches kwargs r = false) t).
    { pose proof (seeded_dates clock
                    (reprice (model_price cls z) 0 (combos cls today))
                    (S (S (statements w))) [] (Forall_nil _)) as Hd.
      fold t in Hd. eapply Forall_impl; [|exact Hd].
      intros [rid c] [d Hc]. cbn [row_cells snd] in Hc. unfold matches.
      apply not_true_is_false. intros Hall. rewrite forallb_forall in Hall.
      specialize (Hall _ Hin). now rewrite (day_value_unmatched k v d rid c Hk Hv Hc) in Hall. }
    clear -Hall. induction Hall as [|r l Hr _ IH]; [reflexivity|].
    cbn [filter]. now rewrite Hr. }
  unfold delete_matching, con_execute. cbn [db statements].
  rewrite (execute_delete_any m kwargs _ t Hne Hok).
  replace (int64 m) with true
    by (symmetry; unfold int64; apply andb_true_iff; split; apply Z.leb_le; lia).
  rewrite Hnone. unfold limited. destruct (m <? 0)%Z; cbn [firstn]; rewrite ?firstn_nil;
    now rewrite without_nil.
Qed.

Lemma seeded_rows_day_filter_witness :
  let w1 := snd (create_table sample_clock fixture sample_today (fun _ => 0%Q) sample_world) in
  delete_matching sample_clock dozen_eggs 50 None
                  [("state", PStr "Texas"); ("date", PStr "2022-11-04")] w1
  = (Returned tt, mkWorld (db w1) (S (statements w1))).
Proof.
  refine (seeded_rows_day_filter sample_clock fixture sample_today (fun _ => 0%Q) sample_world
            dozen_eggs 50 None [("state", PStr "Texas"); ("date", PStr "2022-11-04")]
            "date" (PStr "2022-11-04") _ eq_refl _ eq_refl eq_refl eq_refl _).
  - discriminate.
  - right. left. reflexivity.
  - split; discriminate.
Defined.

(** ** The records of [get_test_data] and the vocabulary *)

Lemma apply_price_key f i df df' :
  apply_price f i df = Returned df' -> map key df' = map key df.
Proof.
  revert i df'. induction df as [|s df IH]; intros i df'; cbn [apply_price].
  - now intros [= <-].
  - destruct (f i s); [|discriminate].
    destruct (apply_price f (S i) df) as [rest|] eqn:E; [|discriminate].
    intros [= <-]. cbn [map]. now rewrite (IH _ _ E).
Qed.

Lemma get_test_data_key cls today z df :
  get_test_data cls today z = Returned df -> map key df = map key (combos cls today).
Proof.
  unfold get_test_data.
  destruct (apply_price _ 0 (combos cls today)) as [df1|] eqn:E1; cbn [bind]; [|discriminate].
  destruct (apply_price _ 0 df1) as [df2|] eqn:E2; cbn [bind]; [|discriminate].
  intros E3. apply apply_price_key in E1, E2, E3. congruence.
Qed.

Lemma date_range_window e n d :
  In d (date_range e n) -> (e - Z.of_nat n < d <= e)%Z.
Proof.
  unfold date_range. intros H. apply in_map_iff in H as (i & <- & Hi).
  apply in_seq in Hi. lia.
Qed.

(** A combination pairs an item with its category and a city with its
    state, on a day of the window. *)
Lemma combos_paired cls today s :
  In s (combos cls today) ->
  (exists items, In (rCategory s, items) (category_item_map cls) /\ In (rItem s) items)
  /\ (exists cities, In (rState s, cities) (state_city_map cls) /\ In (rCity s) cities)
  /\ (today - 9 <= rDate s <= today)%Z.
Proof.
  unfold combos. intros H.
  apply in_flat_map in H as ([cat items] & Hci & H).
  apply in_flat_map in H as (item & Hitem & H).
  apply in_flat_map in H as ([state cities] & Hsc & H).
  apply in_flat_map in H as (city & Hcity & H).
  apply in_flat_map in H as (dt & Hdt & H).
  apply in_map_iff in H as (i & <- & _). cbn [rCategory rItem rState rCity rDate fst snd] in *.
  split; [eauto|]. split; [eauto|].
  apply date_range_window in Hdt. lia.
Qed.

Lemma length_concat_sum {A} (ls : list (list A)) :
  List.length (List.concat ls) = list_sum (map (@List.length A) ls).
Proof.
  induction ls as [|l ls IH]; [reflexivity|].
  cbn [List.concat map list_sum]. now rewrite length_app, IH.
Qed.

Lemma in_values {A} (k : string) (l : list A) (d : list (string * list A)) a :
  In (k, l) d -> In a l -> In k (map fst d) /\ In a (List.concat (map snd d)).
Proof.
  intros Hd Ha. split.
  - apply in_map_iff. now exists (k, l).
  - apply in_concat. exists l. split; [|exact Ha]. apply in_map_iff. now exists (k, l).
Qed.

(** X13.  The records of [get_test_data] stay inside the vocabulary.
    Whenever the call returns, the frame has as many records as there
    are available items times available cities times 50 (ten days, five
    replicas), and every record pairs an item with the category that
    lists it and a city with the state that lists it, on one of the ten
    days that end today; so every value of a record is among those that
    [available_categories], [available_items], [available_states] and
    [available_cities] offer. *)
Theorem get_test_data_in_vocabulary (cls : vocabulary) (today : Z) (z : nat -> Q)
        (df : list record) :
  get_test_data cls today z = Returned df ->
  List.length df
  = List.length (available_items cls) * List.length (available_cities cls) * 50
  /\ Forall (fun r =>
       (exists items, In (rCategory r, items) (category_item_map cls) /\ In (rItem r) items)
       /\ (exists cities, In (rState r, cities) (state_city_map cls) /\ In (rCity r) cities)
       /\ (today - 9 <= rDate r <= today)%Z
       /\ In (rCategory r) (available_categories cls) /\ In (rItem r) (available_items cls)
       /\ In (rState r) (available_states cls) /\ In (rCity r) (available_cities cls)) df.
Proof.
  intros Hdf. pose proof (get_test_data_key cls today z df Hdf) as Hkey. split.
  - rewrite <- (length_map key df), Hkey, length_map, length_combos.
    unfold seed_count, item_count, city_count, available_items, available_cities.
    rewrite !length_concat_sum, !map_map. lia.
  - apply Forall_forall. intros r Hr.
    assert (Hk : In (key r) (map key (combos cls today)))
      by (rewrite <- Hkey; now apply in_map).
    apply in_map_iff in Hk as (s & Hs & Hin).
    unfold key in Hs. injection Hs as Hd Hc Hi Hst Hci.
    destruct (combos_paired cls today s Hin) as ((items & Hci1 & Hci2) & (cities & Hsc1 & Hsc2) & Hw).
    rewrite Hd, Hc, Hi, Hst, Hci in *.
    destruct (in_values _ _ _ _ Hci1 Hci2) as [Hcat Hitem].
    destruct (in_values _ _ _ _ Hsc1 Hsc2) as [Hstate Hcity].
    repeat split; eauto; lia.
Qed.

Lemma get_test_data_in_vocabulary_witness :
  exists df,
    get_test_data Observation_class sample_today (fun _ => 0%Q) = Returned df
    /\ List.length df = 3 * 5 * 50.
Proof.
  pose proof (get_test_data_used Observation_class sample_today (fun _ => 0%Q) eq_refl) as H.
  eexists. split; [exact H|].
  exact (proj1 (get_test_data_in_vocabulary Observation_class sample_today (fun _ => 0%Q) _ H)).
Defined.

(** ** Deleting by rowid *)

Lemma matches_rowid z r : matches [("rowid", PInt z)] r = (rowid r =? z)%Z.
Proof.
  unfold matches, field_matches. cbn [forallb fst snd literal_value].
  change (column_of_name "rowid") with (Some ColRowid). cbv beta iota.
  cbn [column_value sql_eq]. now rewrite rowid_eq, andb_true_r.
Qed.

(** X14.  A row can be deleted by its rowid.  The filter rowid = z, with
    a bound from 1 to 2^63 - 1, makes [delete_matching] return and
    remove the row whose rowid is z, and no other row; when no row has
    that rowid the table is left as it was. *)
Theorem delete_matching_by_rowid clock (self : Observation) (m z : Z)
        (order : option (list (string * pyval))) (t : table) (n : nat) :
  (1 <= m <= 9223372036854775807)%Z ->
  delete_matching clock self m order [("rowid", PInt z)] (mkWorld (Some t) n)
  = (Returned tt, mkWorld (Some (filter (fun r => negb (rowid r =? z)%Z) t)) (S n)).
Proof.
  intros Hm.
  rewrite (delete_matching_eq clock self m order [("rowid", PInt z)] t n) by
    (try discriminate; try reflexivity; lia).
  do 3 f_equal. unfold without.
  rewrite (filter_ext _ _ (matches_rowid z)).
  set (F := filter (fun r => (rowid r =? z)%Z) t).
  apply filter_ext_in. intros r Hr. f_equal.
  destruct (rowid r =? z)%Z eqn:Hz.
  - assert (Hin : In r F) by (apply filter_In; now split).
    destruct F as [|r0 l] eqn:E; [contradiction|].
    assert (H0 : (rowid r0 =? z)%Z = true).
    { assert (Hin0 : In r0 F) by (rewrite E; now left).
      subst F. now apply filter_In in Hin0. }
    replace (Z.to_nat m) with (S (Z.to_nat (m - 1))) by lia.
    cbn [firstn existsb]. apply Z.eqb_eq in Hz, H0. rewrite Hz, H0, Z.eqb_refl. reflexivity.
  - assert (Hall : Forall (fun r' => rowid r' = z) (firstn (Z.to_nat m) F)).
    { apply Forall_forall. intros r' Hr'. apply in_firstn in Hr'.
      subst F. apply filter_In in Hr' as [_ Hr']. now apply Z.eqb_eq. }
    clear -Hall Hz. induction Hall as [|r' l' Hr' _ IH]; [reflexivity|].
    cbn [existsb]. now rewrite Hr', Hz, IH.
Qed.

Lemma delete_matching_by_rowid_witness :
  delete_matching sample_clock dozen_eggs 1 None [("rowid", PInt 1)]
                  (snd (write sample_clock dozen_eggs sample_world))
  = (Returned tt, mkWorld (Some [(2%Z, cells_of dozen_eggs (sample_clock 1))]) 3).
Proof.
  refine (delete_matching_by_rowid sample_clock dozen_eggs 1 1 None
            (one_row ++ [(2%Z, cells_of dozen_eggs (sample_clock 1))])%list 2 _).
  split; discriminate.
Defined.

(** ** The case of the filter keys *)

Lemma upper_lower c : PyStr.upper (PyStr.lower c) = PyStr.upper c.
Proof. destruct c as [[|] [|] [|] [|] [|] [|] [|] [|]]; reflexivity. Qed.

Lemma capitalize_lower k : PyStr.capitalize (PyStr.lower_str k) = PyStr.capitalize k.
Proof.
  destruct k as [|c k]; [reflexivity|].
  change (PyStr.lower_str (String c k)) with (String (PyStr.lower c) (PyStr.lower_str k)).
  cbn [PyStr.capitalize]. now rewrite upper_lower, lower_str_idem.
Qed.

(** X15.  The keys of a filter count whatever their case.  Two filters
    whose entries have the same values under keys that differ only in
    the case of their letters -- city, City, CITY -- make
    [delete_matching] send the same statement: the two calls do the
    same. *)
Theorem delete_matching_key_case clock (self : Observation) (m : Z)
        (order : option (list (string * pyval))) (kwargs kwargs' : list (string * pyval))
        (w : world) :
  map (fun kv => (PyStr.lower_str (fst kv), snd kv)) kwargs
  = map (fun kv => (PyStr.lower_str (fst kv), snd kv)) kwargs' ->
  delete_sql m kwargs = delete_sql m kwargs'
  /\ delete_matching clock self m order kwargs w = delete_matching clock self m order kwargs' w.
Proof.
  intros H.
  assert (E : delete_sql m kwargs = delete_sql m kwargs').
  { unfold delete_sql. do 2 f_equal.
    assert (Hc : forall l, map condition_text l
                           = map (fun kv => PyStr.capitalize (fst kv) ++ "=" ++ sqlize (snd kv))
                                 (map (fun kv => (PyStr.lower_str (fst kv), snd kv)) l)).
    { intros l. rewrite map_map. apply map_ext. intros [k v]. unfold condition_text.
      cbn [fst snd]. now rewrite capitalize_lower. }
    now rewrite (Hc kwargs), (Hc kwargs'), H. }
  split; [exact E|]. unfold delete_matching. now rewrite E.
Qed.

Lemma delete_matching_key_case_witness :
  delete_matching sample_clock dozen_eggs 1 None [("CITY", PStr "Austin")] sample_world
  = delete_matching sample_clock dozen_eggs 1 None [("city", PStr "Austin")] sample_world.
Proof.
  exact (proj2 (delete_matching_key_case sample_clock dozen_eggs 1 None
                  [("CITY", PStr "Austin")] [("city", PStr "Austin")] sample_world eq_refl)).
Defined.

(** ** The dashboard callbacks *)

(** A row is appended, then a filter that matches it and no older row
    takes it away again. *)
Lemma delete_last_written clock self m order kwargs (t : table) c n :
  kwargs <> [] -> matches kwargs (next_rowid t, c) = true ->
  filter (matches kwargs) t = [] -> (1 <= m <= 9223372036854775807)%Z ->
  delete_matching clock self m order kwargs (mkWorld (Some (t ++ [(next_rowid t, c)])%list) n)
  = (Returned tt, mkWorld (Some t) (S n)).
Proof.
  intros Hne Hnew Hold Hm.
  rewrite (delete_matching_eq clock self m order kwargs _ n Hne
             (matches_filter_ok kwargs _ Hnew)) by lia.
  rewrite filter_app, Hold. cbn [filter List.app]. rewrite Hnew.
  replace (Z.to_nat m) with (S (Z.to_nat (m - 1))) by lia.
  cbn [firstn]. rewrite firstn_nil. now rewrite without_last.
Qed.

(** On a table whose rows all hold the text of a midnight as their
    date, a filter with a day value for the date removes nothing,
    whether the call returns or raises. *)
Lemma delete_day_filter_unchanged clock self m order kwargs k v (t : table) n :
  Forall (fun r => exists d, cDate (row_cells r)
                             = SText (strftime_fields "%Y-%m-%d %H:%M:%S" d midnight)) t ->
  In (k, v) kwargs -> column_of_name k = Some ColDate -> day_value v = true ->
  keys_ok kwargs = true ->
  snd (delete_matching clock self m order kwargs (mkWorld (Some t) n))
  = mkWorld (Some t) (S n).
Proof.
  intros Hd Hin Hk Hv Hkeys.
  assert (Hne : kwargs <> []) by (intros ->; contradiction).
  destruct (existsb (fun kv => unwritable (snd kv)) kwargs) eqn:Hu.
  - destruct (delete_matching_unwritable_filter_aux clock self m order kwargs (Some t) n Hkeys Hu)
      as [e ->]. reflexivity.
  - assert (Hok : filter_ok kwargs = true).
    { unfold filter_ok, keys_ok in *. apply forallb_forall. intros kv Hkv.
      rewrite forallb_forall in Hkeys. specialize (Hkeys kv Hkv).
      destruct (column_of_name (fst kv)); [|discriminate].
      assert (Hw : unwritable (snd kv) = false).
      { destruct (unwritable (snd kv)) eqn:E; [|reflexivity].
        assert (existsb (fun kv => unwritable (snd kv)) kwargs = true); [|congruence].
        apply existsb_exists. eauto. }
      unfold unwritable in Hw. now destruct (literal_value (snd kv)). }
    assert (Hnone : filter (matches kwargs) t = []).
    { assert (Hall : Forall (fun r => matches kwargs r = false) t).
      { eapply Forall_impl; [|exact Hd].
        intros [rid c] [d Hc]. cbn [row_cells snd] in Hc. unfold matches.
        apply not_true_is_false. intros Hall. rewrite forallb_forall in Hall.
        specialize (Hall _ Hin).
        now rewrite (day_value_unmatched k v d rid c Hk Hv Hc) in Hall. }
      clear -Hall. induction Hall as [|r l Hr _ IH]; [reflexivity|].
      cbn [filter]. now rewrite Hr. }
    unfold delete_matching, con_execute. cbn [db statements].
    rewrite (execute_delete_any m kwargs _ t Hne Hok).
    destruct (int64 m); [|reflexivity].
    rewrite Hnone. unfold limited. destruct (m <? 0)%Z; cbn [firstn]; rewrite ?firstn_nil;
      now rewrite without_nil.
Qed.

Section CallbackProperties.

Variable clock : nat -> Z.
Variable import_time : date * time.
Variable strptime_date : string -> result date.
Variable strptime_datetime : string -> result (date * time).
Variable to_float : pyval -> result pyfloat.
Variable figure : Type.
Variable px_scatter : DataFrame -> result figure.
Variable px_bar_of_means : DataFrame -> result figure.

Let new_observation' := new_observation import_time strptime_date to_float.
Let table_and_scatter' := table_and_scatter clock figure px_scatter.
Let update_graph' :=
  update_graph clock strptime_date strptime_datetime figure px_scatter px_bar_of_means.
Let delete_observations' :=
  delete_observations clock import_time strptime_date to_float figure px_scatter.
Let update_observation' :=
  update_observation clock import_time strptime_date strptime_datetime to_float figure
                     px_scatter px_bar_of_means.

Lemma table_and_scatter_world w :
  snd (table_and_scatter' w) = mkWorld (db w) (S (statements w)).
Proof.
  unfold table_and_scatter', table_and_scatter.
  pose proof (table_df_effect clock w) as [Hs Hd].
  destruct (table_df clock w) as [[df|e] w'] eqn:E; cbn [fst snd] in *.
  - destruct (px_scatter df); cbn [snd]; destruct w'; cbn in *; congruence.
  - destruct w'; cbn in *; congruence.
Qed.

Lemma update_graph_world graph_type date w :
  snd (update_graph' graph_type date w) = mkWorld (db w) (S (statements w)).
Proof.
  unfold update_graph', update_graph.
  destruct (String.eqb graph_type graph_by_city); [|apply table_and_scatter_world].
  pose proof (table_df_effect clock w) as [Hs Hd].
  destruct (table_df clock w) as [[df|e] w'] eqn:E; cbn [fst snd] in *.
  - assert (Hw : w' = mkWorld (db w) (S (statements w)))
      by (destruct w'; cbn in *; congruence).
    destruct (picked_date strptime_date date); [|exact Hw].
    destruct (match date with Some s => _ | None => _ end) as [[d' t']|]; [|exact Hw].
    destruct (px_bar_of_means _); exact Hw.
  - destruct w'; cbn in *; congruence.
Qed.

(** X16.  Which callbacks touch the table.  Whatever the inputs and
    whatever the library calls do, [update_observation] leaves the table
    as it was unless it was triggered by the delete button with at least
    one click on it, or by none of the graph type, the date picker and
    the delete button with at least one click on the save button; and a
    change of the date does what a change of the graph type does. *)
Theorem update_observation_changes (triggered_id : option string) (n_clicks n_clicks2 : Z)
        (graph_type : string) (date category item : option string) (price : pyval)
        (state city : option string) (observations_to_delete : Z) (w : world) :
  let r := update_observation' triggered_id n_clicks n_clicks2 graph_type date category item
                               price state city observations_to_delete w in
  (db (snd r) = db w
   \/ (triggered_id = Some "delete-button" /\ (1 <= n_clicks2)%Z)
   \/ (known_trigger triggered_id = false /\ (1 <= n_clicks)%Z))
  /\ update_observation' (Some "date-input") n_clicks n_clicks2 graph_type date category item
                         price state city observations_to_delete w
     = update_observation' (Some "graph-type") n_clicks n_clicks2 graph_type date category item
                           price state city observations_to_delete w.
Proof.
  intros r. subst r. split.
  - unfold update_observation', update_observation, known_trigger.
    destruct triggered_id as [t|].
    + destruct (String.eqb t "graph-type") eqn:E1;
        [left; fold update_graph'; now rewrite update_graph_world|].
      destruct (String.eqb t "date-input") eqn:E2.
      { left. fold update_graph'.
        destruct (negb (String.eqb graph_type graph_by_city)); now rewrite update_graph_world. }
      destruct (String.eqb_spec t "delete-button") as [->|Hne].
      * unfold delete_observations. destruct (1 <=? n_clicks2)%Z eqn:Hc.
        -- right. left. split; [reflexivity | now apply Z.leb_le].
        -- left. fold table_and_scatter'. now rewrite table_and_scatter_world.
      * cbn [orb]. destruct (1 <=? n_clicks)%Z eqn:Hc.
        -- right. right. split; [reflexivity | now apply Z.leb_le].
        -- left. fold table_and_scatter'. now rewrite table_and_scatter_world.
    + destruct (1 <=? n_clicks)%Z eqn:Hc.
      * right. right. split; [reflexivity | now apply Z.leb_le].
      * left. fold table_and_scatter'. now rewrite table_and_scatter_world.
  - unfold update_observation', update_observation.
    change (String.eqb "date-input" "graph-type") with false.
    change (String.eqb "date-input" "date-input") with true.
    change (String.eqb "graph-type" "graph-type") with true. cbv beta iota.
    destruct (String.eqb_spec graph_type graph_by_city) as [->|]; reflexivity.
Qed.

(** X17.  The delete button spares the seeded rows.  [create_table]
    stores the day of a seeded row as the text of its midnight, and
    [delete_observations] filters on the text of the date picker, which
    has no space in it: after a [create_table] that returned, whatever
    the other inputs are and whatever the call does -- return, or raise
    for a date, a price or a filter it cannot use -- the table is left as
    it was. *)
Theorem delete_observations_spares_seed (cls : vocabulary) (today : Z) (z : nat -> Q)
        (w : world) (n_clicks2 observations_to_delete : Z)
        (date category state city : option string) (price : pyval) (item : option string) :
  combos cls today <> [] -> used_ok cls today = true ->
  match date with Some s => free_of " " s = true | None => True end ->
  let w1 := snd (create_table clock cls today z w) in
  db (snd (delete_observations' n_clicks2 observations_to_delete date category state city
                                price item w1))
  = db w1.
Proof.
  clear update_observation' update_graph' new_observation' strptime_datetime px_bar_of_means.
  intros _ Hused Hdate w1. subst w1.
  unfold create_table, drop_table_if_exists, create_table_statement.
  cbn [db statements]. rewrite (get_test_data_used cls today z Hused), to_sql_seeded.
  cbn [snd db].
  set (t := seeded clock _ _ []). set (n := _ + _).
  unfold delete_observations', delete_observations.
  destruct (1 <=? n_clicks2)%Z;
    [|fold table_and_scatter'; now rewrite table_and_scatter_world].
  unfold new_observation, picked_date.
  destruct date as [s|]; [|reflexivity].
  destruct (strptime_date s) as [d|]; [|reflexivity].
  destruct (to_float price) as [p|]; [|reflexivity].
  pose proof (delete_day_filter_unchanged clock
                (mkObservation (Some (Day d)) item (Some p) category state city import_time)
                observations_to_delete None
                [("state", of_str state); ("city", of_str city);
                 ("date", of_str (Some s)); ("category", of_str category)]
                "date" (PStr s) t n) as H.
  destruct (delete_matching clock _ observations_to_delete None _ (mkWorld (Some t) n))
    as [[u|e] w'] eqn:E; cbn [snd] in H.
  - fold table_and_scatter'. rewrite table_and_scatter_world, H; [reflexivity| | | | |];
      try reflexivity; try exact Hdate; [|cbn; tauto].
    apply (seeded_dates clock _ _ [] (Forall_nil _)).
  - cbn [snd]. rewrite H; [reflexivity| | | | |]; try reflexivity; try exact Hdate; [|cbn; tauto].
    apply (seeded_dates clock _ _ [] (Forall_nil _)).
Qed.

(** X18.  Saved with the save button, deleted with the delete button.
    The inputs of the form make an observation that [write] accepts, the
    date picker holds the ISO text YYYY-MM-DD of the date that is read
    from it, the year of that date has four digits (from 1000 on, so
    that [strftime] writes the date as the picker holds it), and no
    stored row has the state, city, date and category of the form.  Then
    a click on the save button appends the row, and a click on the
    delete button with the same inputs and a number from 1 to 2^63 - 1
    removes it again: the table is what it was before the two clicks. *)
Theorem save_then_delete_observation (t : table) (n : nat) (n_clicks n_clicks2 : Z)
        (graph_type : string) (s : string) (d : date) (p : pyfloat)
        (category item : option string) (price : pyval) (state city : option string)
        (observations_to_delete : Z) :
  strptime_date s = Ok d -> s = strftime_fields "%Y-%m-%d" d midnight ->
  (1000 <= year d)%N ->
  to_float price = Ok p ->
  let o := mkObservation (Some (Day d)) item (Some p) category state city import_time in
  complete o = true -> well_formed o = true ->
  filter (matches (dashboard_filter (Some s) category state city)) t = [] ->
  (1 <= n_clicks)%Z -> (1 <= n_clicks2)%Z ->
  (1 <= observations_to_delete <= 9223372036854775807)%Z ->
  let saved :=
    update_observation' (Some "save-button") n_clicks n_clicks2 graph_type (Some s)
                        category item price state city observations_to_delete
                        (mkWorld (Some t) n) in
  db (snd saved) = Some (t ++ [(next_rowid t, cells_of o (clock n))])%list
  /\ db (snd (update_observation' (Some "delete-button") n_clicks n_clicks2 graph_type
                                  (Some s) category item price state city
                                  observations_to_delete (snd saved)))
     = Some t.
Proof.
  intros Hs Hiso Hyear Hp o Hc Hw Hold Hn1 Hn2 Hm saved.
  assert (Hcanon : s = strftime_text "%Y-%m-%d" d midnight)
    by (now rewrite (strftime_text_iso d Hyear)).
  assert (Esaved : snd saved
                   = mkWorld (Some (t ++ [(next_rowid t, cells_of o (clock n))])%list)
                             (S (S n))).
  { subst saved. unfold update_observation', update_observation.
    change (String.eqb "save-button" "graph-type") with false.
    change (String.eqb "save-button" "date-input") with false.
    change (String.eqb "save-button" "delete-button") with false. cbv beta iota.
    replace (1 <=? n_clicks)%Z with true by (symmetry; now apply Z.leb_le).
    unfold new_observation, picked_date. rewrite Hs, Hp. fold o.
    rewrite (write_complete clock o t n Hc Hw). fold table_and_scatter'.
    now rewrite table_and_scatter_world. }
  rewrite Esaved. cbn [db]. split; [reflexivity|]. clear Esaved saved.
  unfold update_observation', update_observation.
  change (String.eqb "delete-button" "graph-type") with false.
  change (String.eqb "delete-button" "date-input") with false.
  change (String.eqb "delete-button" "delete-button") with true. cbv beta iota.
  unfold delete_observations.
  replace (1 <=? n_clicks2)%Z with true by (symmetry; now apply Z.leb_le).
  unfold new_observation, picked_date. rewrite Hs, Hp. fold o.
  assert (Hnew : matches (dashboard_filter (Some s) category state city)
                         (next_rowid t, cells_of o (clock n)) = true).
  { unfold matches, dashboard_filter. cbn [forallb]. rewrite andb_true_r.
    assert (Hown : forall kv, In kv (own_filter o) ->
                              field_matches kv (next_rowid t, cells_of o (clock n)) = true)
      by (apply own_filter_matches; assumption).
    rewrite (Hown ("state", of_str state)) by (cbn; tauto).
    rewrite (Hown ("city", of_str city)) by (cbn; tauto).
    rewrite (Hown ("category", of_str category)) by (cbn; tauto).
    cbn [andb]. rewrite andb_true_r.
    pose proof (Hown ("date", of_date (Date o))) as Hdate.
    unfold field_matches in *. cbn [fst snd of_str] in *.
    change (column_of_name "date") with (Some ColDate) in *. cbv beta iota in *.
    cbn [o Date of_date literal_value] in Hdate. cbn [literal_value].
    rewrite Hcanon at 1. rewrite (plain_no_nul _ (date_text_plain d)).
    rewrite Hcanon. apply Hdate. cbn; tauto. }
  change [("state", of_str state); ("city", of_str city);
          ("date", of_str (Some s)); ("category", of_str category)]
    with (dashboard_filter (Some s) category state city).
  rewrite (delete_last_written clock o observations_to_delete None
             (dashboard_filter (Some s) category state city) t (cells_of o (clock n))
             (S (S n))); [|discriminate|exact Hnew|exact Hold|exact Hm].
  fold table_and_scatter'. now rewrite table_and_scatter_world.
Qed.

End CallbackProperties.

Lemma delete_observations_spares_seed_witness :
  let w1 := snd (create_table sample_clock fixture sample_today (fun _ => 0%Q) sample_world) in
  db (snd (delete_observations sample_clock sample_import_time sample_strptime_date
                               sample_to_float unit (fun _ => Ok tt)
                               1 5 (Some "2022-11-04") (Some "Food") (Some "Texas")
                               (Some "Dallas") (PFloat f_3_99) (Some "Eggs") w1))
  = db w1.
Proof.
  refine (delete_observations_spares_seed sample_clock sample_import_time sample_strptime_date
            sample_to_float unit (fun _ => Ok tt) fixture sample_today (fun _ => 0%Q)
            sample_world 1 5 (Some "2022-11-04") (Some "Food") (Some "Texas") (Some "Dallas")
            (PFloat f_3_99) (Some "Eggs") _ eq_refl eq_refl).
  discriminate.
Defined.

Lemma save_then_delete_observation_witness :
  let saved :=
    update_observation sample_clock sample_import_time sample_strptime_date
                       sample_strptime_datetime sample_to_float unit
                       (fun _ => Ok tt) (fun _ => Ok tt)
                       (Some "save-button") 1 1 "Item Prices Over Time" (Some "2022-11-04")
                       (Some "Food") (Some "Dozen eggs") (PFloat f_3_99) (Some "Texas")
                       (Some "Dallas") 1 sample_world in
  List.length (match db (snd saved) with Some t => t | None => [] end) = 2
  /\ db (snd (update_observation sample_clock sample_import_time sample_strptime_date
                                 sample_strptime_datetime sample_to_float unit
                                 (fun _ => Ok tt) (fun _ => Ok tt)
                                 (Some "delete-button") 1 1 "Item Prices Over Time"
                                 (Some "2022-11-04") (Some "Food") (Some "Dozen eggs")
                                 (PFloat f_3_99) (Some "Texas") (Some "Dallas") 1 (snd saved)))
     = Some one_row.
Proof.
  intros saved. subst saved. unfold sample_world.
  destruct (save_then_delete_observation sample_clock sample_import_time sample_strptime_date
              sample_strptime_datetime sample_to_float unit (fun _ => Ok tt) (fun _ => Ok tt)
              one_row 1 1 1 "Item Prices Over Time" "2022-11-04" (mkDate 2022 11 4) f_3_99
              (Some "Food") (Some "Dozen eggs") (PFloat f_3_99) (Some "Texas") (Some "Dallas") 1
              eq_refl eq_refl) as [H1 H2].
  - discriminate.
  - reflexivity.
  - reflexivity.
  - reflexivity.
  - reflexivity.
  - discriminate.
  - discriminate.
  - split; discriminate.
  - split; [|exact H2]. rewrite H1. reflexivity.
Defined.
